(** * yema: schema IR, builder, validator and emitter walk

    A shallow embedding of the Go packages [yema], [parser], [validator] and
    [golang] (with the walk of [typescript]), and the properties of the
    specification stated over it; then the emitters [jsonschema], [cue]
    (the conversion to the syntax tree) and [rust], with further
    properties of the code.

    Conventions of the embedding.
    - A Go [string] is a [string]; the model covers ASCII text, where
      [range s] yields one rune per byte.
    - A Go [map[string]V] is a [gomap V]: the list of its entries.  A
      [range] over a map that is an input of the function visits the
      entries in the order of that list, so a statement that holds for every
      list holds for every iteration order.  A [range] over a map the
      function has built itself takes its order from a [RangeOrder].
    - A Go pointer that may be nil is an [option].
    - An [error] is a value of an inductive type with one constructor per
      [fmt.Errorf] call; [nil] is [None]. *)

From Stdlib Require Import ZArith List String Ascii Bool Lia Permutation.
From Stdlib Require Import DecimalString Zpower.
From Corelib Require Import SpecFloat.
From stdpp Require Import base decidable option list gmap strings.

Local Open Scope string_scope.
Local Open Scope Z_scope.
Set Warnings "-register-all,-clear-no-such-hyp".

(** ** Go maps *)

Definition gomap (V : Type) : Type := list (string * V).

(** [v, exists := m[k]] *)
Fixpoint map_get {V : Type} (m : gomap V) (k : string) : option V :=
  match m with
  | [] => None
  | (k', v) :: rest => if String.eqb k k' then Some v else map_get rest k
  end.

(** [m[k] = v] *)
Fixpoint map_set {V : Type} (m : gomap V) (k : string) (v : V) : gomap V :=
  match m with
  | [] => [(k, v)]
  | (k', v') :: rest =>
      if String.eqb k k' then (k', v) :: rest else (k', v') :: map_set rest k v
  end.

Definition map_keys {V : Type} (m : gomap V) : list string := map fst m.

(** The order in which a [range] statement visits the entries of a map that
    was built at run time.  Go leaves it unspecified: any permutation. *)
Record RangeOrder (V : Type) : Type := mkRangeOrder {
  range_of :> gomap V -> list (string * V);
  range_of_perm : forall m, Permutation (range_of m) m
}.
Arguments range_of {V} _ _.
Arguments range_of_perm {V} _ _.

Definition insertion_order (V : Type) : RangeOrder V :=
  {| range_of := fun m => m; range_of_perm := fun m => Permutation_refl m |}.

Definition reverse_order (V : Type) : RangeOrder V :=
  {| range_of := fun m => rev m;
     range_of_perm := fun m => Permutation_sym (Permutation_rev m) |}.

(** ** yema.go *)

Module yema.

Inductive Kind : Set :=
| Invalid | Bool | Int | Int8 | Int16 | Int32 | Int64
| Uint | Uint8 | Uint16 | Uint32 | Uint64
| Float32 | Float64 | Array | Struct | String | Bytes.

(** The value of the [iota] constant, as [%v] prints a [Kind]. *)
Definition Kind_value (k : Kind) : Z :=
  match k with
  | Invalid => 0 | Bool => 1 | Int => 2 | Int8 => 3 | Int16 => 4 | Int32 => 5
  | Int64 => 6 | Uint => 7 | Uint8 => 8 | Uint16 => 9 | Uint32 => 10
  | Uint64 => 11 | Float32 => 12 | Float64 => 13 | Array => 14 | Struct => 15
  | String => 16 | Bytes => 17
  end.

(** [type Type struct { Kind; Optional; Struct *map[string]Type; Array *Type }] *)
Inductive Type_ : Type :=
  mkType {
    TKind : Kind;
    Optional : bool;
    TStruct : option (gomap Type_);
    TArray : option Type_
  }.

(** Nesting depth of a schema. *)
Fixpoint depth (t : Type_) : nat :=
  match t with
  | mkType _ _ s a =>
      S (Nat.max
           match s with
           | None => O
           | Some fs => fold_right (fun kt d => Nat.max (depth (snd kt)) d) O fs
           end
           match a with None => O | Some e => depth e end)
  end.

End yema.

Global Instance Kind_eq_dec : EqDecision yema.Kind.
Proof. solve_decision. Defined.

(** ** Dynamic values: what an [interface{}] may hold

    An integer carries its value as a [Z] within the range of its Go type,
    so the conversions [int64(v)] of a signed integer and [uint64(v)] of an
    integer that is not negative leave the number as it is. *)

Inductive value : Type :=
| VNil
| VBool (b : bool)
| VString (s : string)
| VBytes (b : list Z)
| VNumber (v : string)              (* json.Number *)
| VInt (v : Z) | VInt8 (v : Z) | VInt16 (v : Z) | VInt32 (v : Z) | VInt64 (v : Z)
| VUint (v : Z) | VUint8 (v : Z) | VUint16 (v : Z) | VUint32 (v : Z) | VUint64 (v : Z)
| VFloat32 (v : spec_float)          (* in the canonical form of binary32 *)
| VFloat64 (v : spec_float)          (* in the canonical form of binary64 *)
| VSlice (arr : list value)          (* []interface{} *)
| VMap (m : gomap value)             (* map[string]interface{} *)
| VOther.                            (* any other dynamic type *)

(** ** Go's numeric conversions and [strconv] *)

(** The range of [int64] and of [uint64]. *)
Definition int64_min : Z := - 2 ^ 63.
Definition int64_max : Z := 2 ^ 63 - 1.
Definition uint64_max : Z := 2 ^ 64 - 1.

Definition is_digit (c : ascii) : bool :=
  (48 <=? Z.of_N (N_of_ascii c)) && (Z.of_N (N_of_ascii c) <=? 57).

Definition digit_value (c : ascii) : Z := Z.of_N (N_of_ascii c) - 48.

(** The digits of a base-10 literal, most significant first; [None] on a
    character that is no digit. *)
Fixpoint parse_digits (s : string) (acc : Z) : option Z :=
  match s with
  | EmptyString => Some acc
  | String c rest =>
      if is_digit c then parse_digits rest (10 * acc + digit_value c) else None
  end.

(** [strconv.ParseInt(s, 10, 64)]: the value and whether [err == nil].  A
    syntax error gives 0; a value out of range gives the nearest bound, with
    an error. *)
Definition strconv_ParseInt (s : string) : Z * bool :=
  match s with
  | EmptyString => (0, false)
  | String c rest =>
      let neg := Ascii.eqb c "-" in
      let body := if Ascii.eqb c "+" || neg then rest else s in
      match body with
      | EmptyString => (0, false)
      | _ =>
          match parse_digits body 0 with
          | None => (0, false)
          | Some un =>
              if negb neg && (2 ^ 63 <=? un) then (int64_max, false)
              else if neg && (2 ^ 63 <? un) then (int64_min, false)
              else (if neg then - un else un, true)
          end
      end
  end.

(** [float64(v)] for an integer [v]: rounded to nearest even. *)
Definition float64_of_Z (v : Z) : spec_float := binary_normalize 53 1024 v 0 false.

(** [float64(v)] for a [float32] [v]: the same number in the wider format. *)
Definition float64_of_float32 (v : spec_float) : spec_float :=
  match v with
  | S754_finite s m e => binary_normalize 53 1024 (cond_Zopp s (Zpos m)) e s
  | _ => v
  end.

(** The integer part of a finite float, rounded toward zero. *)
Definition float_trunc (v : spec_float) : option Z :=
  match v with
  | S754_zero _ => Some 0
  | S754_finite s m e =>
      Some (cond_Zopp s (if 0 <=? e then Zpos m * 2 ^ e else Zpos m / 2 ^ (- e)))
  | _ => None
  end.

(** What the Go specification leaves to the implementation, and what lives
    in the standard library: the result of converting a float that the
    integer type cannot represent, and [strconv.ParseFloat(s, 64)] behind
    [json.Number.Float64] (the value and whether [err == nil]). *)
Record Platform : Type := mkPlatform {
  int64_unrepresentable : spec_float -> Z;
  uint64_unrepresentable : spec_float -> Z;
  strconv_ParseFloat : string -> spec_float * bool
}.

(** ** validator *)

Module validator.

(** The errors of the package, one constructor per format string. *)
Inductive error : Type :=
| InvalidSchema                                   (* invalid schema *)
| RequiredFieldMissing (path : string)            (* required field '%s' is missing *)
| NilNotOptional (path : string)                  (* field '%s' is nil but not optional *)
| MustBeBoolean (path : string)                   (* field '%s' must be a boolean *)
| MustBeString (path : string)                    (* field '%s' must be a string *)
| MustBeInteger (path : string)                   (* field '%s' must be an integer *)
| MustBeNonNegativeInteger (path : string)        (* field '%s' must be a non-negative integer *)
| MustBeNumber (path : string)                    (* field '%s' must be a number *)
| OutOfRange (path : string) (kind : string)      (* field '%s' value out of range for <kind> *)
| ArrayDefinitionNil (path : string)              (* array type definition for '%s' is nil *)
| MustBeArray (path : string)                     (* field '%s' must be an array *)
| StructDefinitionNil (path : string)             (* struct type definition for '%s' is nil *)
| MustBeMap (path : string)                       (* field '%s' must be a map[string]interface{} *)
| MustBeBytes (path : string)                     (* field '%s' must be bytes or string *)
| UnsupportedType (kind : yema.Kind) (path : string). (* unsupported type %v for field '%s' *)

Section WithPlatform.

Context (platform : Platform).

(** [int64(v)] for a [float64] [v]. *)
Definition int64_of_float64 (v : spec_float) : Z :=
  match float_trunc v with
  | Some z =>
      if (int64_min <=? z) && (z <=? int64_max) then z
      else int64_unrepresentable platform v
  | None => int64_unrepresentable platform v
  end.

(** [uint64(v)] for a [float64] [v]. *)
Definition uint64_of_float64 (v : spec_float) : Z :=
  match float_trunc v with
  | Some z =>
      if (0 <=? z) && (z <=? uint64_max) then z
      else uint64_unrepresentable platform v
  | None => uint64_unrepresentable platform v
  end.

(** [v >= 0] on a [float64]. *)
Definition float64_nonneg (v : spec_float) : bool :=
  SFleb (S754_zero false) v.

Definition validateIntValue (value : value) (kind : yema.Kind) (path : string)
  : option error :=
  let '(intVal, isInt) :=
    match value with
    | VNumber v => strconv_ParseInt v
    | VInt v => (v, true)
    | VInt8 v => (v, true)
    | VInt16 v => (v, true)
    | VInt32 v => (v, true)
    | VInt64 v => (v, true)
    | VFloat64 v =>
        if SFeqb v (float64_of_Z (int64_of_float64 v))
        then (int64_of_float64 v, true)
        else (0, false)
    | _ => (0, false)
    end in
  if negb isInt then Some (MustBeInteger path)
  else
    match kind with
    | yema.Int8 =>
        if (intVal <? -128) || (intVal >? 127)
        then Some (OutOfRange path "int8") else None
    | yema.Int16 =>
        if (intVal <? -32768) || (intVal >? 32767)
        then Some (OutOfRange path "int16") else None
    | yema.Int32 =>
        if (intVal <? -2147483648) || (intVal >? 2147483647)
        then Some (OutOfRange path "int32") else None
    | _ => None
    end.

Definition validateUintValue (value : value) (kind : yema.Kind) (path : string)
  : option error :=
  let nonneg (v : Z) : Z * bool := if 0 <=? v then (v, true) else (0, false) in
  let '(uintVal, isUint) :=
    match value with
    | VNumber v =>
        let '(intVal, ok) := strconv_ParseInt v in
        if 0 <=? intVal then (intVal, ok) else (0, false)
    | VUint v => (v, true)
    | VUint8 v => (v, true)
    | VUint16 v => (v, true)
    | VUint32 v => (v, true)
    | VUint64 v => (v, true)
    | VInt v => nonneg v
    | VInt8 v => nonneg v
    | VInt16 v => nonneg v
    | VInt32 v => nonneg v
    | VInt64 v => nonneg v
    | VFloat64 v =>
        if float64_nonneg v && SFeqb v (float64_of_Z (uint64_of_float64 v))
        then (uint64_of_float64 v, true)
        else (0, false)
    | _ => (0, false)
    end in
  if negb isUint then Some (MustBeNonNegativeInteger path)
  else
    match kind with
    | yema.Uint8 =>
        if uintVal >? 255 then Some (OutOfRange path "uint8") else None
    | yema.Uint16 =>
        if uintVal >? 65535 then Some (OutOfRange path "uint16") else None
    | yema.Uint32 =>
        if uintVal >? 4294967295 then Some (OutOfRange path "uint32") else None
    | _ => None
    end.

(** The literal [3.4e38] as a [float64]. *)
Definition float32_bound : spec_float :=
  S754_finite false 8999725064576941 75.

Definition validateFloatValue (value : value) (kind : yema.Kind) (path : string)
  : option error :=
  let '(floatVal, isFloat) :=
    match value with
    | VNumber v => strconv_ParseFloat platform v
    | VFloat32 v => (float64_of_float32 v, true)
    | VFloat64 v => (v, true)
    | VInt v | VInt8 v | VInt16 v | VInt32 v | VInt64 v => (float64_of_Z v, true)
    | VUint v | VUint8 v | VUint16 v | VUint32 v | VUint64 v => (float64_of_Z v, true)
    | _ => (S754_zero false, false)
    end in
  if negb isFloat then Some (MustBeNumber path)
  else if decide (kind = yema.Float32) then
    if SFltb float32_bound floatVal || SFltb floatVal (SFopp float32_bound)
    then Some (OutOfRange path "float32") else None
  else None.

(** [strconv.Itoa(i)] for an index. *)
Definition strconv_Itoa (i : nat) : string :=
  NilEmpty.string_of_uint (Nat.to_uint i).

(** [validateValue] checks that a single value matches a [yema.Type]. *)
Fixpoint validateValue (value : value) (schema : yema.Type_) (path : string)
  {struct schema} : option error :=
  match value with
  | VNil =>
      if yema.Optional schema then None else Some (NilNotOptional path)
  | _ =>
      match yema.TKind schema with
      | yema.Bool =>
          match value with VBool _ => None | _ => Some (MustBeBoolean path) end
      | yema.String =>
          match value with VString _ => None | _ => Some (MustBeString path) end
      | yema.Int | yema.Int8 | yema.Int16 | yema.Int32 | yema.Int64 =>
          validateIntValue value (yema.TKind schema) path
      | yema.Uint | yema.Uint8 | yema.Uint16 | yema.Uint32 | yema.Uint64 =>
          validateUintValue value (yema.TKind schema) path
      | yema.Float32 | yema.Float64 =>
          validateFloatValue value (yema.TKind schema) path
      | yema.Array =>
          match yema.TArray schema with
          | None => Some (ArrayDefinitionNil path)
          | Some elemType =>
              match value with
              | VSlice arr =>
                  (fix each (i : nat) (arr : list _) : option error :=
                     match arr with
                     | [] => None
                     | elem :: rest =>
                         let elemPath := path ++ "[" ++ strconv_Itoa i ++ "]" in
                         match validateValue elem elemType elemPath with
                         | Some err => Some err
                         | None => each (S i) rest
                         end
                     end) O arr
              | _ => Some (MustBeArray path)
              end
          end
      | yema.Struct =>
          match yema.TStruct schema with
          | None => Some (StructDefinitionNil path)
          | Some fields =>
              match value with
              | VMap mapValue =>
                  (fix each (fields : gomap yema.Type_) : option error :=
                     match fields with
                     | [] => None
                     | (fieldName, fieldType) :: rest =>
                         match map_get mapValue fieldName with
                         | None =>
                             if negb (yema.Optional fieldType)
                             then Some (RequiredFieldMissing (path ++ "." ++ fieldName))
                             else each rest
                         | Some nestedValue =>
                             let nestedPath := path ++ "." ++ fieldName in
                             match validateValue nestedValue fieldType nestedPath with
                             | Some err => Some err
                             | None => each rest
                             end
                         end
                     end) fields
              | _ => Some (MustBeMap path)
              end
          end
      | yema.Bytes =>
          match value with
          | VBytes _ | VString _ => None
          | _ => Some (MustBeBytes path)
          end
      | yema.Invalid => Some (UnsupportedType (yema.TKind schema) path)
      end
  end.

(** [Validate] checks a [map[string]interface{}] against a [*yema.Type]. *)
Definition Validate (data : gomap value) (schema : option yema.Type_) : list error :=
  match schema with
  | None => [InvalidSchema]
  | Some schema =>
      match yema.TStruct schema with
      | None => [InvalidSchema]
      | Some fields =>
          fold_left
            (fun errors '(fieldName, fieldType) =>
               match map_get data fieldName with
               | None =>
                   if negb (yema.Optional fieldType)
                   then (errors ++ [RequiredFieldMissing fieldName])%list
                   else errors
               | Some value =>
                   match validateValue value fieldType fieldName with
                   | Some err => (errors ++ [err])%list
                   | None => errors
                   end
               end)
            fields []
      end
  end.

End WithPlatform.

End validator.
(** ** parser/parser.go *)

Module parser.

(** The errors of the package, one constructor per format string; the two
    array errors are the specification's [MissingArrayElementType] and
    [AmbiguousArrayElementType]. *)
Inductive error : Type :=
| InvalidFieldName (name : string)
    (* invalid field name: %q *)
| ExpectedType (fieldName : string) (v : value)
    (* failed parsing field '%s', expected type, not: %s *)
| MissingArrayElementType (fieldName : string)
    (* failed parsing field '%s', must declare type of array item *)
| AmbiguousArrayElementType (fieldName : string).
    (* failed parsing field '%s', can only declare type of array items once *)

(** A Go result pair [(T, error)]. *)
Inductive result (A : Type) : Type :=
| Ok (a : A)
| Err (e : error).
Arguments Ok {A} a.
Arguments Err {A} e.

(** [unicode.IsLetter] and [unicode.IsDigit] on ASCII. *)
Definition unicode_IsLetter (r : ascii) : bool :=
  let n := N_of_ascii r in
  ((65 <=? n) && (n <=? 90) || (97 <=? n) && (n <=? 122))%N.

Definition unicode_IsDigit (r : ascii) : bool :=
  let n := N_of_ascii r in ((48 <=? n) && (n <=? 57))%N.

Fixpoint all_runes (p : ascii -> bool) (s : string) : bool :=
  match s with
  | EmptyString => true
  | String r rest => p r && all_runes p rest
  end.

Definition isValidFieldName (name : string) : bool :=
  match name with
  | EmptyString => false
  | String first rest =>
      if negb (unicode_IsLetter first || Ascii.eqb first "_") then false
      else all_runes
             (fun r => unicode_IsLetter r || unicode_IsDigit r || Ascii.eqb r "_")
             rest
  end.

(** [strings.HasSuffix(key, "?")] *)
Fixpoint has_question_suffix (key : string) : bool :=
  match key with
  | EmptyString => false
  | String c EmptyString => Ascii.eqb c "?"
  | String _ rest => has_question_suffix rest
  end.

(** [key[:len(key)-1]] *)
Fixpoint drop_last (key : string) : string :=
  match key with
  | EmptyString => EmptyString
  | String _ EmptyString => EmptyString
  | String c rest => String c (drop_last rest)
  end.

(** The lookup table of primitive type names. *)
Definition kind_of_name (v : string) : option yema.Kind :=
  if String.eqb v "bool" then Some yema.Bool
  else if String.eqb v "int" then Some yema.Int
  else if String.eqb v "int8" then Some yema.Int8
  else if String.eqb v "int16" then Some yema.Int16
  else if String.eqb v "int32" then Some yema.Int32
  else if String.eqb v "int64" then Some yema.Int64
  else if String.eqb v "uint" then Some yema.Uint
  else if String.eqb v "uint8" then Some yema.Uint8
  else if String.eqb v "uint16" then Some yema.Uint16
  else if String.eqb v "uint32" then Some yema.Uint32
  else if String.eqb v "uint64" then Some yema.Uint64
  else if String.eqb v "float32" then Some yema.Float32
  else if String.eqb v "float64" then Some yema.Float64
  else if String.eqb v "string" then Some yema.String
  else if String.eqb v "bytes" then Some yema.Bytes
  else None.

Fixpoint parseValueToType (fieldName : string) (value : value) (isOptional : bool)
  {struct value} : result yema.Type_ :=
  match value with
  | VString v =>
      match kind_of_name v with
      | Some kind => Ok (yema.mkType kind isOptional None None)
      | None => Err (ExpectedType fieldName value)
      end
  | VSlice v =>
      match v with
      | [] => Err (MissingArrayElementType fieldName)       (* len(v) == 0 *)
      | _ :: _ :: _ => Err (AmbiguousArrayElementType fieldName) (* len(v) > 1 *)
      | [item] =>
          match parseValueToType fieldName item false with
          | Err err => Err err
          | Ok itemType =>
              Ok (yema.mkType yema.Array isOptional None (Some itemType))
          end
      end
  | VMap v =>
      (fix each (v : gomap _) (nestedStruct : gomap yema.Type_)
         : result yema.Type_ :=
         match v with
         | [] => Ok (yema.mkType yema.Struct isOptional (Some nestedStruct) None)
         | (k, val) :: rest =>
             let nestedIsOptional := has_question_suffix k in
             let nestedFieldName := if nestedIsOptional then drop_last k else k in
             if negb (isValidFieldName nestedFieldName)
             then Err (InvalidFieldName nestedFieldName)
             else
               match parseValueToType nestedFieldName val nestedIsOptional with
               | Err err => Err err
               | Ok nestedType =>
                   each rest (map_set nestedStruct nestedFieldName nestedType)
               end
         end) v []
  | _ => Err (ExpectedType fieldName value)
  end.

Definition From (schema : gomap value) : result yema.Type_ :=
  (fix each (schema : gomap value) (structType : gomap yema.Type_)
     : result yema.Type_ :=
     match schema with
     | [] => Ok (yema.mkType yema.Struct false (Some structType) None)
     | (key, value) :: rest =>
         let isOptional := has_question_suffix key in
         let fieldName := if isOptional then drop_last key else key in
         if negb (isValidFieldName fieldName)
         then Err (InvalidFieldName fieldName)
         else
           match parseValueToType fieldName value isOptional with
           | Err err => Err err
           | Ok fieldType => each rest (map_set structType fieldName fieldType)
           end
     end) schema [].

End parser.

(** ** The call stack of the recursive functions

    [parseValueToType] and [validateValue] call themselves once for every
    level of nesting of their input.  A Go program keeps a frame for every
    active call, and the runtime ends the program with the fatal error
    [stack overflow] when the stack of the goroutine passes its limit: that
    is no [error] value, and no panic that [recover] stops.  The functions
    of this module are the two functions once more, with the number of
    activations of the function that the stack still has room for; an
    activation holds the frames of the helpers it calls ([validateIntValue]
    and the like), which do not call back.  Memory other than the stack is
    not modelled. *)

Module stack.

(** How a call ends: it returns, or the stack is exhausted. *)
Inductive run (A : Type) : Type :=
| Returned (a : A)
| StackOverflow.
Arguments Returned {A} a.
Arguments StackOverflow {A}.

(** [parseValueToType] with room for [frames] nested activations. *)
Fixpoint parseValueToType (frames : nat) (fieldName : string) (value : value)
  (isOptional : bool) {struct frames} : run (parser.result yema.Type_) :=
  match frames with
  | O => StackOverflow
  | S frames =>
      match value with
      | VString v =>
          match parser.kind_of_name v with
          | Some kind => Returned (parser.Ok (yema.mkType kind isOptional None None))
          | None => Returned (parser.Err (parser.ExpectedType fieldName value))
          end
      | VSlice v =>
          match v with
          | [] => Returned (parser.Err (parser.MissingArrayElementType fieldName))
          | _ :: _ :: _ =>
              Returned (parser.Err (parser.AmbiguousArrayElementType fieldName))
          | [item] =>
              match parseValueToType frames fieldName item false with
              | StackOverflow => StackOverflow
              | Returned (parser.Err err) => Returned (parser.Err err)
              | Returned (parser.Ok itemType) =>
                  Returned
                    (parser.Ok (yema.mkType yema.Array isOptional None (Some itemType)))
              end
          end
      | VMap v =>
          (fix each (v : gomap _) (nestedStruct : gomap yema.Type_)
             : run (parser.result yema.Type_) :=
             match v with
             | [] =>
                 Returned
                   (parser.Ok (yema.mkType yema.Struct isOptional (Some nestedStruct) None))
             | (k, val) :: rest =>
                 let nestedIsOptional := parser.has_question_suffix k in
                 let nestedFieldName :=
                   if nestedIsOptional then parser.drop_last k else k in
                 if negb (parser.isValidFieldName nestedFieldName)
                 then Returned (parser.Err (parser.InvalidFieldName nestedFieldName))
                 else
                   match parseValueToType frames nestedFieldName val nestedIsOptional with
                   | StackOverflow => StackOverflow
                   | Returned (parser.Err err) => Returned (parser.Err err)
                   | Returned (parser.Ok nestedType) =>
                       each rest (map_set nestedStruct nestedFieldName nestedType)
                   end
             end) v []
      | _ => Returned (parser.Err (parser.ExpectedType fieldName value))
      end
  end.

Section WithPlatform.

Context (platform : Platform).

(** [validateValue] with room for [frames] nested activations. *)
Fixpoint validateValue (frames : nat) (value : value) (schema : yema.Type_)
  (path : string) {struct frames} : run (option validator.error) :=
  match frames with
  | O => StackOverflow
  | S frames =>
      match value with
      | VNil =>
          if yema.Optional schema then Returned None
          else Returned (Some (validator.NilNotOptional path))
      | _ =>
          match yema.TKind schema with
          | yema.Array =>
              match yema.TArray schema with
              | None => Returned (Some (validator.ArrayDefinitionNil path))
              | Some elemType =>
                  match value with
                  | VSlice arr =>
                      (fix each (i : nat) (arr : list _)
                         : run (option validator.error) :=
                         match arr with
                         | [] => Returned None
                         | elem :: rest =>
                             let elemPath :=
                               path ++ "[" ++ validator.strconv_Itoa i ++ "]" in
                             match validateValue frames elem elemType elemPath with
                             | StackOverflow => StackOverflow
                             | Returned (Some err) => Returned (Some err)
                             | Returned None => each (S i) rest
                             end
                         end) O arr
                  | _ => Returned (Some (validator.MustBeArray path))
                  end
              end
          | yema.Struct =>
              match yema.TStruct schema with
              | None => Returned (Some (validator.StructDefinitionNil path))
              | Some fields =>
                  match value with
                  | VMap mapValue =>
                      (fix each (fields : gomap yema.Type_)
                         : run (option validator.error) :=
                         match fields with
                         | [] => Returned None
                         | (fieldName, fieldType) :: rest =>
                             match map_get mapValue fieldName with
                             | None =>
                                 if negb (yema.Optional fieldType)
                                 then Returned
                                        (Some (validator.RequiredFieldMissing
                                                 (path ++ "." ++ fieldName)))
                                 else each rest
                             | Some nestedValue =>
                                 let nestedPath := path ++ "." ++ fieldName in
                                 match validateValue frames nestedValue fieldType
                                         nestedPath with
                                 | StackOverflow => StackOverflow
                                 | Returned (Some err) => Returned (Some err)
                                 | Returned None => each rest
                                 end
                             end
                         end) fields
                  | _ => Returned (Some (validator.MustBeMap path))
                  end
              end
          | yema.Bool =>
              match value with
              | VBool _ => Returned None
              | _ => Returned (Some (validator.MustBeBoolean path))
              end
          | yema.String =>
              match value with
              | VString _ => Returned None
              | _ => Returned (Some (validator.MustBeString path))
              end
          | yema.Int | yema.Int8 | yema.Int16 | yema.Int32 | yema.Int64 =>
              Returned (validator.validateIntValue platform value (yema.TKind schema) path)
          | yema.Uint | yema.Uint8 | yema.Uint16 | yema.Uint32 | yema.Uint64 =>
              Returned (validator.validateUintValue platform value (yema.TKind schema) path)
          | yema.Float32 | yema.Float64 =>
              Returned (validator.validateFloatValue platform value (yema.TKind schema) path)
          | yema.Bytes =>
              match value with
              | VBytes _ | VString _ => Returned None
              | _ => Returned (Some (validator.MustBeBytes path))
              end
          | yema.Invalid =>
              Returned (Some (validator.UnsupportedType (yema.TKind schema) path))
          end
      end
  end.

End WithPlatform.

End stack.

(** ** golang/golang.go *)

Module golang.

Inductive error : Type :=
| NilTypeProvided                          (* nil type provided *)
| ExpectedRootStruct (kind : yema.Kind)    (* expected root type to be Struct, got %v *)
| ExpectedStruct (kind : yema.Kind)        (* expected Struct type, got %v *)
| ArrayWithNilArray                        (* array type with nil Array field *)
| UnexpectedKind (kind : yema.Kind).       (* unexpected type kind: %v *)

(** How a call ends: it returns a value, returns an error, or panics on a
    nil pointer; [OutOfFuel] is the model's own, for a recursion cut short. *)
Inductive outcome (A : Type) : Type :=
| Ok (a : A)
| Err (e : error)
| Panic
| OutOfFuel.
Arguments Ok {A} a.
Arguments Err {A} e.
Arguments Panic {A}.
Arguments OutOfFuel {A}.

(** One [fmt.Fprintf] to the buffer. *)
Inductive chunk : Type :=
| PackageClause (name : string)     (* package %s\n\n *)
| DocComment (structName : string)  (* // %s represents a generated struct\n *)
| TypeOpen (structName : string)    (* type %s struct {\n *)
| FieldLine (goFieldName goFieldType jsonTag : string)
                                    (* \t%s %s `json:...`\n *)
| TypeClose.                        (* }\n\n *)

(** The state a walk threads: the output buffer and the visited set. *)
Record state : Type := mkState {
  buf : list chunk;
  generatedStructs : gset string
}.

Definition write (c : chunk) (st : state) : state :=
  mkState (buf st ++ [c]) (generatedStructs st).

(** [unicode.ToUpper] on ASCII. *)
Definition unicode_ToUpper (char : ascii) : ascii :=
  let n := N_of_ascii char in
  if ((97 <=? n) && (n <=? 122))%N then ascii_of_N (n - 32) else char.

Definition is_separator (char : ascii) : bool :=
  Ascii.eqb char "_" || Ascii.eqb char "-" || Ascii.eqb char " ".

(** The loop of [toCamelCase], from a given [nextUpper]. *)
Fixpoint camel (s : string) (nextUpper : bool) : string :=
  match s with
  | EmptyString => EmptyString
  | String char rest =>
      if is_separator char then camel rest true
      else if nextUpper then String (unicode_ToUpper char) (camel rest false)
      else String char (camel rest false)
  end.

Definition toCamelCase (s : string) : string := camel s true.

Definition go_name_of_kind (k : yema.Kind) : option string :=
  match k with
  | yema.Bool => Some "bool"
  | yema.Int => Some "int"
  | yema.Int8 => Some "int8"
  | yema.Int16 => Some "int16"
  | yema.Int32 => Some "int32"
  | yema.Int64 => Some "int64"
  | yema.Uint => Some "uint"
  | yema.Uint8 => Some "uint8"
  | yema.Uint16 => Some "uint16"
  | yema.Uint32 => Some "uint32"
  | yema.Uint64 => Some "uint64"
  | yema.Float32 => Some "float32"
  | yema.Float64 => Some "float64"
  | yema.String => Some "string"
  | yema.Bytes => Some "[]byte"
  | _ => None
  end.

(** [typeToGoType]: the Go type of a field and the name of the nested
    struct it needs, [""] when it needs none. *)
Fixpoint typeToGoType (t : yema.Type_) (parentName fieldName : string)
  {struct t} : outcome (string * string) :=
  let optional (goType : string) : string :=
    if yema.Optional t then
      if negb (bool_decide (yema.TKind t = yema.Array))
         && negb (bool_decide (yema.TKind t = yema.Bytes))
      then "*" ++ goType else goType
    else goType in
  match yema.TKind t with
  | yema.Array =>
      match yema.TArray t with
      | None => Err ArrayWithNilArray
      | Some elem =>
          match typeToGoType elem parentName fieldName with
          | Ok (elemType, elemNestedName) =>
              Ok (optional ("[]" ++ elemType), elemNestedName)
          | other => other
          end
      end
  | yema.Struct =>
      let nestedStructName := parentName ++ toCamelCase fieldName in
      Ok (optional nestedStructName, nestedStructName)
  | kind =>
      match go_name_of_kind kind with
      | Some goType => Ok (optional goType, "")
      | None => Err (UnexpectedKind kind)
      end
  end.

(** The loop of [generateStructs] over the fields: it writes one line per
    field and collects the nested structs to generate. *)
Fixpoint emitFields (fields : gomap yema.Type_) (structName : string)
  (st : state) (nestedStructs : gomap yema.Type_)
  : outcome (state * gomap yema.Type_) :=
  match fields with
  | [] => Ok (st, nestedStructs)
  | (fieldName, fieldType) :: rest =>
      let goFieldName := toCamelCase fieldName in
      match typeToGoType fieldType structName fieldName with
      | Ok (goFieldType, nestedName) =>
          let jsonTag :=
            if yema.Optional fieldType then fieldName ++ ",omitempty" else fieldName in
          let st' := write (FieldLine goFieldName goFieldType jsonTag) st in
          if negb (String.eqb nestedName "")
             && bool_decide (yema.TKind fieldType = yema.Struct)
          then
            emitFields rest structName st'
              (map_set nestedStructs nestedName
                 (yema.mkType yema.Struct false (yema.TStruct fieldType) None))
          else if negb (String.eqb nestedName "")
                  && bool_decide (yema.TKind fieldType = yema.Array)
          then
            match yema.TArray fieldType with
            | None => Panic
            | Some elem =>
                if bool_decide (yema.TKind elem = yema.Struct)
                then
                  emitFields rest structName st'
                    (map_set nestedStructs nestedName
                       (yema.mkType yema.Struct false (yema.TStruct elem) None))
                else emitFields rest structName st' nestedStructs
            end
          else emitFields rest structName st' nestedStructs
      | Err err => Err err
      | Panic => Panic
      | OutOfFuel => OutOfFuel
      end
  end.

(** The final loop of [generateStructs]: one recursive call per nested
    struct, stopping at the first that does not return normally. *)
Fixpoint generateNested (generate : yema.Type_ -> string -> state -> outcome state)
  (nested : list (string * yema.Type_)) (st : state) : outcome state :=
  match nested with
  | [] => Ok st
  | (nestedName, nestedStruct) :: rest =>
      match generate nestedStruct nestedName st with
      | Ok st => generateNested generate rest st
      | other => other
      end
  end.

Section Walk.

Context (order : RangeOrder yema.Type_).

(** [generateStructs] recursively generates Go struct definitions. *)
Fixpoint generateStructs (fuel : nat) (t : yema.Type_) (structName : string)
  (st : state) : outcome state :=
  match fuel with
  | O => OutOfFuel
  | S fuel =>
      if negb (bool_decide (yema.TKind t = yema.Struct))
      then Err (ExpectedStruct (yema.TKind t))
      else if bool_decide (structName ∈ generatedStructs st)
      then Ok st
      else
        let st := mkState (buf st) ({[structName]} ∪ generatedStructs st) in
        let st := write (DocComment structName) st in
        let st := write (TypeOpen structName) st in
        match yema.TStruct t with
        | None => Panic
        | Some fields =>
            match emitFields fields structName st [] with
            | Ok (st, nestedStructs) =>
                let st := write TypeClose st in
                generateNested (generateStructs fuel) (order nestedStructs) st
            | Err err => Err err
            | Panic => Panic
            | OutOfFuel => OutOfFuel
            end
        end
  end.

(** [Options] of the generator. *)
Record Options : Type := mkOptions {
  Package : string;
  RootType : string
}.

(** [ToGolang] converts a [yema.Type] to Go struct definitions. *)
Definition ToGolang (t : option yema.Type_) (opts : Options)
  : outcome (list chunk) :=
  match t with
  | None => Err NilTypeProvided
  | Some t =>
      if negb (bool_decide (yema.TKind t = yema.Struct))
      then Err (ExpectedRootStruct (yema.TKind t))
      else
        let package := if String.eqb (Package opts) "" then "generated" else Package opts in
        let rootType := if String.eqb (RootType opts) "" then "Root" else RootType opts in
        let st := mkState [PackageClause package] ∅ in
        match generateStructs (yema.depth t) t rootType st with
        | Ok st => Ok (buf st)
        | Err err => Err err
        | Panic => Panic
        | OutOfFuel => OutOfFuel
        end
  end.

End Walk.

(** The names of the struct declarations in a buffer, in order. *)
Definition declared (b : list chunk) : list string :=
  omap (fun c => match c with TypeOpen n => Some n | _ => None end) b.

End golang.

(** ** typescript/typescript.go

    The walk of the TypeScript generator; it shares the error values and
    the outcome of a call with the Go generator. *)

Module typescript.

Import golang.

(** One [fmt.Fprintf] to the buffer. *)
Inductive chunk : Type :=
| NamespaceOpen (namespace : string)     (* namespace %s {\n\n *)
| DocComment (typeName : string)         (* /**\n * %s represents a generated type\n */\n *)
| InterfaceOpen (exportKeyword typeName : string)  (* %sinterface %s {\n *)
| TypeAliasOpen (exportKeyword typeName : string)  (* %stype %s = {\n *)
| FieldLine (fieldName tsSuffix tsFieldType : string)  (* %s%s: %s;\n *)
| InterfaceClose                         (* }\n\n *)
| TypeAliasClose                         (* };\n\n *)
| NamespaceClose.                        (* }\n *)

Record state : Type := mkState {
  buf : list chunk;
  generatedTypes : gset string
}.

Definition write (c : chunk) (st : state) : state :=
  mkState (buf st ++ [c]) (generatedTypes st).

Record Options : Type := mkOptions {
  Namespace : string;
  RootType : string;
  UseInterfaces : bool;
  ExportAll : bool
}.

(** The loop of [toCamelCase], from a given [nextUpper]. *)
Fixpoint camel (s : string) (nextUpper : bool) : string :=
  match s with
  | EmptyString => EmptyString
  | String char rest =>
      if Ascii.eqb char "_" || Ascii.eqb char "-" || Ascii.eqb char " "
      then camel rest true
      else if nextUpper then String (unicode_ToUpper char) (camel rest false)
      else String char (camel rest false)
  end.

Definition toCamelCase (s : string) : string := camel s true.

(** [typeToTypeScriptType]: the TypeScript type of a field and the name of
    the nested type it needs, [""] when it needs none. *)
Fixpoint typeToTypeScriptType (t : yema.Type_) (parentName fieldName : string)
  {struct t} : outcome (string * string) :=
  match yema.TKind t with
  | yema.Bool => Ok ("boolean", "")
  | yema.Int | yema.Int8 | yema.Int16 | yema.Int32 | yema.Int64
  | yema.Uint | yema.Uint8 | yema.Uint16 | yema.Uint32 | yema.Uint64
  | yema.Float32 | yema.Float64 => Ok ("number", "")
  | yema.String => Ok ("string", "")
  | yema.Bytes => Ok ("Uint8Array", "")
  | yema.Array =>
      match yema.TArray t with
      | None => Err ArrayWithNilArray
      | Some elem =>
          match typeToTypeScriptType elem parentName fieldName with
          | Ok (elemType, elemNestedName) => Ok (elemType ++ "[]", elemNestedName)
          | other => other
          end
      end
  | yema.Struct =>
      let nestedStructName := parentName ++ toCamelCase fieldName in
      Ok (nestedStructName, nestedStructName)
  | yema.Invalid => Err (UnexpectedKind (yema.TKind t))
  end.

(** The loop of [generateInterfaces] over the fields. *)
Fixpoint emitFields (fields : gomap yema.Type_) (typeName : string)
  (st : state) (nestedTypes : gomap yema.Type_)
  : outcome (state * gomap yema.Type_) :=
  match fields with
  | [] => Ok (st, nestedTypes)
  | (fieldName, fieldType) :: rest =>
      let tsSuffix := if yema.Optional fieldType then "?" else "" in
      match typeToTypeScriptType fieldType typeName fieldName with
      | Ok (tsFieldType, nestedName) =>
          let st' := write (FieldLine fieldName tsSuffix tsFieldType) st in
          if negb (String.eqb nestedName "")
             && bool_decide (yema.TKind fieldType = yema.Struct)
          then
            emitFields rest typeName st'
              (map_set nestedTypes nestedName
                 (yema.mkType yema.Struct false (yema.TStruct fieldType) None))
          else if negb (String.eqb nestedName "")
                  && bool_decide (yema.TKind fieldType = yema.Array)
          then
            match yema.TArray fieldType with
            | None => Panic
            | Some elem =>
                if bool_decide (yema.TKind elem = yema.Struct)
                then
                  emitFields rest typeName st'
                    (map_set nestedTypes nestedName
                       (yema.mkType yema.Struct false (yema.TStruct elem) None))
                else emitFields rest typeName st' nestedTypes
            end
          else emitFields rest typeName st' nestedTypes
      | Err err => Err err
      | Panic => Panic
      | OutOfFuel => OutOfFuel
      end
  end.

(** The final loop of [generateInterfaces]. *)
Fixpoint generateNested (generate : yema.Type_ -> string -> state -> outcome state)
  (nested : list (string * yema.Type_)) (st : state) : outcome state :=
  match nested with
  | [] => Ok st
  | (nestedName, nestedStruct) :: rest =>
      match generate nestedStruct nestedName st with
      | Ok st => generateNested generate rest st
      | other => other
      end
  end.

Section Walk.

Context (order : RangeOrder yema.Type_).

(** [generateInterfaces] recursively generates TypeScript definitions. *)
Fixpoint generateInterfaces (fuel : nat) (t : yema.Type_) (typeName : string)
  (st : state) (opts : Options) : outcome state :=
  match fuel with
  | O => OutOfFuel
  | S fuel =>
      if negb (bool_decide (yema.TKind t = yema.Struct))
      then Err (ExpectedStruct (yema.TKind t))
      else if bool_decide (typeName ∈ generatedTypes st)
      then Ok st
      else
        let st := mkState (buf st) ({[typeName]} ∪ generatedTypes st) in
        let st := write (DocComment typeName) st in
        let exportKeyword :=
          if ExportAll opts || String.eqb typeName (RootType opts)
          then "export " else "" in
        let st :=
          if UseInterfaces opts
          then write (InterfaceOpen exportKeyword typeName) st
          else write (TypeAliasOpen exportKeyword typeName) st in
        match yema.TStruct t with
        | None => Panic
        | Some fields =>
            match emitFields fields typeName st [] with
            | Ok (st, nestedTypes) =>
                let st :=
                  if UseInterfaces opts then write InterfaceClose st
                  else write TypeAliasClose st in
                generateNested
                  (fun t typeName st => generateInterfaces fuel t typeName st opts)
                  (order nestedTypes) st
            | Err err => Err err
            | Panic => Panic
            | OutOfFuel => OutOfFuel
            end
        end
  end.

(** [ToTypeScript] converts a [yema.Type] to TypeScript definitions. *)
Definition ToTypeScript (t : option yema.Type_) (opts : Options)
  : outcome (list chunk) :=
  match t with
  | None => Err NilTypeProvided
  | Some t =>
      if negb (bool_decide (yema.TKind t = yema.Struct))
      then Err (ExpectedRootStruct (yema.TKind t))
      else
        let rootType := if String.eqb (RootType opts) "" then "Root" else RootType opts in
        let opts := mkOptions (Namespace opts) rootType true (ExportAll opts) in
        let st :=
          if negb (String.eqb (Namespace opts) "")
          then mkState [NamespaceOpen (Namespace opts)] ∅
          else mkState [] ∅ in
        match generateInterfaces (yema.depth t) t (RootType opts) st opts with
        | Ok st =>
            if negb (String.eqb (Namespace opts) "")
            then Ok (buf (write NamespaceClose st))
            else Ok (buf st)
        | Err err => Err err
        | Panic => Panic
        | OutOfFuel => OutOfFuel
        end
  end.

End Walk.

(** The names of the type declarations in a buffer, in order. *)
Definition declared (b : list chunk) : list string :=
  omap (fun c =>
          match c with
          | InterfaceOpen _ n | TypeAliasOpen _ n => Some n
          | _ => None
          end) b.

End typescript.

(** ** jsonschema/jsonschema.go

    The document that [ToJSONSchema] hands to [json.MarshalIndent]; the
    serialisation itself belongs to [encoding/json] and is not modelled. *)

Module jsonschema.

(** [SchemaVersion] is the JSON Schema version to use. *)
Definition SchemaVersion : string := "http://json-schema.org/draft-07/schema#".

Inductive error : Type :=
| NilTypeProvided                        (* nil type provided *)
| ExpectedRootStruct (kind : yema.Kind)  (* expected root type to be Struct, got %v *)
| StructWithNilStruct                    (* struct type with nil Struct field *)
| UnexpectedKind (kind : yema.Kind).     (* unexpected type kind: %v *)

Inductive result (A : Type) : Type :=
| Ok (a : A)
| Err (e : error).
Arguments Ok {A} a.
Arguments Err {A} e.

(** [type JSONSchema struct]; a nil map, pointer or slice is [None]. *)
Inductive JSONSchema : Type :=
  mkJSONSchema {
    Schema : string;
    Type_ : string;
    Properties : option (gomap JSONSchema);
    Items : option JSONSchema;
    Required : option (list string);
    Description : string
  }.

(** [&JSONSchema{}] *)
Definition empty : JSONSchema := mkJSONSchema "" "" None None None "".

(** [schema.Type = ty] *)
Definition set_Type (schema : JSONSchema) (ty : string) : JSONSchema :=
  mkJSONSchema (Schema schema) ty (Properties schema) (Items schema)
    (Required schema) (Description schema).

(** [schema.Items = items] *)
Definition set_Items (schema : JSONSchema) (items : JSONSchema) : JSONSchema :=
  mkJSONSchema (Schema schema) (Type_ schema) (Properties schema) (Some items)
    (Required schema) (Description schema).

(** [schema.Properties = properties; schema.Required = required] *)
Definition set_fields (schema : JSONSchema) (properties : gomap JSONSchema)
  (required : option (list string)) : JSONSchema :=
  mkJSONSchema (Schema schema) (Type_ schema) (Some properties) (Items schema)
    required (Description schema).

(** [typeToJSONSchema] fills [schema] in place and returns an error; the
    model returns the filled schema, and none when the call fails, since
    every caller drops the schema then. *)
Fixpoint typeToJSONSchema (t : yema.Type_) (schema : JSONSchema) {struct t}
  : result JSONSchema :=
  match yema.TKind t with
  | yema.Bool => Ok (set_Type schema "boolean")
  | yema.Int | yema.Int8 | yema.Int16 | yema.Int32 | yema.Int64
  | yema.Uint | yema.Uint8 | yema.Uint16 | yema.Uint32 | yema.Uint64 =>
      Ok (set_Type schema "integer")
  | yema.Float32 | yema.Float64 => Ok (set_Type schema "number")
  | yema.String | yema.Bytes => Ok (set_Type schema "string")
  | yema.Array =>
      let schema := set_Type schema "array" in
      match yema.TArray t with
      | Some elem =>
          match typeToJSONSchema elem empty with
          | Err err => Err err
          | Ok itemSchema => Ok (set_Items schema itemSchema)
          end
      | None => Ok schema
      end
  | yema.Struct =>
      let schema := set_Type schema "object" in
      match yema.TStruct t with
      | None => Err StructWithNilStruct
      | Some fields =>
          (fix each (fields : gomap yema.Type_) (properties : gomap JSONSchema)
             (required : list string) : result JSONSchema :=
             match fields with
             | [] =>
                 (* If no required fields, omit the required array *)
                 Ok (set_fields schema properties
                       (if (length required =? 0)%nat then None else Some required))
             | (fieldName, fieldType) :: rest =>
                 match typeToJSONSchema fieldType empty with
                 | Err err => Err err
                 | Ok propSchema =>
                     each rest (map_set properties fieldName propSchema)
                       (if negb (yema.Optional fieldType)
                        then (required ++ [fieldName])%list else required)
                 end
             end) fields [] []
      end
  | yema.Invalid => Err (UnexpectedKind (yema.TKind t))
  end.

(** [ToJSONSchema] converts an abstract [Type] to a JSON Schema document.
    The result is the document the function hands to [json.MarshalIndent],
    which returns no error on a tree of strings, maps, pointers and
    slices; the bytes it prints are not modelled. *)
Definition ToJSONSchema (t : option yema.Type_) : result JSONSchema :=
  match t with
  | None => Err NilTypeProvided
  | Some t =>
      if negb (bool_decide (yema.TKind t = yema.Struct))
      then Err (ExpectedRootStruct (yema.TKind t))
      else typeToJSONSchema t (mkJSONSchema SchemaVersion "" None None None "")
  end.

End jsonschema.

(** ** cue/cue.go

    The syntax tree [typeToAstExpr] builds, with the nodes of [cue/ast] it
    uses.  [ToCue] hands the tree to the CUE evaluator, which is outside
    this development. *)

Module cue.

(** The values of [token.Token] and of [token.RelPos] the code uses. *)
Inductive Token : Set := COLON | OPTION | NOT.
Inductive RelPos : Set := Blank.

(** [ast.Ident], [ast.ListLit], [ast.Ellipsis] and [ast.StructLit], and the
    one declaration put in a struct literal, [ast.Field]. *)
Inductive Expr : Type :=
| Ident (Name : string)
| ListLit (Elts : list Expr)
| Ellipsis (Type_ : option Expr)
| StructLit (Elts : list Decl)
with Decl : Type :=
| Field (Label : Expr) (Value : Expr) (Token_ : Token) (TokenPos : RelPos)
    (Constraint : Token).

Inductive error : Type :=
| StructWithNilStruct
    (* struct type with nil Struct field *)
| UnexpectedKind (kind : yema.Kind) (fieldName : string).
    (* unexpected type kind: %v for field %s *)

Inductive result (A : Type) : Type :=
| Ok (a : A)
| Err (e : error).
Arguments Ok {A} a.
Arguments Err {A} e.

(** The identifier of a primitive kind. *)
Definition ident_of_kind (k : yema.Kind) : option string :=
  match k with
  | yema.Bool => Some "bool"
  | yema.Int => Some "int"
  | yema.Int8 => Some "int8"
  | yema.Int16 => Some "int16"
  | yema.Int32 => Some "int32"
  | yema.Int64 => Some "int64"
  | yema.Uint => Some "uint"
  | yema.Uint8 => Some "uint8"
  | yema.Uint16 => Some "uint16"
  | yema.Uint32 => Some "uint32"
  | yema.Uint64 => Some "uint64"
  | yema.Float32 => Some "float32"
  | yema.Float64 => Some "float64"
  | yema.String => Some "string"
  | yema.Bytes => Some "string"
  | _ => None
  end.

Fixpoint typeToAstExpr (t : yema.Type_) (fieldName : string) {struct t}
  : result Expr :=
  match yema.TKind t with
  | yema.Array =>
      match yema.TArray t with
      | None => Ok (ListLit [Ellipsis None])       (* Empty array *)
      | Some elem =>
          match typeToAstExpr elem fieldName with
          | Err err => Err err
          | Ok elemExpr => Ok (ListLit [Ellipsis (Some elemExpr)])
          end
      end
  | yema.Struct =>
      match yema.TStruct t with
      | None => Err StructWithNilStruct
      | Some fields =>
          (fix each (fields : gomap yema.Type_) (elts : list Decl)
             : result Expr :=
             match fields with
             | [] => Ok (StructLit elts)
             | (k, fieldType) :: rest =>
                 let label := Ident k in
                 match typeToAstExpr fieldType k with
                 | Err err => Err err
                 | Ok fieldExpr =>
                     let constraint :=
                       if yema.Optional fieldType then OPTION else NOT in
                     each rest
                       (elts ++ [Field label fieldExpr COLON Blank constraint])%list
                 end
             end) fields []
      end
  | kind =>
      match ident_of_kind kind with
      | Some name => Ok (Ident name)
      | None => Err (UnexpectedKind kind fieldName)
      end
  end.

End cue.

(** ** rust/rust.go

    The Rust generator; it shares the error values and the outcome of a
    call with the Go generator. *)

Module rust.

Import golang.

(** [Options] holds configuration options for Rust code generation. *)
Record Options : Type := mkOptions {
  Module_ : string;
  RootType : string;
  DeriveTraits : list string;
  UseSerdeRename : bool
}.

(** One write to the buffer. *)
Inductive chunk : Type :=
| ModuleOpen (module : string)            (* pub mod %s {\n *)
| SerdeImport                             (*     use serde::{Serialize, Deserialize};\n\n *)
| Derive (indent traits : string)         (* %s#[derive(%s)]\n *)
| DocComment (indent structName : string) (* %s/// %s represents a generated struct\n *)
| StructOpen (indent structName : string) (* %spub struct %s {\n *)
| FieldDoc (indent fieldName : string)    (* %s    /// %s field\n *)
| SerdeRenameSkip (indent fieldName : string)
    (* %s    #[serde(rename = ..., skip_serializing_if = ...)]\n *)
| SerdeRename (indent fieldName : string) (* %s    #[serde(rename = ...)]\n *)
| SerdeSkip (indent : string)             (* %s    #[serde(skip_serializing_if = ...)]\n *)
| FieldLine (indent rustFieldName rustFieldType : string)
                                          (* %s    pub %s: %s,\n *)
| StructClose (indent : string)           (* %s}\n\n *)
| ModuleClose.                            (* }\n *)

Record state : Type := mkState {
  buf : list chunk;
  generatedStructs : gset string
}.

Definition write (c : chunk) (st : state) : state :=
  mkState (buf st ++ [c]) (generatedStructs st).

(** [unicode.IsUpper] and [unicode.ToLower] on ASCII. *)
Definition unicode_IsUpper (char : ascii) : bool :=
  let n := N_of_ascii char in ((65 <=? n) && (n <=? 90))%N.

Definition unicode_ToLower (char : ascii) : ascii :=
  let n := N_of_ascii char in
  if ((65 <=? n) && (n <=? 90))%N then ascii_of_N (n + 32) else char.

(** [containsTrait] checks if a trait is in the derive list. *)
Fixpoint containsTrait (traits : list string) (target : string) : bool :=
  match traits with
  | [] => false
  | t :: rest => if String.eqb t target then true else containsTrait rest target
  end.

(** [strings.Repeat(s, count)] and [strings.Join(elems, sep)]. *)
Fixpoint strings_Repeat (s : string) (count : nat) : string :=
  match count with
  | O => ""
  | S count => s ++ strings_Repeat s count
  end.

Fixpoint strings_Join (elems : list string) (sep : string) : string :=
  match elems with
  | [] => ""
  | [e] => e
  | e :: rest => e ++ sep ++ strings_Join rest sep
  end.

(** The loop of [toCamelCase], from a given [nextUpper]. *)
Fixpoint camel (s : string) (nextUpper : bool) : string :=
  match s with
  | EmptyString => EmptyString
  | String char rest =>
      if Ascii.eqb char "_" || Ascii.eqb char "-" || Ascii.eqb char " "
      then camel rest true
      else if nextUpper then String (unicode_ToUpper char) (camel rest false)
      else String char (camel rest false)
  end.

Definition toCamelCase (s : string) : string := camel s true.

(** The loop of [toSnakeCase] from the byte index [i]. *)
Fixpoint snake (s : string) (i : nat) : string :=
  match s with
  | EmptyString => EmptyString
  | String char rest =>
      if unicode_IsUpper char
      then (if (0 <? i)%nat then "_" else "")
           ++ String (unicode_ToLower char) (snake rest (S i))
      else String char (snake rest (S i))
  end.

(** [toSnakeCase] converts a string to snake_case. *)
Definition toSnakeCase (s : string) : string := snake s 0.

Definition rust_name_of_kind (k : yema.Kind) : option string :=
  match k with
  | yema.Bool => Some "bool"
  | yema.Int => Some "i32"
  | yema.Int8 => Some "i8"
  | yema.Int16 => Some "i16"
  | yema.Int32 => Some "i32"
  | yema.Int64 => Some "i64"
  | yema.Uint => Some "u32"
  | yema.Uint8 => Some "u8"
  | yema.Uint16 => Some "u16"
  | yema.Uint32 => Some "u32"
  | yema.Uint64 => Some "u64"
  | yema.Float32 => Some "f32"
  | yema.Float64 => Some "f64"
  | yema.String => Some "String"
  | yema.Bytes => Some "Vec<u8>"
  | _ => None
  end.

(** [typeToRustType]: the Rust type of a field and the name of the nested
    struct it needs, [""] when it needs none. *)
Fixpoint typeToRustType (t : yema.Type_) (parentName fieldName : string)
  {struct t} : outcome (string * string) :=
  let optional (rustType : string) : string :=
    if yema.Optional t then "Option<" ++ rustType ++ ">" else rustType in
  match yema.TKind t with
  | yema.Array =>
      match yema.TArray t with
      | None => Err ArrayWithNilArray
      | Some elem =>
          match typeToRustType elem parentName fieldName with
          | Ok (elemType, elemNestedName) =>
              Ok (optional ("Vec<" ++ elemType ++ ">"), elemNestedName)
          | other => other
          end
      end
  | yema.Struct =>
      let nestedStructName := parentName ++ toCamelCase fieldName in
      Ok (optional nestedStructName, nestedStructName)
  | kind =>
      match rust_name_of_kind kind with
      | Some rustType => Ok (optional rustType, "")
      | None => Err (UnexpectedKind kind)
      end
  end.

(** The writes for one field: its documentation, its serde attribute, if
    any, and its definition. *)
Definition writeField (opts : Options) (indent fieldName rustFieldName
  rustFieldType : string) (isOptional : bool) (st : state) : state :=
  let st := write (FieldDoc indent fieldName) st in
  let st :=
    if UseSerdeRename opts && negb (String.eqb rustFieldName fieldName) then
      if isOptional then write (SerdeRenameSkip indent fieldName) st
      else write (SerdeRename indent fieldName) st
    else if UseSerdeRename opts && isOptional then write (SerdeSkip indent) st
    else st in
  write (FieldLine indent rustFieldName rustFieldType) st.

(** The loop of [generateStructs] over the fields. *)
Fixpoint emitFields (opts : Options) (indent : string)
  (fields : gomap yema.Type_) (structName : string)
  (st : state) (nestedStructs : gomap yema.Type_)
  : outcome (state * gomap yema.Type_) :=
  match fields with
  | [] => Ok (st, nestedStructs)
  | (fieldName, fieldType) :: rest =>
      let rustFieldName := toSnakeCase fieldName in
      match typeToRustType fieldType structName fieldName with
      | Ok (rustFieldType, nestedName) =>
          let st' :=
            writeField opts indent fieldName rustFieldName rustFieldType
              (yema.Optional fieldType) st in
          if negb (String.eqb nestedName "")
             && bool_decide (yema.TKind fieldType = yema.Struct)
          then
            emitFields opts indent rest structName st'
              (map_set nestedStructs nestedName
                 (yema.mkType yema.Struct false (yema.TStruct fieldType) None))
          else if negb (String.eqb nestedName "")
                  && bool_decide (yema.TKind fieldType = yema.Array)
          then
            match yema.TArray fieldType with
            | None => Panic
            | Some elem =>
                if bool_decide (yema.TKind elem = yema.Struct)
                then
                  emitFields opts indent rest structName st'
                    (map_set nestedStructs nestedName
                       (yema.mkType yema.Struct false (yema.TStruct elem) None))
                else emitFields opts indent rest structName st' nestedStructs
            end
          else emitFields opts indent rest structName st' nestedStructs
      | Err err => Err err
      | Panic => Panic
      | OutOfFuel => OutOfFuel
      end
  end.

(** The final loop of [generateStructs]. *)
Fixpoint generateNested (generate : yema.Type_ -> string -> state -> outcome state)
  (nested : list (string * yema.Type_)) (st : state) : outcome state :=
  match nested with
  | [] => Ok st
  | (nestedName, nestedStruct) :: rest =>
      match generate nestedStruct nestedName st with
      | Ok st => generateNested generate rest st
      | other => other
      end
  end.

Section Walk.

Context (order : RangeOrder yema.Type_).

(** [generateStructs] recursively generates Rust struct definitions. *)
Fixpoint generateStructs (fuel : nat) (t : yema.Type_) (structName : string)
  (st : state) (opts : Options) (indentLevel : nat) : outcome state :=
  match fuel with
  | O => OutOfFuel
  | S fuel =>
      if negb (bool_decide (yema.TKind t = yema.Struct))
      then Err (ExpectedStruct (yema.TKind t))
      else if bool_decide (structName ∈ generatedStructs st)
      then Ok st
      else
        let st := mkState (buf st) ({[structName]} ∪ generatedStructs st) in
        let indent := strings_Repeat "    " indentLevel in
        let st :=
          if (0 <? length (DeriveTraits opts))%nat
          then write (Derive indent (strings_Join (DeriveTraits opts) ", ")) st
          else st in
        let st := write (DocComment indent structName) st in
        let st := write (StructOpen indent structName) st in
        match yema.TStruct t with
        | None => Panic
        | Some fields =>
            match emitFields opts indent fields structName st [] with
            | Ok (st, nestedStructs) =>
                let st := write (StructClose indent) st in
                generateNested
                  (fun t structName st =>
                     generateStructs fuel t structName st opts indentLevel)
                  (order nestedStructs) st
            | Err err => Err err
            | Panic => Panic
            | OutOfFuel => OutOfFuel
            end
        end
  end.

(** [ToRust] converts a [yema.Type] to Rust struct definitions. *)
Definition ToRust (t : option yema.Type_) (opts : Options)
  : outcome (list chunk) :=
  match t with
  | None => Err NilTypeProvided
  | Some t =>
      if negb (bool_decide (yema.TKind t = yema.Struct))
      then Err (ExpectedRootStruct (yema.TKind t))
      else
        let module := if String.eqb (Module_ opts) "" then "generated" else Module_ opts in
        let rootType := if String.eqb (RootType opts) "" then "Root" else RootType opts in
        let deriveTraits :=
          if (length (DeriveTraits opts) =? 0)%nat
          then ["Debug"; "Clone"; "Serialize"; "Deserialize"]
          else DeriveTraits opts in
        let opts := mkOptions module rootType deriveTraits (UseSerdeRename opts) in
        let st := mkState [] ∅ in
        let st :=
          if negb (String.eqb (Module_ opts) "") then
            let st := write (ModuleOpen (Module_ opts)) st in
            if containsTrait (DeriveTraits opts) "Serialize"
               || containsTrait (DeriveTraits opts) "Deserialize"
            then write SerdeImport st else st
          else st in
        match generateStructs (yema.depth t) t (RootType opts) st opts 1 with
        | Ok st =>
            if negb (String.eqb (Module_ opts) "")
            then Ok (buf (write ModuleClose st))
            else Ok (buf st)
        | Err err => Err err
        | Panic => Panic
        | OutOfFuel => OutOfFuel
        end
  end.

End Walk.

(** The names of the struct declarations in a buffer, in order. *)
Definition declared (b : list chunk) : list string :=
  omap (fun c => match c with StructOpen _ n => Some n | _ => None end) b.

End rust.

(** * The vocabulary of the properties *)

(** A platform to evaluate examples on: the conversions of amd64, where an
    unrepresentable float converts to the "integer indefinite" value.  Its
    [strconv_ParseFloat] is a placeholder that reads no string; no example
    evaluates it, and what is proved of [json.Number] on a float field is
    proved for every platform. *)
Definition amd64 : Platform :=
  {| int64_unrepresentable := fun _ => int64_min;
     uint64_unrepresentable := fun _ => 2 ^ 63;
     strconv_ParseFloat := fun _ => (S754_zero false, false) |}.

(** ** Of the validator *)

Module validator_spec.

Import validator.

(** What one field of a record contributes to the result of [Validate]. *)
Definition field_violations (platform : Platform) (data : gomap value)
  (field : string * yema.Type_) : list error :=
  match map_get data field.1 with
  | None =>
      if yema.Optional field.2 then [] else [RequiredFieldMissing field.1]
  | Some v =>
      match validateValue platform v field.2 field.1 with
      | Some err => [err]
      | None => []
      end
  end.

(** The check [validateValue] makes of one field of a nested record. *)
Definition nested_field_check (platform : Platform) (mapValue : gomap value)
  (path : string) (field : string * yema.Type_) : option error :=
  match map_get mapValue field.1 with
  | None =>
      if yema.Optional field.2 then None
      else Some (RequiredFieldMissing (path ++ "." ++ field.1))
  | Some v => validateValue platform v field.2 (path ++ "." ++ field.1)
  end.

(** The first error among the elements of an array, from index [i]. *)
Fixpoint first_elem_error (platform : Platform) (elemType : yema.Type_)
  (path : string) (i : nat) (arr : list value) : option error :=
  match arr with
  | [] => None
  | elem :: rest =>
      match validateValue platform elem elemType
              (path ++ "[" ++ strconv_Itoa i ++ "]") with
      | Some err => Some err
      | None => first_elem_error platform elemType path (S i) rest
      end
  end.

(** The first error among the fields of a nested record. *)
Fixpoint first_field_error (platform : Platform) (mapValue : gomap value)
  (path : string) (fields : gomap yema.Type_) : option error :=
  match fields with
  | [] => None
  | field :: rest =>
      match nested_field_check platform mapValue path field with
      | Some err => Some err
      | None => first_field_error platform mapValue path rest
      end
  end.

End validator_spec.

(** ** Of the integer checks *)

Module numeric_spec.

Import validator.

(** The value of a Go signed integer ([int], [int8], ..., [int64]). *)
Definition signed_value (v : value) : option Z :=
  match v with
  | VInt z | VInt8 z | VInt16 z | VInt32 z | VInt64 z => Some z
  | _ => None
  end.

(** The value of a Go unsigned integer ([uint], [uint8], ..., [uint64]). *)
Definition unsigned_value (v : value) : option Z :=
  match v with
  | VUint z | VUint8 z | VUint16 z | VUint32 z | VUint64 z => Some z
  | _ => None
  end.

Definition signed_kind (k : yema.Kind) : bool :=
  match k with
  | yema.Int | yema.Int8 | yema.Int16 | yema.Int32 | yema.Int64 => true
  | _ => false
  end.

Definition unsigned_kind (k : yema.Kind) : bool :=
  match k with
  | yema.Uint | yema.Uint8 | yema.Uint16 | yema.Uint32 | yema.Uint64 => true
  | _ => false
  end.

(** The width [n] of the kinds that are range-checked, and their names. *)
Definition checked_bits (k : yema.Kind) : option Z :=
  match k with
  | yema.Int8 | yema.Uint8 => Some 8
  | yema.Int16 | yema.Uint16 => Some 16
  | yema.Int32 | yema.Uint32 => Some 32
  | _ => None
  end.

Definition kind_name (k : yema.Kind) : string :=
  match k with
  | yema.Int8 => "int8" | yema.Int16 => "int16" | yema.Int32 => "int32"
  | yema.Uint8 => "uint8" | yema.Uint16 => "uint16" | yema.Uint32 => "uint32"
  | _ => ""
  end.

(** The range check of the specification: [[-2^(n-1), 2^(n-1)-1]] for the
    signed kinds of width [n], no bound for the others. *)
Definition signed_range (k : yema.Kind) (z : Z) (path : string) : option error :=
  match checked_bits k with
  | Some n =>
      if (- 2 ^ (n - 1) <=? z) && (z <=? 2 ^ (n - 1) - 1) then None
      else Some (OutOfRange path (kind_name k))
  | None => None
  end.

(** ... and [[0, 2^n - 1]] for the unsigned kinds, on a value that is
    already known not to be negative. *)
Definition unsigned_range (k : yema.Kind) (z : Z) (path : string) : option error :=
  match checked_bits k with
  | Some n =>
      if z <=? 2 ^ n - 1 then None else Some (OutOfRange path (kind_name k))
  | None => None
  end.

(** A base-10 integer literal: an optional sign and at least one digit. *)
Definition int_literal (s : string) : bool :=
  match s with
  | EmptyString => false
  | String c rest =>
      let body := if Ascii.eqb c "+" || Ascii.eqb c "-" then rest else s in
      match body with
      | EmptyString => false
      | _ => bool_decide (is_Some (parse_digits body 0))
      end
  end.

(** The dynamic types the integer check knows. *)
Definition int_dynamic_type (v : value) : bool :=
  match v with
  | VNumber _ | VInt _ | VInt8 _ | VInt16 _ | VInt32 _ | VInt64 _
  | VFloat64 _ => true
  | _ => false
  end.

(** The dynamic types the unsigned check knows. *)
Definition uint_dynamic_type (v : value) : bool :=
  match v with
  | VNumber _ | VFloat64 _
  | VInt _ | VInt8 _ | VInt16 _ | VInt32 _ | VInt64 _
  | VUint _ | VUint8 _ | VUint16 _ | VUint32 _ | VUint64 _ => true
  | _ => false
  end.

End numeric_spec.

(** ** Of the builder *)

Module parser_spec.

(** The field name and the optional flag that the builder reads off a key. *)
Definition field_of_key (key : string) : string :=
  if parser.has_question_suffix key then parser.drop_last key else key.

(** The loop of [parseValueToType] over the entries of a map. *)
Fixpoint parse_fields (isOptional : bool) (v : gomap value)
  (nestedStruct : gomap yema.Type_) : parser.result yema.Type_ :=
  match v with
  | [] => parser.Ok (yema.mkType yema.Struct isOptional (Some nestedStruct) None)
  | (k, val) :: rest =>
      if negb (parser.isValidFieldName (field_of_key k))
      then parser.Err (parser.InvalidFieldName (field_of_key k))
      else
        match parser.parseValueToType (field_of_key k) val
                (parser.has_question_suffix k) with
        | parser.Err err => parser.Err err
        | parser.Ok nestedType =>
            parse_fields isOptional rest
              (map_set nestedStruct (field_of_key k) nestedType)
        end
  end.

(** [n] arrays around an [int], as a raw schema, as a type and as data. *)
Fixpoint nested_array_raw (n : nat) : value :=
  match n with
  | O => VString "int"
  | S n => VSlice [nested_array_raw n]
  end.

Fixpoint nested_array_type (n : nat) (isOptional : bool) : yema.Type_ :=
  match n with
  | O => yema.mkType yema.Int isOptional None None
  | S n => yema.mkType yema.Array isOptional None (Some (nested_array_type n false))
  end.

Fixpoint nested_array_data (n : nat) : value :=
  match n with
  | O => VInt 0
  | S n => VSlice [nested_array_data n]
  end.

(** [n] records around an [int], each with the one field [f]. *)
Fixpoint nested_record_raw (n : nat) : value :=
  match n with
  | O => VString "int"
  | S n => VMap [("f", nested_record_raw n)]
  end.

Fixpoint nested_record_type (n : nat) : yema.Type_ :=
  match n with
  | O => yema.mkType yema.Int false None None
  | S n => yema.mkType yema.Struct false (Some [("f", nested_record_type n)]) None
  end.

Fixpoint nested_record_data (n : nat) : value :=
  match n with
  | O => VInt 0
  | S n => VMap [("f", nested_record_data n)]
  end.

End parser_spec.

(** ** Of the Go walk *)

Module golang_spec.

Import golang.

(** The depth of the deepest field of a record. *)
Definition fields_depth (fs : gomap yema.Type_) : nat :=
  fold_right (fun kt d => Nat.max (yema.depth kt.2) d) O fs.

(** A string with no underscore, hyphen or space in it. *)
Fixpoint no_separator (s : string) : bool :=
  match s with
  | EmptyString => true
  | String c rest => negb (is_separator c) && no_separator rest
  end.

(** [name] is [structName + toCamelCase(fieldName)] for a field of [fields]
    that is a record or an array of records. *)
Definition names_nested_record (structName : string) (fields : gomap yema.Type_)
  (name : string) : Prop :=
  exists fieldName fieldType,
    In (fieldName, fieldType) fields /\
    name = structName ++ toCamelCase fieldName /\
    (yema.TKind fieldType = yema.Struct \/
     yema.TKind fieldType = yema.Array /\
     exists elem, yema.TArray fieldType = Some elem /\ yema.TKind elem = yema.Struct).

(** From [st] to [st'] the walk has declared the structs [names], in this
    order: it has appended their text to the buffer, has added them to the
    visited set, and none of them was in the set before or comes twice. *)
Definition adds (st st' : state) (names : list string) : Prop :=
  (exists new, buf st' = (buf st ++ new)%list /\ declared new = names) /\
  generatedStructs st' = generatedStructs st ∪ list_to_set names /\
  NoDup names /\
  (forall n, n ∈ names -> n ∉ generatedStructs st).

(** The record a field asks the walk to declare: the record of a record
    field, or of the element of an array of records. *)
Definition nested_record (t : yema.Type_) : option (option (gomap yema.Type_)) :=
  match yema.TKind t with
  | yema.Struct => Some (yema.TStruct t)
  | yema.Array =>
      match yema.TArray t with
      | Some elem =>
          if bool_decide (yema.TKind elem = yema.Struct)
          then Some (yema.TStruct elem) else None
      | None => None
      end
  | _ => None
  end.

(** The names of the records under a field: its own, when it asks for a
    nested record, and those under the fields of that record. *)
Fixpoint field_names (parentName fieldName : string) (t : yema.Type_)
  {struct t} : list string :=
  let name := parentName ++ toCamelCase fieldName in
  let under (s : option (gomap yema.Type_)) : list string :=
    match s with
    | Some fields => flat_map (fun kt => field_names name kt.1 kt.2) fields
    | None => []
    end in
  match yema.TKind t with
  | yema.Struct => name :: under (yema.TStruct t)
  | yema.Array =>
      match yema.TArray t with
      | Some elem =>
          if bool_decide (yema.TKind elem = yema.Struct)
          then name :: under (yema.TStruct elem) else []
      | None => []
      end
  | _ => []
  end.

(** The names of a record called [name] and of all the records under it. *)
Definition record_names (name : string) (s : option (gomap yema.Type_)) : list string :=
  name :: match s with
          | Some fields => flat_map (fun kt => field_names name kt.1 kt.2) fields
          | None => []
          end.

(** The nested structs of the fields, in the order of the fields. *)
Definition children (structName : string) (fields : gomap yema.Type_)
  : gomap yema.Type_ :=
  omap (fun kt =>
          match nested_record kt.2 with
          | Some s => Some (structName ++ toCamelCase kt.1,
                            yema.mkType yema.Struct false s None)
          | None => None
          end) fields.

(** The names of the records under a nested struct and its own. *)
Definition names_of_child (c : string * yema.Type_) : list string :=
  record_names c.1 (yema.TStruct c.2).

(** The names declared by a run of [ToGolang]; none when it fails. *)
Definition declared_names (o : outcome (list chunk)) : list string :=
  match o with
  | Ok b => declared b
  | _ => []
  end.

(** The name of the root struct after the default is applied. *)
Definition root_name (opts : Options) : string :=
  if String.eqb (RootType opts) "" then "Root" else RootType opts.

End golang_spec.

(** ** Of the TypeScript walk *)

Module typescript_spec.

(** Two results that agree on whether the call returned, and on the error. *)
Definition same_outcome {A B : Type} (R : A -> B -> Prop)
  (ts : golang.outcome A) (go : golang.outcome B) : Prop :=
  match ts, go with
  | golang.Ok a, golang.Ok b => R a b
  | golang.Err e1, golang.Err e2 => e1 = e2
  | golang.Panic, golang.Panic => True
  | golang.OutOfFuel, golang.OutOfFuel => True
  | _, _ => False
  end.

(** The two states have declared the same names and visited the same set. *)
Definition related (ts : typescript.state) (go : golang.state) : Prop :=
  typescript.generatedTypes ts = golang.generatedStructs go /\
  typescript.declared (typescript.buf ts) = golang.declared (golang.buf go).

(** The names declared by a run of [ToTypeScript]; none when it fails. *)
Definition declared_names (o : golang.outcome (list typescript.chunk)) : list string :=
  match o with
  | golang.Ok b => typescript.declared b
  | _ => []
  end.

End typescript_spec.

(** ** Of the text the model covers *)

Module text_spec.

(** A string of ASCII characters.  On such a string a Go [range] yields one
    rune for every byte and the functions of [unicode] are the ones of the
    model; on another string the functions of the model, which go byte by
    byte, are not the Go functions. *)
Fixpoint is_ascii (s : string) : bool :=
  match s with
  | EmptyString => true
  | String c rest => (N_of_ascii c <? 128)%N && is_ascii rest
  end.

End text_spec.

(** ** Of two runs of a walk *)

Module walk_spec.

(** [t'] is the schema [t] as another run may range over it: a Go map has
    no order of its own, so the fields of every record of [t], at every
    depth, may come in another order. *)
Fixpoint reordered (t t' : yema.Type_) {struct t} : Prop :=
  yema.TKind t = yema.TKind t' /\
  yema.Optional t = yema.Optional t' /\
  match yema.TStruct t, yema.TStruct t' with
  | Some fields, Some fields' =>
      exists fields'',
        fields' ≡ₚ fields'' /\
        (fix each (fs fs'' : gomap yema.Type_) {struct fs} : Prop :=
           match fs, fs'' with
           | [], [] => True
           | (f, ft) :: fs, (f'', ft'') :: fs'' =>
               f = f'' /\ reordered ft ft'' /\ each fs fs''
           | _, _ => False
           end) fields fields''
  | None, None => True
  | _, _ => False
  end /\
  match yema.TArray t, yema.TArray t' with
  | Some elem, Some elem' => reordered elem elem'
  | None, None => True
  | _, _ => False
  end.

(** The records that the fields ask the walk for. *)
Definition nested_records (fields : gomap yema.Type_)
  : list (option (gomap yema.Type_)) :=
  omap (fun kt => golang_spec.nested_record kt.2) fields.

(** No record of the schema has two fields that ask for a nested record:
    the map of nested records that the walk builds never holds two. *)
Fixpoint unbranched (t : yema.Type_) : bool :=
  match yema.TStruct t with
  | Some fields =>
      (length (nested_records fields) <=? 1)%nat
      && (fix each (fs : gomap yema.Type_) : bool :=
            match fs with
            | [] => true
            | (_, ft) :: fs => unbranched ft && each fs
            end) fields
  | None => true
  end
  && match yema.TArray t with
     | Some elem => unbranched elem
     | None => true
     end.

End walk_spec.

(** ** Of the call stack *)

Module stack_spec.

(** The nesting of a raw value: the arrays and maps around its innermost
    value, and one for that value. *)
Fixpoint nesting (v : value) : nat :=
  match v with
  | VSlice arr =>
      S ((fix each (arr : list value) : nat :=
            match arr with
            | [] => O
            | elem :: rest => Nat.max (nesting elem) (each rest)
            end) arr)
  | VMap m =>
      S ((fix each (m : gomap value) : nat :=
            match m with
            | [] => O
            | (_, val) :: rest => Nat.max (nesting val) (each rest)
            end) m)
  | _ => 1%nat
  end.

End stack_spec.

(** ** Example schemas and data *)

Definition scalar (kind : yema.Kind) : yema.Type_ :=
  yema.mkType kind false None None.

(** The float 5.5. *)
Definition float64_five_and_half : spec_float := binary_normalize 53 1024 11 (-1) false.

(** A record with an [int8] field and an array of [int8], and data that
    breaks the field once and the array twice. *)
Definition c1_schema : yema.Type_ :=
  yema.mkType yema.Struct false
    (Some [("level", yema.mkType yema.Int8 false None None);
           ("items", yema.mkType yema.Array false None
                       (Some (yema.mkType yema.Int8 false None None)))])
    None.

Definition c1_data : gomap value :=
  [("level", VInt 300); ("items", VSlice [VInt 1; VInt 300; VInt 400])].

Definition c4_schema : yema.Type_ :=
  yema.mkType yema.Struct false
    (Some [("name", yema.mkType yema.String false None None);
           ("nick", yema.mkType yema.String true None None)])
    None.

(** A record with two empty nested records. *)
Definition two_records_schema : yema.Type_ :=
  yema.mkType yema.Struct false
    (Some [("a", yema.mkType yema.Struct false (Some []) None);
           ("b", yema.mkType yema.Struct false (Some []) None)])
    None.

(** Two different nested records, [a.b_c] and [a_b.c], with the one name
    [RootABC]. *)
Definition colliding_schema : yema.Type_ :=
  yema.mkType yema.Struct false
    (Some [("a", yema.mkType yema.Struct false
                   (Some [("b_c", yema.mkType yema.Struct false
                                    (Some [("x", scalar yema.Int)]) None)])
                   None);
           ("a_b", yema.mkType yema.Struct false
                     (Some [("c", yema.mkType yema.Struct false
                                    (Some [("y", scalar yema.String)]) None)])
                     None)])
    None.

(** The schema [{addresses: [{street: string, city: string}]}], with the two
    inner fields in either order. *)
Definition addresses_schema (street_first : bool) : yema.Type_ :=
  yema.mkType yema.Struct false
    (Some [("addresses",
            yema.mkType yema.Array false None
              (Some (yema.mkType yema.Struct false
                       (Some (if street_first
                              then [("street", scalar yema.String);
                                    ("city", scalar yema.String)]
                              else [("city", scalar yema.String);
                                    ("street", scalar yema.String)]))
                       None)))])
    None.

(** ** Of schemas *)

Module schema_spec.

(** A schema that every consumer can walk: no kind is [Invalid], every
    array has its element type and every record its field map. *)
Fixpoint complete (t : yema.Type_) : bool :=
  match yema.TKind t with
  | yema.Invalid => false
  | yema.Array =>
      match yema.TArray t with
      | Some elem => complete elem
      | None => false
      end
  | yema.Struct =>
      match yema.TStruct t with
      | Some fields => forallb (fun kt => complete kt.2) fields
      | None => false
      end
  | _ => true
  end.

(** The shape of what the builder makes: a primitive has neither pointer
    set, an array has only its element type, which is not optional, and a
    record has only its field map, whose names are valid and distinct. *)
Fixpoint canonical (t : yema.Type_) : bool :=
  match yema.TKind t with
  | yema.Invalid => false
  | yema.Array =>
      match yema.TArray t, yema.TStruct t with
      | Some elem, None => negb (yema.Optional elem) && canonical elem
      | _, _ => false
      end
  | yema.Struct =>
      match yema.TStruct t, yema.TArray t with
      | Some fields, None =>
          forallb (fun kt => parser.isValidFieldName kt.1 && canonical kt.2) fields
          && bool_decide (NoDup (map_keys fields))
      | _, _ => false
      end
  | _ =>
      match yema.TStruct t, yema.TArray t with
      | None, None => true
      | _, _ => false
      end
  end.

(** A raw value that denotes a type: the name of a primitive, a sequence of
    one such value, or a map from keys with a valid field name to such
    values. *)
Fixpoint type_expr (v : value) : bool :=
  match v with
  | VString s => bool_decide (is_Some (parser.kind_of_name s))
  | VSlice [item] => type_expr item
  | VMap m =>
      forallb (fun kv => parser.isValidFieldName (parser_spec.field_of_key kv.1)
                         && type_expr kv.2) m
  | _ => false
  end.

(** The entries of a raw map all denote a field. *)
Definition field_exprs (m : gomap value) : bool :=
  forallb (fun kv => parser.isValidFieldName (parser_spec.field_of_key kv.1)
                     && type_expr kv.2) m.

End schema_spec.

(** ** Of the errors of the validator *)

Module error_spec.

Import validator.

(** The path an error names; [invalid schema] names none. *)
Definition path_of (e : error) : option string :=
  match e with
  | InvalidSchema => None
  | RequiredFieldMissing path | NilNotOptional path | MustBeBoolean path
  | MustBeString path | MustBeInteger path | MustBeNonNegativeInteger path
  | MustBeNumber path | OutOfRange path _ | ArrayDefinitionNil path
  | MustBeArray path | StructDefinitionNil path | MustBeMap path
  | MustBeBytes path | UnsupportedType _ path => Some path
  end.

(** The errors that blame the schema and not the data. *)
Definition schema_fault (e : error) : bool :=
  match e with
  | InvalidSchema | ArrayDefinitionNil _ | StructDefinitionNil _
  | UnsupportedType _ _ => true
  | _ => false
  end.

(** The dynamic types the float check knows, and the [float64] it reads
    from a value that is not a [json.Number]. *)
Definition float_value (v : value) : option spec_float :=
  match v with
  | VFloat32 f => Some (float64_of_float32 f)
  | VFloat64 f => Some f
  | VInt z | VInt8 z | VInt16 z | VInt32 z | VInt64 z
  | VUint z | VUint8 z | VUint16 z | VUint32 z | VUint64 z => Some (float64_of_Z z)
  | _ => None
  end.

Definition float_dynamic_type (v : value) : bool :=
  match v with
  | VNumber _ => true
  | _ => bool_decide (is_Some (float_value v))
  end.

(** The largest finite [float32], (2^24 - 1) * 2^104. *)
Definition max_float32 : spec_float := S754_finite false 16777215 104.

(** A record type with the given fields. *)
Definition record (fields : gomap yema.Type_) : yema.Type_ :=
  yema.mkType yema.Struct false (Some fields) None.

End error_spec.

(** ** Of the text of the generators *)

Module generator_spec.

(** [line] is the line the Go generator writes for the field [kt] of the
    struct [structName]. *)
Definition go_field_line (structName : string) (line : golang.chunk)
  (kt : string * yema.Type_) : Prop :=
  exists goType nested,
    golang.typeToGoType kt.2 structName kt.1 = golang.Ok (goType, nested) /\
    line = golang.FieldLine (golang.toCamelCase kt.1) goType
             (if yema.Optional kt.2 then kt.1 ++ ",omitempty" else kt.1).

(** A field name made of [n] underscores. *)
Fixpoint underscores (n : nat) : string :=
  match n with
  | O => ""
  | S n => String "_" (underscores n)
  end.

(** The two chunks of a type alias. *)
Definition ts_alias (c : typescript.chunk) : bool :=
  match c with
  | typescript.TypeAliasOpen _ _ | typescript.TypeAliasClose => true
  | _ => false
  end.

(** The name of the root type after the default is applied. *)
Definition ts_root_name (opts : typescript.Options) : string :=
  if String.eqb (typescript.RootType opts) "" then "Root"
  else typescript.RootType opts.

(** What the walk of the TypeScript generator may write under [opts]: no
    type alias, and an interface with the export keyword of its name. *)
Definition ts_chunk_ok (exportAll : bool) (rootType : string)
  (c : typescript.chunk) : Prop :=
  match c with
  | typescript.TypeAliasOpen _ _ | typescript.TypeAliasClose => False
  | typescript.InterfaceOpen exportKeyword typeName =>
      exportKeyword
      = if exportAll || String.eqb typeName rootType then "export " else ""
  | _ => True
  end.

End generator_spec.

(** ** Of the JSON Schema and CUE emitters *)

Module emitter_spec.

(** A schema the two emitters convert: no kind is [Invalid] and every
    record has its field map; an array need not have its element type. *)
Fixpoint convertible (t : yema.Type_) : bool :=
  match yema.TKind t with
  | yema.Invalid => false
  | yema.Array =>
      match yema.TArray t with
      | Some elem => convertible elem
      | None => true
      end
  | yema.Struct =>
      match yema.TStruct t with
      | Some fields => forallb (fun kt => convertible kt.2) fields
      | None => false
      end
  | _ => true
  end.

(** The loop of [typeToJSONSchema] over the fields of a record. *)
Fixpoint convert_fields (schema : jsonschema.JSONSchema)
  (fields : gomap yema.Type_) (properties : gomap jsonschema.JSONSchema)
  (required : list string) : jsonschema.result jsonschema.JSONSchema :=
  match fields with
  | [] =>
      jsonschema.Ok
        (jsonschema.set_fields schema properties
           (if (length required =? 0)%nat then None else Some required))
  | (fieldName, fieldType) :: rest =>
      match jsonschema.typeToJSONSchema fieldType jsonschema.empty with
      | jsonschema.Err err => jsonschema.Err err
      | jsonschema.Ok propSchema =>
          convert_fields schema rest (map_set properties fieldName propSchema)
            (if negb (yema.Optional fieldType)
             then (required ++ [fieldName])%list else required)
      end
  end.

(** The names of the fields that are not optional, in the order of the
    fields. *)
Fixpoint required_names (fields : gomap yema.Type_) : list string :=
  match fields with
  | [] => []
  | (fieldName, fieldType) :: rest =>
      if negb (yema.Optional fieldType) then fieldName :: required_names rest
      else required_names rest
  end.

(** [property] is the entry of [properties] for the field [kt]. *)
Definition property_of (property : string * jsonschema.JSONSchema)
  (kt : string * yema.Type_) : Prop :=
  property.1 = kt.1 /\
  jsonschema.typeToJSONSchema kt.2 jsonschema.empty = jsonschema.Ok property.2.

(** The loop of [typeToAstExpr] over the fields of a record. *)
Fixpoint field_decls (fields : gomap yema.Type_) (elts : list cue.Decl)
  : cue.result cue.Expr :=
  match fields with
  | [] => cue.Ok (cue.StructLit elts)
  | (k, fieldType) :: rest =>
      match cue.typeToAstExpr fieldType k with
      | cue.Err err => cue.Err err
      | cue.Ok fieldExpr =>
          field_decls rest
            (elts ++ [cue.Field (cue.Ident k) fieldExpr cue.COLON cue.Blank
                        (if yema.Optional fieldType then cue.OPTION else cue.NOT)])%list
      end
  end.

(** [decl] is the declaration of the field [kt]. *)
Definition decl_of (decl : cue.Decl) (kt : string * yema.Type_) : Prop :=
  exists fieldExpr,
    cue.typeToAstExpr kt.2 kt.1 = cue.Ok fieldExpr /\
    decl = cue.Field (cue.Ident kt.1) fieldExpr cue.COLON cue.Blank
             (if yema.Optional kt.2 then cue.OPTION else cue.NOT).

End emitter_spec.

(** ** Of the Rust generator *)

Module rust_spec.

(** The two states have declared the same names and visited the same set. *)
Definition related (rs : rust.state) (go : golang.state) : Prop :=
  rust.generatedStructs rs = golang.generatedStructs go /\
  rust.declared (rust.buf rs) = golang.declared (golang.buf go).

(** A string with no upper-case letter in it. *)
Fixpoint no_upper (s : string) : bool :=
  match s with
  | EmptyString => true
  | String c rest => negb (rust.unicode_IsUpper c) && no_upper rest
  end.

(** The name of the module after the default is applied. *)
Definition module_name (opts : rust.Options) : string :=
  if String.eqb (rust.Module_ opts) "" then "generated" else rust.Module_ opts.

End rust_spec.

(** ** Of the order of iteration *)

Module order_spec.



End order_spec.

(** * Lemmas *)

(** ** The validator *)

Module validator_facts.

Import validator.

Import validator_spec.

Section Facts.

Context (platform : Platform).

Lemma Validate_fold (data : gomap value) (fields : gomap yema.Type_) (acc : list error) :
  fold_left
    (fun errors '(fieldName, fieldType) =>
       match map_get data fieldName with
       | None =>
           if negb (yema.Optional fieldType)
           then (errors ++ [RequiredFieldMissing fieldName])%list
           else errors
       | Some value =>
           match validateValue platform value fieldType fieldName with
           | Some err => (errors ++ [err])%list
           | None => errors
           end
       end) fields acc
  = (acc ++ flat_map (field_violations platform data) fields)%list.
Proof.
  revert acc. induction fields as [|[f t] fields IH]; intros acc; simpl.
  - by rewrite app_nil_r.
  - rewrite IH. unfold field_violations at 2. simpl.
    destruct (map_get data f) as [v|].
    + destruct (validateValue platform v t f); simpl; by rewrite <- ?app_assoc.
    + destruct (yema.Optional t); simpl; by rewrite <- ?app_assoc.
Qed.

Lemma Validate_collect (data : gomap value) (schema : yema.Type_) (fields : gomap yema.Type_) :
  yema.TStruct schema = Some fields ->
  Validate platform data (Some schema)
  = flat_map (field_violations platform data) fields.
Proof.
  intros H. unfold Validate. rewrite H. by rewrite Validate_fold.
Qed.

Lemma validateValue_array (schema elemType : yema.Type_) (path : string) (arr : list value) :
  yema.TKind schema = yema.Array ->
  yema.TArray schema = Some elemType ->
  validateValue platform (VSlice arr) schema path
  = first_elem_error platform elemType path 0 arr.
Proof.
  destruct schema as [k o s a]; simpl; intros -> ->.
  generalize O. induction arr as [|elem rest IH]; intros i; simpl; [done|].
  destruct (validateValue platform elem elemType _); [done|]. apply IH.
Qed.

Lemma validateValue_struct (schema : yema.Type_) (fields : gomap yema.Type_)
  (path : string) (mapValue : gomap value) :
  yema.TKind schema = yema.Struct ->
  yema.TStruct schema = Some fields ->
  validateValue platform (VMap mapValue) schema path
  = first_field_error platform mapValue path fields.
Proof.
  destruct schema as [k o s a]; simpl; intros -> ->.
  induction fields as [|[f t] rest IH]; simpl; [done|].
  unfold nested_field_check; simpl.
  destruct (map_get mapValue f) as [v|].
  - destruct (validateValue platform v t _); [done|]. apply IH.
  - destruct (yema.Optional t); simpl; [apply IH | done].
Qed.

Lemma first_elem_error_stops (elemType : yema.Type_) (path : string)
  (pre : list value) (bad : value) (rest : list value) (err : error) (i : nat) :
  (forall j v, pre !! j = Some v ->
     validateValue platform v elemType
       (path ++ "[" ++ strconv_Itoa (i + j) ++ "]") = None) ->
  validateValue platform bad elemType
    (path ++ "[" ++ strconv_Itoa (i + length pre) ++ "]") = Some err ->
  first_elem_error platform elemType path i (pre ++ bad :: rest)%list = Some err.
Proof.
  revert i. induction pre as [|v pre IH]; intros i Hpre Hbad; simpl in *.
  - rewrite Nat.add_0_r in Hbad. by rewrite Hbad.
  - specialize (Hpre O v eq_refl) as Hv. rewrite Nat.add_0_r in Hv. rewrite Hv.
    apply IH.
    + intros j w Hj. specialize (Hpre (S j) w Hj).
      by rewrite Nat.add_succ_r in Hpre.
    + by rewrite Nat.add_succ_r in Hbad.
Qed.

Lemma first_field_error_stops (mapValue : gomap value) (path : string)
  (pre : gomap yema.Type_) (bad : string * yema.Type_) (rest : gomap yema.Type_)
  (err : error) :
  (forall field, In field pre ->
     nested_field_check platform mapValue path field = None) ->
  nested_field_check platform mapValue path bad = Some err ->
  first_field_error platform mapValue path (pre ++ bad :: rest)%list = Some err.
Proof.
  induction pre as [|field pre IH]; intros Hpre Hbad; simpl.
  - by rewrite Hbad.
  - rewrite (Hpre field) by (by left). apply IH; [|done].
    intros f Hf. apply Hpre. by right.
Qed.

End Facts.

End validator_facts.

(** ** The integer checks *)

Module numeric_facts.

Import validator.

Import numeric_spec.

Ltac z_cases :=
  repeat match goal with
    | |- context [Z.ltb ?a ?b] => destruct (Z.ltb_spec a b)
    | |- context [Z.leb ?a ?b] => destruct (Z.leb_spec a b)
    | |- context [Z.gtb ?a ?b] => rewrite (Z.gtb_ltb a b)
    end; simpl; try done; try lia.

Section Facts.

Context (platform : Platform).

Lemma int_range_check (k : yema.Kind) (z : Z) (path : string) :
  signed_kind k = true ->
  match k with
  | yema.Int8 =>
      if (z <? -128) || (z >? 127) then Some (OutOfRange path "int8") else None
  | yema.Int16 =>
      if (z <? -32768) || (z >? 32767) then Some (OutOfRange path "int16") else None
  | yema.Int32 =>
      if (z <? -2147483648) || (z >? 2147483647)
      then Some (OutOfRange path "int32") else None
  | _ => None
  end = signed_range k z path.
Proof.
  destruct k; try done; intros _; unfold signed_range; simpl; z_cases.
Qed.

Lemma uint_range_check (k : yema.Kind) (z : Z) (path : string) :
  unsigned_kind k = true ->
  match k with
  | yema.Uint8 => if z >? 255 then Some (OutOfRange path "uint8") else None
  | yema.Uint16 => if z >? 65535 then Some (OutOfRange path "uint16") else None
  | yema.Uint32 =>
      if z >? 4294967295 then Some (OutOfRange path "uint32") else None
  | _ => None
  end = unsigned_range k z path.
Proof.
  destruct k; try done; intros _; unfold unsigned_range; simpl; z_cases.
Qed.

Lemma validateIntValue_signed (v : value) (z : Z) (k : yema.Kind) (path : string) :
  signed_kind k = true ->
  signed_value v = Some z ->
  validateIntValue platform v k path = signed_range k z path.
Proof.
  intros Hk Hv. rewrite <- (int_range_check k z path Hk).
  destruct v; simplify_eq/=; done.
Qed.

Lemma validateIntValue_number (s : string) (k : yema.Kind) (path : string) :
  signed_kind k = true ->
  validateIntValue platform (VNumber s) k path
  = if (strconv_ParseInt s).2 then signed_range k (strconv_ParseInt s).1 path
    else Some (MustBeInteger path).
Proof.
  intros Hk. unfold validateIntValue.
  destruct (strconv_ParseInt s) as [n [|]]; simpl; [|done].
  by apply int_range_check.
Qed.

Lemma validateIntValue_float64 (f : spec_float) (k : yema.Kind) (path : string) :
  signed_kind k = true ->
  validateIntValue platform (VFloat64 f) k path
  = if SFeqb f (float64_of_Z (int64_of_float64 platform f))
    then signed_range k (int64_of_float64 platform f) path
    else Some (MustBeInteger path).
Proof.
  intros Hk. unfold validateIntValue.
  destruct (SFeqb f _); simpl; [|done].
  by apply int_range_check.
Qed.

Lemma validateIntValue_other (v : value) (k : yema.Kind) (path : string) :
  int_dynamic_type v = false ->
  validateIntValue platform v k path = Some (MustBeInteger path).
Proof. destruct v; done. Qed.

Lemma validateValue_int_kind (v : value) (schema : yema.Type_) (path : string) :
  signed_kind (yema.TKind schema) = true ->
  v <> VNil ->
  validateValue platform v schema path
  = validateIntValue platform v (yema.TKind schema) path.
Proof.
  destruct schema as [k o s a]; simpl. intros Hk Hv.
  destruct v; try done; destruct k; done.
Qed.

Lemma validateValue_uint_kind (v : value) (schema : yema.Type_) (path : string) :
  unsigned_kind (yema.TKind schema) = true ->
  v <> VNil ->
  validateValue platform v schema path
  = validateUintValue platform v (yema.TKind schema) path.
Proof.
  destruct schema as [k o s a]; simpl. intros Hk Hv.
  destruct v; try done; destruct k; done.
Qed.

Lemma validateUintValue_unsigned (v : value) (z : Z) (k : yema.Kind) (path : string) :
  unsigned_kind k = true ->
  unsigned_value v = Some z ->
  validateUintValue platform v k path = unsigned_range k z path.
Proof.
  intros Hk Hv. rewrite <- (uint_range_check k z path Hk).
  destruct v; simplify_eq/=; done.
Qed.

Lemma validateUintValue_signed (v : value) (z : Z) (k : yema.Kind) (path : string) :
  unsigned_kind k = true ->
  signed_value v = Some z ->
  validateUintValue platform v k path
  = if 0 <=? z then unsigned_range k z path
    else Some (MustBeNonNegativeInteger path).
Proof.
  intros Hk Hv. rewrite <- (uint_range_check k z path Hk).
  destruct v; simplify_eq/=; unfold validateUintValue;
    destruct (0 <=? z); done.
Qed.

Lemma validateUintValue_number (s : string) (k : yema.Kind) (path : string) :
  unsigned_kind k = true ->
  validateUintValue platform (VNumber s) k path
  = if (0 <=? (strconv_ParseInt s).1) && (strconv_ParseInt s).2
    then unsigned_range k (strconv_ParseInt s).1 path
    else Some (MustBeNonNegativeInteger path).
Proof.
  intros Hk. unfold validateUintValue.
  destruct (strconv_ParseInt s) as [n ok]; simpl.
  destruct (0 <=? n), ok; simpl; try done.
  by apply uint_range_check.
Qed.

Lemma validateUintValue_float64 (f : spec_float) (k : yema.Kind) (path : string) :
  unsigned_kind k = true ->
  validateUintValue platform (VFloat64 f) k path
  = if float64_nonneg f && SFeqb f (float64_of_Z (uint64_of_float64 platform f))
    then unsigned_range k (uint64_of_float64 platform f) path
    else Some (MustBeNonNegativeInteger path).
Proof.
  intros Hk. unfold validateUintValue.
  destruct (float64_nonneg f && SFeqb f _); simpl; [|done].
  by apply uint_range_check.
Qed.

(** A float below zero fails the test [v >= 0]. *)
Lemma negative_float_not_nonneg (f : spec_float) :
  SFltb f (S754_zero false) = true -> float64_nonneg f = false.
Proof.
  unfold SFltb, float64_nonneg, SFleb.
  destruct f as [[|]|[|]| |[|] m e]; simpl; done.
Qed.

Lemma validateUintValue_other (v : value) (k : yema.Kind) (path : string) :
  uint_dynamic_type v = false ->
  validateUintValue platform v k path = Some (MustBeNonNegativeInteger path).
Proof. destruct v; done. Qed.

End Facts.

Lemma parse_digits_nonneg (s : string) (acc un : Z) :
  0 <= acc -> parse_digits s acc = Some un -> 0 <= un.
Proof.
  revert acc. induction s as [|d s IH]; intros acc Hacc; simpl.
  - by intros [= <-].
  - destruct (is_digit d) eqn:Hdig; [|done]. apply IH.
    unfold is_digit, digit_value in *. lia.
Qed.

(** [strconv.ParseInt] succeeds only on an integer literal, and then with a
    value of [int64]. *)
Lemma strconv_ParseInt_ok (s : string) :
  (strconv_ParseInt s).2 = true ->
  int_literal s = true /\
  int64_min <= (strconv_ParseInt s).1 <= int64_max.
Proof.
  unfold strconv_ParseInt, int_literal.
  destruct s as [|c rest]; [done|].
  destruct (Ascii.eqb c "-") eqn:Hneg; simpl.
  - rewrite orb_true_r. destruct rest as [|c' rest']; [done|].
    destruct (parse_digits (String c' rest') 0) as [un|] eqn:Hd; [|done].
    apply parse_digits_nonneg in Hd; [|lia].
    destruct (Z.ltb_spec (2 ^ 63) un); simpl; [done|].
    intros _. split; [done|].
    unfold int64_min, int64_max. lia.
  - rewrite !orb_false_r.
    destruct (if Ascii.eqb c "+" then rest else String c rest)
      as [|c' rest'] eqn:Hbody; [done|].
    destruct (parse_digits (String c' rest') 0) as [un|] eqn:Hd; [|done].
    apply parse_digits_nonneg in Hd; [|lia].
    destruct (Z.leb_spec (2 ^ 63) un); simpl; [done|].
    intros _. split; [done|].
    unfold int64_min, int64_max; lia.
Qed.

(** The [float64] of an integer below [2^53] in magnitude is that integer
    exactly: its mantissa is the integer shifted left to 53 bits. *)
Lemma digits2_pos_lower (m : positive) :
  2 ^ (Zpos (digits2_pos m) - 1) <= Zpos m.
Proof.
  induction m as [m IH|m IH|]; simpl digits2_pos; [| |simpl; lia].
  - rewrite Pos2Z.inj_succ.
    replace (Z.succ (Zpos (digits2_pos m)) - 1) with (Z.succ (Zpos (digits2_pos m) - 1)) by lia.
    rewrite Z.pow_succ_r by lia. lia.
  - rewrite Pos2Z.inj_succ.
    replace (Z.succ (Zpos (digits2_pos m)) - 1) with (Z.succ (Zpos (digits2_pos m) - 1)) by lia.
    rewrite Z.pow_succ_r by lia. lia.
Qed.

Lemma digits2_pos_le_53 (m : positive) :
  Zpos m < 2 ^ 53 -> Zpos (digits2_pos m) <= 53.
Proof.
  intros Hm. pose proof (digits2_pos_lower m) as Hlow.
  destruct (Z.le_gt_cases (Zpos (digits2_pos m)) 53) as [|Hgt]; [done|].
  assert (2 ^ 53 <= 2 ^ (Zpos (digits2_pos m) - 1)) by (apply Z.pow_le_mono_r; lia).
  lia.
Qed.

Lemma digits2_pos_iter (m k : positive) :
  digits2_pos (Pos.iter xO m k) = (digits2_pos m + k)%positive.
Proof.
  induction k as [|k IH] using Pos.peano_ind.
  - simpl. lia.
  - rewrite Pos.iter_succ. simpl. rewrite IH. lia.
Qed.

Lemma float64_of_positive (s : bool) (m : positive) :
  Zpos m < 2 ^ 53 ->
  exists mz ez,
    binary_round 53 1024 s m 0 = S754_finite s mz ez /\
    ez <= 0 /\ Zpos mz = Zpos m * 2 ^ (- ez).
Proof.
  intros Hm. pose proof (digits2_pos_le_53 m Hm) as Hd.
  unfold binary_round.
  assert (Hfexp : fexp 53 1024 (Zpos (digits2_pos m) + 0) = Zpos (digits2_pos m) - 53).
  { unfold fexp, emin. lia. }
  rewrite Hfexp. unfold shl_align.
  destruct (Zpos (digits2_pos m) - 53 - 0) as [|k|k] eqn:Hk; [|lia|].
  - exists m, 0. split; [|split; [lia|simpl; lia]].
    unfold binary_round_aux, shr_fexp. cbn [Zdigits2 shr_record_of_loc].
    assert (Hf : fexp 53 1024 (Zpos (digits2_pos m) + 0) - 0 = 0) by (rewrite Hfexp; lia).
    rewrite Hf. cbn [shr shr_m loc_of_shr_record round_nearest_even Zdigits2 shr_record_of_loc].
    rewrite Hf. cbn [shr shr_m]. reflexivity.
  - exists (Pos.iter xO m k), (Zpos (digits2_pos m) - 53).
    split; [|split; [lia|]].
    + unfold binary_round_aux, shr_fexp. cbn [Zdigits2 shr_record_of_loc].
      assert (Hf : fexp 53 1024 (Zpos (digits2_pos (Pos.iter xO m k)) + (Zpos (digits2_pos m) - 53)) - (Zpos (digits2_pos m) - 53) = 0).
      { rewrite digits2_pos_iter. unfold fexp, emin. lia. }
      rewrite Hf. cbn [shr shr_m loc_of_shr_record round_nearest_even Zdigits2 shr_record_of_loc].
      rewrite Hf. cbn [shr shr_m].
      destruct (Z.leb_spec (Zpos (digits2_pos m) - 53) (1024 - 53)); [done|lia].
    + change (Pos.iter xO m k) with (shift_pos k m). rewrite shift_pos_correct.
      replace (- (Zpos (digits2_pos m) - 53)) with (Zpos k) by lia.
      rewrite Z.pow_pos_fold. lia.
Qed.

Lemma float_trunc_float64_of_Z (z : Z) :
  - 2 ^ 53 < z < 2 ^ 53 -> float_trunc (float64_of_Z z) = Some z.
Proof.
  intros Hz. unfold float64_of_Z, binary_normalize.
  destruct z as [|m|m]; [done| |].
  - destruct (float64_of_positive false m) as (mz & ez & -> & Hez & Hmz); [lia|].
    unfold float_trunc. f_equal. cbn [cond_Zopp]. rewrite Hmz.
    destruct (Z.leb_spec 0 ez).
    + replace ez with 0 by lia. simpl. lia.
    + apply Z.div_mul. apply Z.pow_nonzero; lia.
  - destruct (float64_of_positive true m) as (mz & ez & -> & Hez & Hmz); [lia|].
    unfold float_trunc. f_equal. cbn [cond_Zopp]. rewrite Hmz.
    destruct (Z.leb_spec 0 ez).
    + replace ez with 0 by lia. simpl. lia.
    + rewrite Z.div_mul; [lia|]. apply Z.pow_nonzero; lia.
Qed.

Lemma SFeqb_float64_of_Z (z : Z) :
  - 2 ^ 53 < z < 2 ^ 53 -> SFeqb (float64_of_Z z) (float64_of_Z z) = true.
Proof.
  intros Hz. unfold float64_of_Z, binary_normalize.
  destruct z as [|m|m]; [done| |].
  - destruct (float64_of_positive false m) as (mz & ez & -> & _); [lia|].
    unfold SFeqb, SFcompare. rewrite Z.compare_refl.
    change (Pos.compare_cont Eq mz mz) with (Pos.compare mz mz).
    by rewrite Pos.compare_refl.
  - destruct (float64_of_positive true m) as (mz & ez & -> & _); [lia|].
    unfold SFeqb, SFcompare. rewrite Z.compare_refl.
    change (Pos.compare_cont Eq mz mz) with (Pos.compare mz mz).
    by rewrite Pos.compare_refl.
Qed.

Lemma float64_of_Z_nonneg (z : Z) :
  0 <= z < 2 ^ 53 -> validator.float64_nonneg (float64_of_Z z) = true.
Proof.
  intros Hz. unfold float64_of_Z, binary_normalize.
  destruct z as [|m|m]; [done| |lia].
  by destruct (float64_of_positive false m) as (mz & ez & -> & _); [lia|].
Qed.

Lemma validateIntValue_whole_float (platform : Platform) (z : Z) (k : yema.Kind)
  (path : string) :
  signed_kind k = true ->
  - 2 ^ 53 < z < 2 ^ 53 ->
  validateIntValue platform (VFloat64 (float64_of_Z z)) k path
  = signed_range k z path.
Proof.
  intros Hk Hz. rewrite validateIntValue_float64 by done.
  assert (Hconv : int64_of_float64 platform (float64_of_Z z) = z).
  { unfold int64_of_float64. rewrite float_trunc_float64_of_Z by done.
    unfold int64_min, int64_max.
    destruct (Z.leb_spec (- 2 ^ 63) z), (Z.leb_spec z (2 ^ 63 - 1)); simpl;
      first [done | lia]. }
  by rewrite Hconv, SFeqb_float64_of_Z.
Qed.

Lemma validateUintValue_whole_float (platform : Platform) (z : Z) (k : yema.Kind)
  (path : string) :
  unsigned_kind k = true ->
  0 <= z < 2 ^ 53 ->
  validateUintValue platform (VFloat64 (float64_of_Z z)) k path
  = unsigned_range k z path.
Proof.
  intros Hk Hz. rewrite validateUintValue_float64 by done.
  assert (Hconv : uint64_of_float64 platform (float64_of_Z z) = z).
  { unfold uint64_of_float64. rewrite float_trunc_float64_of_Z by lia.
    unfold uint64_max.
    destruct (Z.leb_spec 0 z), (Z.leb_spec z (2 ^ 64 - 1)); simpl;
      first [done | lia]. }
  rewrite Hconv, SFeqb_float64_of_Z by lia.
  by rewrite float64_of_Z_nonneg.
Qed.

End numeric_facts.

(** ** The builder *)

Module parser_facts.

Import parser_spec.

Lemma parseValueToType_map (fieldName : string) (v : gomap value) (isOptional : bool) :
  parser.parseValueToType fieldName (VMap v) isOptional
  = parse_fields isOptional v [].
Proof.
  simpl. generalize (@nil (string * yema.Type_)).
  induction v as [|[k val] rest IH]; intros acc; simpl; [done|].
  unfold field_of_key.
  destruct (negb _); [done|].
  destruct (parser.parseValueToType _ val _); [|done]. apply IH.
Qed.

Lemma From_fields (schema : gomap value) :
  parser.From schema = parse_fields false schema [].
Proof.
  unfold parser.From. generalize (@nil (string * yema.Type_)).
  induction schema as [|[k val] rest IH]; intros acc; simpl; [done|].
  unfold field_of_key.
  destruct (negb _); [done|].
  destruct (parser.parseValueToType _ val _); [|done]. apply IH.
Qed.

Lemma parse_fields_optional (isOptional : bool) (v : gomap value)
  (acc : gomap yema.Type_) (t : yema.Type_) :
  parse_fields isOptional v acc = parser.Ok t ->
  yema.Optional t = isOptional /\ yema.TKind t = yema.Struct.
Proof.
  revert acc. induction v as [|[k val] rest IH]; intros acc; simpl.
  - by intros [= <-].
  - destruct (negb _); [done|].
    destruct (parser.parseValueToType _ val _); [|done]. apply IH.
Qed.

(** The optional flag of a built type is the flag the caller passed. *)
Lemma parseValueToType_optional (fieldName : string) (v : value)
  (isOptional : bool) (t : yema.Type_) :
  parser.parseValueToType fieldName v isOptional = parser.Ok t ->
  yema.Optional t = isOptional.
Proof.
  destruct v; try done.
  - simpl. destruct (parser.kind_of_name s); [|done]. by intros [= <-].
  - destruct arr as [|item [|]]; simpl; try done.
    destruct (parser.parseValueToType fieldName item false); [|done].
    by intros [= <-].
  - rewrite parseValueToType_map. intros H.
    by apply parse_fields_optional in H as [? _].
Qed.

Lemma depth_nested_array (n : nat) (isOptional : bool) :
  yema.depth (nested_array_type n isOptional) = S n.
Proof.
  revert isOptional. induction n as [|n IH]; intros isOptional; [done|].
  simpl. by rewrite IH.
Qed.

Lemma depth_nested_record (n : nat) :
  yema.depth (nested_record_type n) = S n.
Proof.
  induction n as [|n IH]; [done|]. simpl. rewrite IH. lia.
Qed.

End parser_facts.

(** ** The Go walk *)

Module golang_facts.

Import golang.

Import golang_spec.

(** Induction on a schema, with the property at hand for every field of a
    record and for the element of an array. *)
Lemma Type_ind' (P : yema.Type_ -> Prop) :
  (forall k o s a,
     match s with Some fs => Forall (fun kt => P kt.2) fs | None => True end ->
     match a with Some e => P e | None => True end ->
     P (yema.mkType k o s a)) ->
  forall t, P t.
Proof.
  intros H. fix IH 1. intros [k o s a]. apply H.
  - destruct s as [fs|]; [|exact I].
    induction fs as [|[f t] fs IHfs]; constructor; [apply IH | exact IHfs].
  - destruct a as [e|]; [apply IH | exact I].
Qed.

Lemma depth_unfold k o s a :
  yema.depth (yema.mkType k o s a)
  = S (Nat.max match s with Some fs => fields_depth fs | None => O end
               match a with Some e => yema.depth e | None => O end).
Proof. reflexivity. Qed.

Lemma fields_depth_bound (fs : gomap yema.Type_) :
  Forall (fun kt => (yema.depth kt.2 <= fields_depth fs)%nat) fs.
Proof.
  induction fs as [|[f t] fs IH]; constructor; simpl; [lia|].
  eapply Forall_impl; [exact IH|]. simpl. intros. lia.
Qed.

Lemma declared_app (b1 b2 : list chunk) :
  declared (b1 ++ b2)%list = (declared b1 ++ declared b2)%list.
Proof. unfold declared. apply omap_app. Qed.

Lemma camel_word (w : string) :
  no_separator w = true -> camel w false = w.
Proof.
  induction w as [|c w IH]; simpl; [done|].
  intros [Hc Hw]%andb_true_iff. apply negb_true_iff in Hc. rewrite Hc.
  by rewrite IH.
Qed.

Lemma camel_boundary (a b : string) (sep : ascii) (nextUpper : bool) :
  is_separator sep = true ->
  camel (a ++ String sep b) nextUpper = camel a nextUpper ++ camel b true.
Proof.
  intros Hsep. revert nextUpper.
  induction a as [|c a IH]; intros nextUpper; simpl.
  - by rewrite Hsep.
  - destruct (is_separator c); [apply IH|].
    destruct nextUpper; simpl; by rewrite IH.
Qed.

Lemma camel_no_separator (s : string) (nextUpper : bool) :
  no_separator (camel s nextUpper) = true.
Proof.
  revert nextUpper. induction s as [|c s IH]; intros nextUpper; simpl; [done|].
  destruct (is_separator c) eqn:Hc; [apply IH|].
  assert (Hup : is_separator (unicode_ToUpper c) = false).
  { unfold unicode_ToUpper.
    destruct (_ && _)%N eqn:Hrange; [|done].
    apply andb_true_iff in Hrange as [Hlo Hhi].
    apply N.leb_le in Hlo, Hhi.
    assert (Hcases : forall n, (97 <= n <= 122)%N ->
              is_separator (ascii_of_N (n - 32)) = false).
    { intros n Hn.
      assert (Hn' : exists m : nat, (m < 26)%nat /\ n = (N.of_nat m + 97)%N).
      { exists (N.to_nat (n - 97)). split; lia. }
      destruct Hn' as (m & Hm & ->).
      do 26 (destruct m as [|m]; [reflexivity|]). lia. }
    apply Hcases. lia. }
  destruct nextUpper; simpl; rewrite ?Hup, ?Hc, IH; done.
Qed.

(** ** [typeToGoType] *)

Lemma typeToGoType_returns (t : yema.Type_) (parentName fieldName : string) :
  (exists r, typeToGoType t parentName fieldName = Ok r) \/
  (exists e, typeToGoType t parentName fieldName = Err e).
Proof.
  induction t as [k o s a _ IHa] using Type_ind'.
  destruct k; simpl; eauto.
  destruct a as [e|]; [|eauto].
  destruct IHa as [[[ty n] ->]|[err ->]]; eauto.
Qed.

Lemma typeToGoType_struct (t : yema.Type_) (parentName fieldName goType nested : string) :
  yema.TKind t = yema.Struct ->
  typeToGoType t parentName fieldName = Ok (goType, nested) ->
  nested = parentName ++ toCamelCase fieldName.
Proof.
  destruct t as [k o s a]; simpl. intros ->. by intros [= _ <-].
Qed.

Lemma typeToGoType_array_of_struct (t elem : yema.Type_)
  (parentName fieldName goType nested : string) :
  yema.TKind t = yema.Array ->
  yema.TArray t = Some elem ->
  yema.TKind elem = yema.Struct ->
  typeToGoType t parentName fieldName = Ok (goType, nested) ->
  nested = parentName ++ toCamelCase fieldName.
Proof.
  destruct t as [k o s a]; simpl. intros -> -> Helem.
  destruct elem as [k' o' s' a']; simpl in *; subst k'.
  by intros [= _ <-].
Qed.

(** ** [emitFields] *)

Lemma emitFields_returns (fields : gomap yema.Type_) (structName : string)
  (st : state) (acc : gomap yema.Type_) :
  emitFields fields structName st acc <> OutOfFuel.
Proof.
  revert st acc. induction fields as [|[f t] fields IH]; intros st acc; simpl; [done|].
  destruct (typeToGoType_returns t structName f) as [[[ty n] ->]|[err ->]]; [|done].
  repeat case_match; try done; apply IH.
Qed.

(** The loop writes field lines only, and leaves the visited set alone. *)
Lemma emitFields_state (fields : gomap yema.Type_) (structName : string)
  (st st' : state) (acc nested : gomap yema.Type_) :
  emitFields fields structName st acc = Ok (st', nested) ->
  generatedStructs st' = generatedStructs st /\
  exists lines, buf st' = (buf st ++ lines)%list /\ declared lines = [].
Proof.
  revert st acc. induction fields as [|[f t] fields IH]; intros st acc; simpl.
  - intros [= <- <-]. split; [done|]. exists []. by rewrite app_nil_r.
  - destruct (typeToGoType t structName f) as [[ty n]| | |]; try done.
    intros H.
    assert (Hstep : exists acc',
      emitFields fields structName
        (write (FieldLine (toCamelCase f) ty
                  (if yema.Optional t then f ++ ",omitempty" else f)) st) acc'
      = Ok (st', nested)).
    { repeat case_match; try done; eauto. }
    destruct Hstep as [acc' Hstep]. apply IH in Hstep as (Hvis & lines & Hbuf & Hdecl).
    split; [done|]. eexists (_ :: lines). simpl in Hbuf.
    rewrite Hbuf, <- app_assoc. split; [reflexivity|]. done.
Qed.

Lemma map_set_Forall {V : Type} (P : string * V -> Prop) (m : gomap V)
  (k : string) (v : V) :
  Forall P m -> (forall k', P (k', v)) -> Forall P (map_set m k v).
Proof.
  intros Hm Hv. induction Hm as [|[k' v'] m Hkv Hm IH]; simpl.
  - constructor; [apply Hv | constructor].
  - destruct (String.eqb k k'); constructor; auto.
Qed.

Lemma depth_nested_struct (t : yema.Type_) :
  (yema.depth (yema.mkType yema.Struct false (yema.TStruct t) None)
   <= yema.depth t)%nat.
Proof.
  destruct t as [k o s a]. cbn [yema.TStruct]. rewrite !depth_unfold. lia.
Qed.

Lemma depth_elem (t elem : yema.Type_) :
  yema.TArray t = Some elem -> (yema.depth elem < yema.depth t)%nat.
Proof.
  destruct t as [k o s a]. intros H. simpl in H. subst a.
  rewrite (depth_unfold k o s (Some elem)). lia.
Qed.

(** Every nested struct the loop collects is no deeper than the fields. *)
Lemma emitFields_depth (d : nat) (fields : gomap yema.Type_) (structName : string)
  (st st' : state) (acc nested : gomap yema.Type_) :
  Forall (fun kt => (yema.depth kt.2 <= d)%nat) fields ->
  Forall (fun kt => (yema.depth kt.2 <= d)%nat) acc ->
  emitFields fields structName st acc = Ok (st', nested) ->
  Forall (fun kt => (yema.depth kt.2 <= d)%nat) nested.
Proof.
  intros Hfields. revert st acc.
  induction Hfields as [|[f t] fields Ht Hfields IH]; intros st acc Hacc;
    cbn [emitFields].
  - by intros [= <- <-].
  - destruct (typeToGoType t structName f) as [[ty n]| | |]; try done.
    cbn [snd] in Ht.
    destruct (negb (String.eqb n "") && bool_decide (yema.TKind t = yema.Struct)).
    { apply IH. apply map_set_Forall; [done|]. intros ?. cbn [snd].
      pose proof (depth_nested_struct t). lia. }
    destruct (negb (String.eqb n "") && bool_decide (yema.TKind t = yema.Array));
      [|by apply IH].
    destruct (yema.TArray t) as [elem|] eqn:Helem; [|done].
    destruct (bool_decide (yema.TKind elem = yema.Struct)); [|by apply IH].
    apply IH. apply map_set_Forall; [done|]. intros ?. cbn [snd].
    pose proof (depth_nested_struct elem). pose proof (depth_elem t elem Helem).
    lia.
Qed.

Lemma map_set_keys {V : Type} (m : gomap V) (k : string) (v : V) (k' : string) :
  In k' (map_keys (map_set m k v)) -> k' = k \/ In k' (map_keys m).
Proof.
  induction m as [|[k0 v0] m IH]; simpl.
  - intros [<-|[]]. by left.
  - destruct (String.eqb k k0) eqn:Heq; simpl.
    + intros H. by right.
    + intros [<-|H]; [right; by left|]. destruct (IH H); auto.
Qed.

Lemma emitFields_keys (fields : gomap yema.Type_) (structName : string)
  (st st' : state) (acc nested : gomap yema.Type_) (name : string) :
  emitFields fields structName st acc = Ok (st', nested) ->
  In name (map_keys nested) ->
  In name (map_keys acc) \/ names_nested_record structName fields name.
Proof.
  revert st acc. induction fields as [|[f t] fields IH]; intros st acc; simpl.
  - intros [= <- <-]. by left.
  - destruct (typeToGoType t structName f) as [[ty n]| | |] eqn:Hty; try done.
    assert (Hweaken : names_nested_record structName fields name ->
                      names_nested_record structName ((f, t) :: fields) name).
    { intros (f' & t' & Hin & Hrest). exists f', t'. split; [by right | done]. }
    cbn [emitFields].
    destruct (negb (String.eqb n "") && bool_decide (yema.TKind t = yema.Struct))
      eqn:Hs.
    { intros Hemit Hname.
      destruct (IH _ _ Hemit Hname) as [Hacc|Hf]; [|right; auto].
      apply map_set_keys in Hacc as [->|Hacc]; [|by left]. right.
      exists f, t. split; [by left|].
      apply andb_true_iff in Hs as [_ Hk%bool_decide_eq_true].
      split; [by eapply typeToGoType_struct | by left]. }
    destruct (negb (String.eqb n "") && bool_decide (yema.TKind t = yema.Array))
      eqn:Ha.
    2: { intros Hemit Hname. destruct (IH _ _ Hemit Hname); auto. }
    destruct (yema.TArray t) as [elem|] eqn:Helem; [|done].
    destruct (bool_decide (yema.TKind elem = yema.Struct)) eqn:He.
    2: { intros Hemit Hname. destruct (IH _ _ Hemit Hname); auto. }
    intros Hemit Hname.
    destruct (IH _ _ Hemit Hname) as [Hacc|Hf]; [|right; auto].
    apply map_set_keys in Hacc as [->|Hacc]; [|by left]. right.
    exists f, t. split; [by left|].
    apply andb_true_iff in Ha as [_ Hk%bool_decide_eq_true].
    apply bool_decide_eq_true in He.
    split; [by eapply typeToGoType_array_of_struct | right; eauto].
Qed.

Lemma adds_nothing (st st' : state) :
  generatedStructs st' = generatedStructs st ->
  (exists lines, buf st' = (buf st ++ lines)%list /\ declared lines = []) ->
  adds st st' [].
Proof.
  intros Hvis Hbuf. repeat split; [done| |constructor|].
  - rewrite Hvis. set_solver.
  - intros n Hn. by apply elem_of_nil in Hn.
Qed.

Lemma adds_trans (st1 st2 st3 : state) (names1 names2 : list string) :
  adds st1 st2 names1 -> adds st2 st3 names2 ->
  adds st1 st3 (names1 ++ names2)%list.
Proof.
  intros ((new1 & Hb1 & Hd1) & Hv1 & Hn1 & Hf1) ((new2 & Hb2 & Hd2) & Hv2 & Hn2 & Hf2).
  repeat split.
  - exists (new1 ++ new2)%list.
    rewrite Hb2, Hb1, <- app_assoc, declared_app, Hd1, Hd2. done.
  - rewrite Hv2, Hv1, list_to_set_app_L. set_solver.
  - apply NoDup_app. repeat split; [done| |done].
    intros n Hn1' Hn2'. apply (Hf2 n Hn2'). rewrite Hv1. set_solver.
  - intros n [Hn|Hn]%elem_of_app; [by apply Hf1|].
    intros Hin. apply (Hf2 n Hn). rewrite Hv1. set_solver.
Qed.

Lemma generateNested_adds
  (generate : yema.Type_ -> string -> state -> outcome state)
  (nested : list (string * yema.Type_)) (st st' : state) :
  (forall t name st st',
     generate t name st = Ok st' -> exists names, adds st st' names) ->
  generateNested generate nested st = Ok st' ->
  exists names, adds st st' names.
Proof.
  intros Hgen. revert st.
  induction nested as [|[name t] rest IH]; intros st; simpl.
  - intros [= <-]. exists []. apply adds_nothing; [done|].
    exists []. by rewrite app_nil_r.
  - destruct (generate t name st) as [st1| | |] eqn:H1; try done.
    intros H2. apply Hgen in H1 as [names1 H1]. apply IH in H2 as [names2 H2].
    eexists. by eapply adds_trans.
Qed.

Section Walk.

Context (order : RangeOrder yema.Type_).

(** A call of [generateStructs] that returns has declared nothing when the
    name was visited before, and [structName] first otherwise. *)
Lemma generateStructs_adds (fuel : nat) (t : yema.Type_) (structName : string)
  (st st' : state) :
  generateStructs order fuel t structName st = Ok st' ->
  exists names,
    adds st st' names /\
    (structName ∈ generatedStructs st -> st' = st /\ names = []) /\
    (structName ∉ generatedStructs st -> exists rest, names = structName :: rest).
Proof.
  revert t structName st st'.
  induction fuel as [|fuel IH]; intros t structName st st'; simpl; [done|].
  destruct (negb _); [done|].
  case_bool_decide as Hvisited.
  { intros [= <-]. exists []. split; [|split; [done|done]].
    apply adds_nothing; [done|]. exists []. by rewrite app_nil_r. }
  destruct (yema.TStruct t) as [fields|]; [|done].
  destruct (emitFields fields structName _ []) as [[st1 nested]| | |] eqn:Hemit;
    try done.
  intros Hnested.
  apply emitFields_state in Hemit as (Hvis1 & lines & Hbuf1 & Hlines).
  simpl in Hvis1, Hbuf1.
  apply generateNested_adds in Hnested as [names Hnames].
  2: { intros t' name' st0 st0' H. apply IH in H as (names' & H & _). eauto. }
  exists (structName :: names). split; [|split; [done|eauto]].
  change (structName :: names) with ([structName] ++ names)%list.
  eapply adds_trans; [|exact Hnames].
  repeat split.
  - exists ([DocComment structName; TypeOpen structName] ++ lines ++ [TypeClose])%list.
    simpl. rewrite Hbuf1, <- !app_assoc. split; [done|].
    simpl. rewrite declared_app, Hlines. done.
  - simpl. rewrite Hvis1. set_solver.
  - apply NoDup_singleton.
  - intros n ->%list_elem_of_singleton. done.
Qed.

(** With fuel for the depth of the schema the walk is not cut short. *)
Lemma generateStructs_fuel (fuel : nat) (t : yema.Type_) (structName : string)
  (st : state) :
  (yema.depth t <= fuel)%nat ->
  generateStructs order fuel t structName st <> OutOfFuel.
Proof.
  revert t structName st.
  induction fuel as [|fuel IH]; intros t structName st Hfuel.
  { destruct t. rewrite depth_unfold in Hfuel. lia. }
  simpl. destruct (negb _); [done|]. case_bool_decide; [done|].
  destruct t as [k o s a]. rewrite depth_unfold in Hfuel. simpl.
  destruct s as [fields|]; [|done].
  destruct (emitFields fields structName _ []) as [[st1 nested]| | |] eqn:Hemit;
    try done.
  2: { by apply emitFields_returns in Hemit. }
  assert (Hnested : Forall (fun kt => (yema.depth kt.2 <= fuel)%nat) nested).
  { eapply (emitFields_depth fuel); [|constructor|exact Hemit].
    eapply Forall_impl; [apply fields_depth_bound|]. simpl. intros. lia. }
  assert (Hordered : Forall (fun kt => (yema.depth kt.2 <= fuel)%nat) (order nested)).
  { by rewrite (range_of_perm order nested). }
  generalize (write TypeClose st1).
  induction Hordered as [|[name t'] rest Ht' _ IHrest]; intros st2; simpl; [done|].
  pose proof (IH t' name st2 Ht').
  destruct (generateStructs order fuel t' name st2); [apply IHrest|done..].
Qed.

End Walk.

(** One step of the walk on a name that was not visited. *)
Lemma generateStructs_fresh (order : RangeOrder yema.Type_) (fuel : nat)
  (t : yema.Type_) (structName : string) (st st1 : state)
  (fields nested : gomap yema.Type_) :
  yema.TKind t = yema.Struct ->
  structName ∉ generatedStructs st ->
  yema.TStruct t = Some fields ->
  emitFields fields structName
    (write (TypeOpen structName)
       (write (DocComment structName)
          (mkState (buf st) ({[structName]} ∪ generatedStructs st)))) []
  = Ok (st1, nested) ->
  generateStructs order (S fuel) t structName st
  = generateNested (generateStructs order fuel) (order nested)
      (write TypeClose st1).
Proof.
  intros Hk Hfresh Hs Hemit. simpl. rewrite Hk, Hs.
  rewrite bool_decide_eq_true_2 by done. simpl.
  rewrite bool_decide_eq_false_2 by done. by rewrite Hemit.
Qed.

Lemma range_of_nil {V : Type} (order : RangeOrder V) : order [] = [].
Proof. apply Permutation_nil. symmetry. apply (range_of_perm order []). Qed.

Lemma range_of_singleton {V : Type} (order : RangeOrder V) (kv : string * V) :
  order [kv] = [kv].
Proof.
  apply Permutation_length_1_inv. symmetry. apply (range_of_perm order [kv]).
Qed.

Lemma append_not_empty (s : string) (c : ascii) (rest : string) :
  String.eqb (s ++ String c rest) "" = false.
Proof. by destruct s. Qed.

Lemma append_not_self (s : string) (c : ascii) (rest : string) :
  s ++ String c rest <> s.
Proof.
  induction s as [|a s IH]; simpl; [done|]. intros [= H]. by apply IH.
Qed.

(** [ToGolang] is never cut short by the fuel of the model. *)
Lemma ToGolang_returns (order : RangeOrder yema.Type_) (t : option yema.Type_)
  (opts : Options) :
  ToGolang order t opts <> OutOfFuel.
Proof.
  destruct t as [t|]; simpl; [|done].
  destruct (negb _); [done|].
  pose proof (generateStructs_fuel order (yema.depth t) t
                (if String.eqb (RootType opts) "" then "Root" else RootType opts)
                (mkState
                   [PackageClause
                      (if String.eqb (Package opts) "" then "generated"
                       else Package opts)] ∅)
                (Nat.le_refl _)) as Hfuel.
  by destruct (generateStructs order _ t _ _).
Qed.

(** The walk keeps the declared names distinct and inside the visited set. *)
Lemma generateStructs_distinct (order : RangeOrder yema.Type_) (fuel : nat)
  (t : yema.Type_) (structName : string) (st st' : state) :
  NoDup (declared (buf st)) ->
  (forall n, n ∈ declared (buf st) -> n ∈ generatedStructs st) ->
  generateStructs order fuel t structName st = Ok st' ->
  NoDup (declared (buf st')) /\
  (forall n, n ∈ declared (buf st') -> n ∈ generatedStructs st').
Proof.
  intros Hnodup Hvisited Hwalk.
  apply generateStructs_adds in Hwalk
    as (names & ((new & Hbuf & Hnew) & Hvis & Hnames & Hfresh) & _).
  rewrite Hbuf, declared_app, Hnew, Hvis. split.
  - apply NoDup_app. repeat split; [done| |done].
    intros n Hold Hn. apply (Hfresh n Hn). by apply Hvisited.
  - intros n [Hn|Hn]%elem_of_app; [|set_solver].
    apply Hvisited in Hn. set_solver.
Qed.

Lemma ToGolang_distinct (order : RangeOrder yema.Type_) (t : option yema.Type_)
  (opts : Options) (b : list chunk) :
  ToGolang order t opts = Ok b -> NoDup (declared b).
Proof.
  destruct t as [t|]; simpl; [|done].
  destruct (negb _); [done|].
  destruct (generateStructs order _ t _ _) as [st'| | |] eqn:Hwalk; try done.
  intros [= <-]. apply generateStructs_distinct in Hwalk as [H _]; [done|constructor|].
  simpl. intros n Hn. by apply elem_of_nil in Hn.
Qed.

(** A run that returns has declared the root first. *)
Lemma ToGolang_root_first (order : RangeOrder yema.Type_) (t : option yema.Type_)
  (opts : Options) (b : list chunk) :
  ToGolang order t opts = Ok b ->
  exists rest,
    declared b
    = (if String.eqb (RootType opts) "" then "Root" else RootType opts) :: rest.
Proof.
  destruct t as [t|]; simpl; [|done].
  destruct (negb _); [done|].
  destruct (generateStructs order _ t _ _) as [st'| | |] eqn:Hwalk; try done.
  intros [= <-].
  apply generateStructs_adds in Hwalk
    as (names & ((new & Hbuf & Hnew) & _) & _ & Hfirst).
  destruct Hfirst as [rest ->]; [simpl; set_solver|].
  exists rest. rewrite Hbuf, declared_app, Hnew. done.
Qed.

Lemma field_names_nested (parentName fieldName : string) (t : yema.Type_) :
  field_names parentName fieldName t
  = match nested_record t with
    | Some s => record_names (parentName ++ toCamelCase fieldName) s
    | None => []
    end.
Proof.
  destruct t as [k o s a]. unfold nested_record. destruct k; try done; simpl.
  destruct a as [[k' o' s' a']|]; [|done]. simpl. by case_bool_decide.
Qed.

Lemma map_set_fresh {V : Type} (m : gomap V) (k : string) (v : V) :
  k ∉ map_keys m -> map_set m k v = (m ++ [(k, v)])%list.
Proof.
  induction m as [|[k' v'] m IH]; simpl; [done|].
  intros Hk. apply not_elem_of_cons in Hk as [Hne Hk].
  destruct (String.eqb_spec k k'); [done|]. by rewrite IH.
Qed.

Lemma append_nonempty (s t : string) : s <> "" -> String.eqb (s ++ t) "" = false.
Proof. by destruct s. Qed.

Lemma typeToGoType_nested_record (t : yema.Type_) (parentName fieldName goType nested : string) :
  typeToGoType t parentName fieldName = Ok (goType, nested) ->
  is_Some (nested_record t) -> nested = parentName ++ toCamelCase fieldName.
Proof.
  intros Hty. unfold nested_record.
  destruct (yema.TKind t) eqn:Hk; try by intros [? [=]].
  - destruct (yema.TArray t) as [elem|] eqn:Ha; [|by intros [? [=]]].
    case_bool_decide as He; [|by intros [? [=]]]. intros _.
    by eapply typeToGoType_array_of_struct.
  - intros _. by eapply typeToGoType_struct.
Qed.

(** When the names of the nested structs are distinct, the loop collects
    them in the order of the fields. *)
Lemma emitFields_children (fields : gomap yema.Type_) (structName : string)
  (st st' : state) (acc nested : gomap yema.Type_) :
  structName <> "" ->
  NoDup (map_keys acc ++ map_keys (children structName fields)) ->
  emitFields fields structName st acc = Ok (st', nested) ->
  nested = (acc ++ children structName fields)%list.
Proof.
  intros Hname. revert st acc.
  induction fields as [|[f t] fields IH]; intros st acc Hnodup; simpl.
  - intros [= <- <-]. by rewrite app_nil_r.
  - destruct (typeToGoType t structName f) as [[ty n]| | |] eqn:Hty; try done.
    unfold children in *. simpl in *. fold (children structName fields) in *.
    pose proof (typeToGoType_nested_record t structName f ty n Hty) as Hn.
    unfold nested_record in *.
    destruct (yema.TKind t) eqn:Hk; simpl;
      rewrite ?andb_false_r; try (by apply IH).
    + (* Array *)
      destruct (yema.TArray t) as [elem|] eqn:Ha; simpl in *.
      2: { destruct (negb _); [done|]. by apply IH. }
      case_bool_decide as He; simpl in *.
      * rewrite Hn by done. rewrite append_nonempty by done. simpl.
        intros Hemit. apply IH in Hemit.
        -- rewrite Hemit, map_set_fresh, <- app_assoc; [done|].
           apply NoDup_app in Hnodup as (_ & Hdisj & _).
           intros Hin. apply (Hdisj _ Hin). left.
        -- rewrite map_set_fresh.
           ++ unfold map_keys in *. rewrite map_app, <- app_assoc. done.
           ++ apply NoDup_app in Hnodup as (_ & Hdisj & _).
              intros Hin. apply (Hdisj _ Hin). left.
      * destruct (negb _); by apply IH.
    + (* Struct *)
      rewrite Hn by done. rewrite append_nonempty by done. simpl.
      intros Hemit. apply IH in Hemit.
      * rewrite Hemit, map_set_fresh, <- app_assoc; [done|].
        apply NoDup_app in Hnodup as (_ & Hdisj & _).
        intros Hin. apply (Hdisj _ Hin). left.
      * rewrite map_set_fresh.
        -- unfold map_keys in *. rewrite map_app, <- app_assoc. done.
        -- apply NoDup_app in Hnodup as (_ & Hdisj & _).
           intros Hin. apply (Hdisj _ Hin). left.
Qed.

Lemma children_names (name : string) (fields : gomap yema.Type_) :
  flat_map (fun kt => field_names name kt.1 kt.2) fields
  = flat_map names_of_child (children name fields).
Proof.
  induction fields as [|[f t] fields IH]; [done|].
  unfold children in *. simpl. rewrite IH, field_names_nested.
  by destruct (nested_record t).
Qed.

Lemma children_nonempty (name : string) (fields : gomap yema.Type_) :
  name <> "" -> Forall (fun c => c.1 <> "") (children name fields).
Proof.
  intros Hname. unfold children.
  induction fields as [|[f t] fields IH]; simpl; [constructor|].
  destruct (nested_record t); [|done]. constructor; [|done].
  simpl. by destruct name.
Qed.

Lemma NoDup_child_keys (l : gomap yema.Type_) :
  NoDup (flat_map names_of_child l) -> NoDup (map_keys l).
Proof.
  induction l as [|[n t] l IH]; simpl; [constructor|].
  intros Hnodup. apply NoDup_cons in Hnodup as [Hn Hnodup].
  apply NoDup_app in Hnodup as (_ & _ & Hrest).
  constructor; [|by apply IH].
  intros Hin. apply Hn. apply elem_of_app. right.
  clear -Hin. induction l as [|[n' t'] l IH]; simpl in *.
  - by apply elem_of_nil in Hin.
  - apply elem_of_cons in Hin as [->|Hin]; [left|].
    right. apply elem_of_app. right. by apply IH.
Qed.

Lemma generateNested_names
  (generate : yema.Type_ -> string -> state -> outcome state)
  (nested : list (string * yema.Type_)) (st st' : state) :
  (forall t name st st',
     name <> "" ->
     NoDup (record_names name (yema.TStruct t)) ->
     (forall n, n ∈ record_names name (yema.TStruct t) -> n ∉ generatedStructs st) ->
     generate t name st = Ok st' ->
     exists names,
       adds st st' names /\ names ≡ₚ record_names name (yema.TStruct t)) ->
  Forall (fun c => c.1 <> "") nested ->
  NoDup (flat_map names_of_child nested) ->
  (forall n, n ∈ flat_map names_of_child nested -> n ∉ generatedStructs st) ->
  generateNested generate nested st = Ok st' ->
  exists names,
    adds st st' names /\ names ≡ₚ flat_map names_of_child nested.
Proof.
  intros Hgen. revert st.
  induction nested as [|[name t] rest IH]; intros st Hne Hnodup Hfresh; simpl.
  - intros [= <-]. exists []. split; [|done].
    apply adds_nothing; [done|]. exists []. by rewrite app_nil_r.
  - destruct (generate t name st) as [st1| | |] eqn:H1; try done.
    intros H2. inversion Hne as [|? ? Hname Hne']; subst. simpl in Hname.
    change (flat_map names_of_child ((name, t) :: rest))
      with (names_of_child (name, t) ++ flat_map names_of_child rest)%list
      in Hnodup, Hfresh.
    apply NoDup_app in Hnodup as (Hhead & Hdisj & Hrest).
    apply Hgen in H1 as (names1 & Hadds1 & Hperm1); [|done|done|].
    2: { intros n Hn. apply Hfresh. apply elem_of_app. by left. }
    apply IH in H2 as (names2 & Hadds2 & Hperm2); [|done|done|].
    2: { intros n Hn. destruct Hadds1 as (_ & -> & _).
         intros [Hin|Hin]%elem_of_union.
         - apply (Hfresh n); [|done]. apply elem_of_app. by right.
         - apply elem_of_list_to_set in Hin. rewrite Hperm1 in Hin.
           by apply (Hdisj n). }
    exists (names1 ++ names2)%list. split; [by eapply adds_trans|].
    change (flat_map names_of_child ((name, t) :: rest))
      with (names_of_child (name, t) ++ flat_map names_of_child rest)%list.
    by rewrite Hperm1, Hperm2.
Qed.

Lemma generateStructs_names (order : RangeOrder yema.Type_) (fuel : nat)
  (t : yema.Type_) (structName : string) (st st' : state) :
  structName <> "" ->
  NoDup (record_names structName (yema.TStruct t)) ->
  (forall n, n ∈ record_names structName (yema.TStruct t) ->
             n ∉ generatedStructs st) ->
  generateStructs order fuel t structName st = Ok st' ->
  exists names,
    adds st st' names /\ names ≡ₚ record_names structName (yema.TStruct t).
Proof.
  revert t structName st st'.
  induction fuel as [|fuel IH]; intros t structName st st' Hname Hnodup Hfresh;
    simpl; [done|].
  destruct (negb _); [done|].
  rewrite bool_decide_eq_false_2 by (apply Hfresh; left).
  destruct (yema.TStruct t) as [fields|] eqn:Hfields; [|done].
  destruct (emitFields fields structName _ []) as [[st1 nested]| | |] eqn:Hemit;
    try done.
  intros Hnested.
  unfold record_names in Hnodup, Hfresh. rewrite children_names in Hnodup, Hfresh.
  apply NoDup_cons in Hnodup as [Hhead Hnodup].
  pose proof Hemit as Hstate.
  apply emitFields_state in Hstate as (Hvis1 & lines & Hbuf1 & Hlines).
  simpl in Hvis1, Hbuf1.
  apply emitFields_children in Hemit; [|done|by apply NoDup_child_keys].
  simpl in Hemit. subst nested.
  pose proof (range_of_perm order (children structName fields)) as Hperm.
  assert (Hflat : flat_map names_of_child (order (children structName fields))
                  ≡ₚ flat_map names_of_child (children structName fields))
    by (by apply Permutation_flat_map).
  apply generateNested_names in Hnested as (names & Hadds & Hnames).
  - exists (structName :: names). split.
    + change (structName :: names) with ([structName] ++ names)%list.
      eapply adds_trans; [|exact Hadds].
      repeat split.
      * exists ([DocComment structName; TypeOpen structName] ++ lines ++ [TypeClose])%list.
        simpl. rewrite Hbuf1, <- !app_assoc. split; [done|].
        simpl. rewrite declared_app, Hlines. done.
      * simpl. rewrite Hvis1. set_solver.
      * apply NoDup_singleton.
      * intros n ->%list_elem_of_singleton. apply Hfresh. left.
    + unfold record_names. rewrite children_names. constructor.
      by rewrite Hnames.
  - intros t' name' st0 st0' ? ? ? H. by apply IH in H.
  - rewrite Hperm. by apply children_nonempty.
  - by rewrite Hflat.
  - intros n Hn. simpl. rewrite Hvis1. rewrite Hflat in Hn.
    intros [Heq%elem_of_singleton|Hin]%elem_of_union.
    + subst n. by apply Hhead.
    + apply (Hfresh n); [by right|done].
Qed.

(** When no two records of the schema have the same name, a run that
    returns has declared exactly the records of the schema. *)
Lemma ToGolang_names (order : RangeOrder yema.Type_) (t : yema.Type_)
  (opts : Options) (b : list chunk) :
  NoDup (record_names (root_name opts) (yema.TStruct t)) ->
  ToGolang order (Some t) opts = Ok b ->
  declared b ≡ₚ record_names (root_name opts) (yema.TStruct t).
Proof.
  intros Hnodup. unfold ToGolang.
  destruct (negb _); [done|]. cbv zeta. fold (root_name opts).
  destruct (generateStructs order _ t _ _) as [st'| | |] eqn:Hwalk; try done.
  intros [= <-].
  apply generateStructs_names in Hwalk
    as (names & ((new & Hbuf & Hnew) & _) & Hperm); [| |done|].
  - rewrite Hbuf, declared_app, Hnew. done.
  - unfold root_name. destruct (String.eqb_spec (RootType opts) ""); done.
  - intros n _. simpl. set_solver.
Qed.

End golang_facts.

(** ** The TypeScript walk declares what the Go walk declares *)

Module typescript_facts.

Import typescript_spec.

Lemma camel_same (s : string) (nextUpper : bool) :
  typescript.camel s nextUpper = golang.camel s nextUpper.
Proof.
  revert nextUpper. induction s as [|c s IH]; intros nextUpper; simpl; [done|].
  unfold golang.is_separator. by rewrite !IH.
Qed.

Lemma typeToTypeScriptType_same (t : yema.Type_) (parentName fieldName : string) :
  same_outcome (fun ts go => ts.2 = go.2)
    (typescript.typeToTypeScriptType t parentName fieldName)
    (golang.typeToGoType t parentName fieldName).
Proof.
  induction t as [k o s a _ IHa] using golang_facts.Type_ind'.
  destruct k; simpl; try done.
  destruct a as [e|]; [|done].
  destruct (typescript.typeToTypeScriptType e parentName fieldName) as [[ty1 n1]| | |],
           (golang.typeToGoType e parentName fieldName) as [[ty2 n2]| | |];
    simpl in *; done.
Qed.

Lemma related_write (ts : typescript.state) (go : golang.state)
  (c1 : typescript.chunk) (c2 : golang.chunk) :
  typescript.declared [c1] = golang.declared [c2] ->
  related ts go ->
  related (typescript.write c1 ts) (golang.write c2 go).
Proof.
  intros Hc [Hvis Hdecl]. split; [done|]. simpl.
  unfold typescript.declared, golang.declared in *.
  by rewrite !omap_app, Hdecl, Hc.
Qed.

Lemma emitFields_same (fields : gomap yema.Type_) (name : string)
  (ts : typescript.state) (go : golang.state) (acc : gomap yema.Type_) :
  related ts go ->
  same_outcome (fun a b => related a.1 b.1 /\ a.2 = b.2)
    (typescript.emitFields fields name ts acc)
    (golang.emitFields fields name go acc).
Proof.
  revert ts go acc.
  induction fields as [|[f t] fields IH]; intros ts go acc Hrel; simpl; [done|].
  pose proof (typeToTypeScriptType_same t name f) as Hty.
  destruct (typescript.typeToTypeScriptType t name f) as [[ty1 n1]| | |],
           (golang.typeToGoType t name f) as [[ty2 n2]| | |];
    simpl in Hty; try done.
  subst n2.
  destruct (negb (String.eqb n1 "") && bool_decide (yema.TKind t = yema.Struct)).
  { apply IH. by apply related_write. }
  destruct (negb (String.eqb n1 "") && bool_decide (yema.TKind t = yema.Array)).
  2: { apply IH. by apply related_write. }
  destruct (yema.TArray t) as [elem|]; [|done].
  destruct (bool_decide (yema.TKind elem = yema.Struct));
    apply IH; by apply related_write.
Qed.

Lemma generateNested_same
  (gen1 : yema.Type_ -> string -> typescript.state -> golang.outcome typescript.state)
  (gen2 : yema.Type_ -> string -> golang.state -> golang.outcome golang.state)
  (nested : list (string * yema.Type_)) (ts : typescript.state) (go : golang.state) :
  (forall t name ts go,
     related ts go -> same_outcome related (gen1 t name ts) (gen2 t name go)) ->
  related ts go ->
  same_outcome related
    (typescript.generateNested gen1 nested ts)
    (golang.generateNested gen2 nested go).
Proof.
  intros Hgen. revert ts go.
  induction nested as [|[name t] rest IH]; intros ts go Hrel; simpl; [done|].
  specialize (Hgen t name ts go Hrel).
  destruct (gen1 t name ts), (gen2 t name go); simpl in Hgen; try done.
  by apply IH.
Qed.

Lemma generateInterfaces_same (order : RangeOrder yema.Type_) (fuel : nat)
  (t : yema.Type_) (name : string) (ts : typescript.state) (go : golang.state)
  (opts : typescript.Options) :
  related ts go ->
  same_outcome related
    (typescript.generateInterfaces order fuel t name ts opts)
    (golang.generateStructs order fuel t name go).
Proof.
  revert t name ts go.
  induction fuel as [|fuel IH]; intros t name ts go Hrel; simpl; [done|].
  destruct (negb _); [done|].
  destruct Hrel as [Hvis Hdecl]. rewrite Hvis.
  case_bool_decide; [done|].
  destruct (yema.TStruct t) as [fields|]; [|done].
  match goal with
  | |- same_outcome _
         match typescript.emitFields _ _ ?ts1 _ with _ => _ end
         match golang.emitFields _ _ ?go1 _ with _ => _ end =>
      assert (Hrel1 : related ts1 go1)
  end.
  { destruct (typescript.UseInterfaces opts);
      (apply related_write; [done|]); (apply related_write; [done|]);
      split; simpl; by rewrite ?Hvis. }
  pose proof (emitFields_same fields name _ _ [] Hrel1) as Hemit.
  destruct (typescript.emitFields fields name _ []) as [[ts2 n1]| | |],
           (golang.emitFields fields name _ []) as [[go2 n2]| | |];
    simpl in Hemit; try done.
  destruct Hemit as [Hrel2 ->].
  apply generateNested_same; [by intros; apply IH|].
  destruct (typescript.UseInterfaces opts); by apply related_write.
Qed.

(** With the same root name the two generators end the same way and
    declare the same names in the same order. *)
Lemma ToTypeScript_same (order : RangeOrder yema.Type_) (t : option yema.Type_)
  (opts : typescript.Options) (package : string) :
  same_outcome (fun ts go => typescript.declared ts = golang.declared go)
    (typescript.ToTypeScript order t opts)
    (golang.ToGolang order t (golang.mkOptions package (typescript.RootType opts))).
Proof.
  destruct t as [t|]; [|done].
  unfold typescript.ToTypeScript, golang.ToGolang.
  destruct (negb (bool_decide _)); [done|].
  cbv zeta. cbn [typescript.Namespace typescript.RootType golang.RootType].
  destruct (String.eqb (typescript.Namespace opts) ""); cbn [negb].
  all: match goal with
       | |- same_outcome _
              match typescript.generateInterfaces _ _ _ _ ?ts ?o with _ => _ end
              match golang.generateStructs _ _ _ _ ?go with _ => _ end =>
           assert (Hrel : related ts go) by done;
           pose proof (generateInterfaces_same order (yema.depth t) t
                         (if String.eqb (typescript.RootType opts) "" then "Root"
                          else typescript.RootType opts) ts go o Hrel) as Hsame
       end.
  all: destruct (typescript.generateInterfaces _ _ _ _ _ _) as [ts'| | |],
                (golang.generateStructs _ _ _ _ _) as [go'| | |];
         simpl in Hsame; try done.
  all: destruct Hsame as [_ Hdecl]; simpl; [done || idtac].
  unfold typescript.declared in *. by rewrite omap_app, Hdecl, app_nil_r.
Qed.

(** What the Go walk guarantees of the declared names carries over. *)
Lemma ToTypeScript_declared (order : RangeOrder yema.Type_) (t : option yema.Type_)
  (opts : typescript.Options) (b : list typescript.chunk) :
  typescript.ToTypeScript order t opts = golang.Ok b ->
  exists b',
    golang.ToGolang order t (golang.mkOptions "" (typescript.RootType opts))
    = golang.Ok b' /\
    typescript.declared b = golang.declared b'.
Proof.
  intros H. pose proof (ToTypeScript_same order t opts "") as Hsame.
  rewrite H in Hsame.
  destruct (golang.ToGolang order t _) as [b'| | |]; simpl in Hsame; try done.
  by exists b'.
Qed.

Lemma ToTypeScript_distinct (order : RangeOrder yema.Type_) (t : option yema.Type_)
  (opts : typescript.Options) (b : list typescript.chunk) :
  typescript.ToTypeScript order t opts = golang.Ok b ->
  NoDup (typescript.declared b).
Proof.
  intros (b' & Hgo & ->)%ToTypeScript_declared.
  by eapply golang_facts.ToGolang_distinct.
Qed.

Lemma ToTypeScript_root_first (order : RangeOrder yema.Type_)
  (t : option yema.Type_) (opts : typescript.Options) (b : list typescript.chunk) :
  typescript.ToTypeScript order t opts = golang.Ok b ->
  exists rest,
    typescript.declared b
    = (if String.eqb (typescript.RootType opts) "" then "Root"
       else typescript.RootType opts) :: rest.
Proof.
  intros (b' & Hgo & ->)%ToTypeScript_declared.
  by apply golang_facts.ToGolang_root_first in Hgo.
Qed.

Lemma ToTypeScript_returns (order : RangeOrder yema.Type_) (t : option yema.Type_)
  (opts : typescript.Options) :
  typescript.ToTypeScript order t opts <> golang.OutOfFuel.
Proof.
  intros H. pose proof (ToTypeScript_same order t opts "") as Hsame.
  rewrite H in Hsame.
  pose proof (golang_facts.ToGolang_returns order t
                (golang.mkOptions "" (typescript.RootType opts))).
  by destruct (golang.ToGolang order t _).
Qed.

(** The two generators declare the same names, whatever the outcome. *)
Lemma declared_names_same (order : RangeOrder yema.Type_) (t : option yema.Type_)
  (opts : typescript.Options) (package : string) :
  typescript_spec.declared_names (typescript.ToTypeScript order t opts)
  = golang_spec.declared_names
      (golang.ToGolang order t (golang.mkOptions package (typescript.RootType opts))).
Proof.
  pose proof (ToTypeScript_same order t opts package) as Hsame.
  destruct (typescript.ToTypeScript order t opts),
           (golang.ToGolang order t _); simpl in *; done.
Qed.

Lemma typeToTypeScriptType_nested (t : yema.Type_)
  (parentName fieldName tsType nested : string) :
  typescript.typeToTypeScriptType t parentName fieldName = golang.Ok (tsType, nested) ->
  yema.TKind t = yema.Struct \/
  yema.TKind t = yema.Array /\
  (exists elem, yema.TArray t = Some elem /\ yema.TKind elem = yema.Struct) ->
  nested = parentName ++ typescript.toCamelCase fieldName.
Proof.
  destruct t as [k o s a]; simpl.
  intros Hty [->|(-> & elem & -> & Helem)].
  - by injection Hty as _ <-.
  - destruct elem as [k' o' s' a']; simpl in *; subst k'.
    by injection Hty as _ <-.
Qed.

Lemma ToTypeScript_names (order : RangeOrder yema.Type_) (t : yema.Type_)
  (opts : typescript.Options) (b : list typescript.chunk) :
  NoDup (golang_spec.record_names
           (golang_spec.root_name (golang.mkOptions "" (typescript.RootType opts)))
           (yema.TStruct t)) ->
  typescript.ToTypeScript order (Some t) opts = golang.Ok b ->
  typescript.declared b
  ≡ₚ golang_spec.record_names
       (golang_spec.root_name (golang.mkOptions "" (typescript.RootType opts)))
       (yema.TStruct t).
Proof.
  intros Hnodup (b' & Hgo & ->)%ToTypeScript_declared.
  by apply golang_facts.ToGolang_names in Hgo.
Qed.

End typescript_facts.

(** The walk over [addresses_schema], whatever the order of its two fields
    and of the range over the nested structs: it declares the root and one
    [R ++ "Addresses"], the second request for that name being skipped. *)
Lemma addresses_walk (order : RangeOrder yema.Type_) (R : string)
  (street_first : bool) (st : golang.state) :
  golang.generatedStructs st = ∅ ->
  exists st',
    golang.generateStructs order (yema.depth (addresses_schema street_first))
      (addresses_schema street_first) R st = golang.Ok st' /\
    golang.declared (golang.buf st')
    = (golang.declared (golang.buf st) ++ [R; (R ++ "Addresses")%string])%list.
Proof.
  intros Hempty.
  assert (yema.depth (addresses_schema street_first) = 4%nat) as ->
    by (by destruct street_first).
  destruct street_first.
  all: eexists; split;
    [ erewrite (golang_facts.generateStructs_fresh order 3 _ R);
        [|done|rewrite Hempty; set_solver|done
         |cbn; rewrite golang_facts.append_not_empty; cbn; reflexivity];
      rewrite golang_facts.range_of_singleton; cbn [golang.generateNested];
      erewrite (golang_facts.generateStructs_fresh order 2);
        [|done
         |cbn; rewrite Hempty;
          pose proof (golang_facts.append_not_self R "A" "ddresses"); set_solver
         |done|cbn; reflexivity];
      rewrite golang_facts.range_of_nil; cbn [golang.generateNested]; reflexivity
    | cbn; rewrite !golang_facts.declared_app; cbn;
      rewrite <- ?app_assoc; reflexivity ].
Qed.

(** ** Schemas and the builder *)

Module schema_facts.

Import schema_spec parser_spec.

(** Induction on a dynamic value, through its slices and maps. *)
Lemma value_ind' (P : value -> Prop) :
  P VNil -> (forall b, P (VBool b)) -> (forall s, P (VString s)) ->
  (forall b, P (VBytes b)) -> (forall v, P (VNumber v)) ->
  (forall v, P (VInt v)) -> (forall v, P (VInt8 v)) -> (forall v, P (VInt16 v)) ->
  (forall v, P (VInt32 v)) -> (forall v, P (VInt64 v)) ->
  (forall v, P (VUint v)) -> (forall v, P (VUint8 v)) -> (forall v, P (VUint16 v)) ->
  (forall v, P (VUint32 v)) -> (forall v, P (VUint64 v)) ->
  (forall v, P (VFloat32 v)) -> (forall v, P (VFloat64 v)) ->
  (forall arr, Forall P arr -> P (VSlice arr)) ->
  (forall m, Forall (fun kv => P kv.2) m -> P (VMap m)) ->
  P VOther ->
  forall v, P v.
Proof.
  intros HNil HBool HString HBytes HNumber HInt HInt8 HInt16 HInt32 HInt64
    HUint HUint8 HUint16 HUint32 HUint64 HFloat32 HFloat64 HSlice HMap HOther.
  fix IH 1. intros [ | | | | | | | | | | | | | | | | |arr|m| ];
    [apply HNil|apply HBool|apply HString|apply HBytes|apply HNumber
    |apply HInt|apply HInt8|apply HInt16|apply HInt32|apply HInt64
    |apply HUint|apply HUint8|apply HUint16|apply HUint32|apply HUint64
    |apply HFloat32|apply HFloat64| | |apply HOther].
  - apply HSlice.
    induction arr as [|v arr IHarr]; constructor; [apply IH|apply IHarr].
  - apply HMap.
    induction m as [|[k v] m IHm]; constructor; [apply IH|apply IHm].
Qed.

Lemma canonical_complete (t : yema.Type_) :
  canonical t = true -> complete t = true.
Proof.
  induction t as [k o s a IHs IHa] using golang_facts.Type_ind'.
  destruct k; simpl; try done.
  - destruct a as [e|]; [|done]. destruct s; [done|].
    intros [_ H]%andb_prop. by apply IHa.
  - destruct s as [fs|]; [|done]. destruct a; [done|].
    intros [H _]%andb_prop. rewrite forallb_forall in H.
    apply forallb_forall. intros kt Hin.
    rewrite Forall_forall in IHs. apply IHs; [by apply list_elem_of_In|].
    by apply H, andb_prop in Hin as [_ ?].
Qed.

Lemma map_set_NoDup {V : Type} (m : gomap V) (k : string) (v : V) :
  NoDup (map_keys m) -> NoDup (map_keys (map_set m k v)).
Proof.
  induction m as [|[k' v'] m IH]; simpl.
  - intros _. apply NoDup_singleton.
  - rewrite NoDup_cons. intros [Hk' Hm].
    destruct (String.eqb_spec k k') as [->|Hne]; simpl.
    + by apply NoDup_cons.
    + apply NoDup_cons. split; [|by apply IH].
      intros Hin. apply list_elem_of_In, golang_facts.map_set_keys in Hin as [?|Hin];
        [done|]. by apply Hk', list_elem_of_In.
Qed.

Lemma map_set_Forall_key {V : Type} (P : string * V -> Prop) (m : gomap V)
  (k : string) (v : V) :
  Forall P m -> P (k, v) -> Forall P (map_set m k v).
Proof.
  intros Hm Hkv. induction Hm as [|[k' v'] m Hx Hm IH]; simpl.
  - by constructor.
  - destruct (String.eqb_spec k k') as [->|Hne]; by constructor.
Qed.

Lemma map_get_set {V : Type} (m : gomap V) (k k' : string) (v : V) :
  map_get (map_set m k v) k' = if String.eqb k' k then Some v else map_get m k'.
Proof.
  induction m as [|[k0 v0] m IH]; simpl.
  - done.
  - destruct (String.eqb_spec k k0) as [->|Hne]; simpl.
    + by destruct (String.eqb_spec k' k0).
    + rewrite IH. destruct (String.eqb_spec k' k0) as [->|?]; [|done].
      by destruct (String.eqb_spec k0 k).
Qed.

Lemma map_keys_set {V : Type} (m : gomap V) (k : string) (v : V) (k' : string) :
  k' ∈ map_keys (map_set m k v) <-> k' = k \/ k' ∈ map_keys m.
Proof.
  induction m as [|[k0 v0] m IH]; simpl.
  - rewrite list_elem_of_singleton. set_solver.
  - destruct (String.eqb_spec k k0) as [->|Hne]; simpl.
    + set_solver.
    + rewrite !elem_of_cons, IH. tauto.
Qed.

(** What the loop over the entries of a raw map builds, from an
    accumulator that is canonical already. *)
Lemma parse_fields_canonical (isOptional : bool) (v : gomap value)
  (acc : gomap yema.Type_) (t : yema.Type_) :
  Forall (fun kv => forall fieldName isOptional t,
            parser.parseValueToType fieldName kv.2 isOptional = parser.Ok t ->
            canonical t = true) v ->
  forallb (fun kt => parser.isValidFieldName kt.1 && canonical kt.2) acc = true ->
  NoDup (map_keys acc) ->
  parse_fields isOptional v acc = parser.Ok t ->
  canonical t = true.
Proof.
  revert acc. induction v as [|[k val] rest IH]; intros acc Hv Hacc Hnodup; simpl.
  - intros [= <-]. simpl. rewrite Hacc. by rewrite bool_decide_eq_true_2.
  - apply Forall_cons in Hv as [Hval Hrest].
    destruct (parser.isValidFieldName (field_of_key k)) eqn:Hname; [|done]. simpl.
    destruct (parser.parseValueToType _ val _) as [ft|] eqn:Hparse; [|done].
    apply IH; [done| |by apply map_set_NoDup].
    apply forallb_forall. intros kt Hin.
    assert (Forall (fun kt => parser.isValidFieldName kt.1 && canonical kt.2 = true)
              (map_set acc (field_of_key k) ft)) as Hall.
    { apply map_set_Forall_key.
      - apply Forall_forall. intros x Hx. rewrite forallb_forall in Hacc.
        by apply Hacc, list_elem_of_In.
      - simpl. by rewrite Hname, (Hval _ _ _ Hparse). }
    rewrite Forall_forall in Hall. by apply Hall, list_elem_of_In.
Qed.

Lemma parseValueToType_canonical (v : value) :
  forall fieldName isOptional t,
    parser.parseValueToType fieldName v isOptional = parser.Ok t ->
    canonical t = true.
Proof.
  induction v using value_ind'; intros fieldName isOptional t; try done.
  - simpl. destruct (parser.kind_of_name s) as [k|] eqn:Hk; [|done].
    intros [= <-]. unfold parser.kind_of_name in Hk.
    repeat (destruct (String.eqb s _); [by injection Hk as <-|]). done.
  - destruct arr as [|item [|]]; try done. simpl.
    destruct (parser.parseValueToType fieldName item false) as [it|] eqn:Hit; [|done].
    intros [= <-]. simpl.
    apply Forall_cons in H as [Hitem _].
    rewrite (Hitem _ _ _ Hit).
    by rewrite (parser_facts.parseValueToType_optional _ _ _ _ Hit).
  - rewrite parser_facts.parseValueToType_map. intros Hp.
    apply (parse_fields_canonical isOptional m [] t);
      [exact H|reflexivity|apply NoDup_nil_2|exact Hp].
Qed.

Lemma From_canonical (schema : gomap value) (t : yema.Type_) :
  parser.From schema = parser.Ok t ->
  canonical t = true /\ yema.TKind t = yema.Struct /\ yema.Optional t = false.
Proof.
  rewrite parser_facts.From_fields. intros H. split.
  - apply (parse_fields_canonical false schema [] t);
      [|reflexivity|apply NoDup_nil_2|done].
    apply Forall_forall. intros kv _. apply parseValueToType_canonical.
  - by apply parser_facts.parse_fields_optional in H as [? ?].
Qed.

Lemma From_complete (schema : gomap value) (t : yema.Type_) :
  parser.From schema = parser.Ok t ->
  complete t = true /\ yema.TKind t = yema.Struct.
Proof.
  intros (? & ? & _)%From_canonical. split; [|done]. by apply canonical_complete.
Qed.

(** The loop succeeds exactly on entries that denote fields. *)
Lemma parse_fields_accepts (isOptional : bool) (v : gomap value)
  (acc : gomap yema.Type_) :
  Forall (fun kv => forall fieldName isOptional,
            (exists t, parser.parseValueToType fieldName kv.2 isOptional = parser.Ok t)
            <-> type_expr kv.2 = true) v ->
  (exists t, parse_fields isOptional v acc = parser.Ok t) <-> field_exprs v = true.
Proof.
  revert acc. induction v as [|[k val] rest IH]; intros acc Hv; simpl.
  - split; [done|]. by eexists.
  - apply Forall_cons in Hv as [Hval Hrest]. simpl in Hval.
    destruct (parser.isValidFieldName (field_of_key k)) eqn:Hname; simpl.
    + destruct (parser.parseValueToType _ val _) as [ft|e] eqn:Hparse.
      * assert (type_expr val = true) as Hexpr
          by (eapply (proj1 (Hval _ _)); by eexists).
        rewrite Hexpr. simpl. by apply IH.
      * assert (type_expr val = false) as Hexpr.
        { apply not_true_is_false. intros Ht.
          apply (proj2 (Hval (field_of_key k) (parser.has_question_suffix k))) in Ht
            as [t Ht].
          by rewrite Hparse in Ht. }
        rewrite Hexpr. simpl. split; [|done]. by intros [? ?].
    + split; [|done]. by intros [? ?].
Qed.

Lemma parseValueToType_accepts (v : value) :
  forall fieldName isOptional,
    (exists t, parser.parseValueToType fieldName v isOptional = parser.Ok t)
    <-> type_expr v = true.
Proof.
  induction v using value_ind'; intros fieldName isOptional;
    try (split; [by intros [? ?]|done]).
  - simpl. destruct (parser.kind_of_name s) as [k|].
    + rewrite bool_decide_eq_true_2 by done. split; [done|]. by eexists.
    + rewrite bool_decide_eq_false_2 by (by intros [? ?]).
      split; [by intros [? ?]|done].
  - destruct arr as [|item [|]]; try (split; [by intros [? ?]|done]).
    apply Forall_cons in H as [Hitem _]. simpl.
    rewrite <- (Hitem fieldName false).
    destruct (parser.parseValueToType fieldName item false) as [it|e].
    + split; by eexists.
    + split; by intros [? ?].
  - rewrite parser_facts.parseValueToType_map.
    by apply parse_fields_accepts.
Qed.

(** The fields a loop has built: their names are those of the accumulator
    and the stripped keys, and the entry of a name is the one parsed from
    the last key that strips to it. *)
Lemma parse_fields_keys (isOptional : bool) (v : gomap value)
  (acc : gomap yema.Type_) (t : yema.Type_) :
  parse_fields isOptional v acc = parser.Ok t ->
  exists fields,
    yema.TStruct t = Some fields /\
    (forall f, f ∈ map_keys fields <->
               f ∈ map_keys acc \/ exists k, k ∈ map_keys v /\ field_of_key k = f) /\
    (forall f, (forall k, k ∈ map_keys v -> field_of_key k <> f) ->
               map_get fields f = map_get acc f) /\
    (forall pre k val post,
       v = (pre ++ (k, val) :: post)%list ->
       (forall k', k' ∈ map_keys post -> field_of_key k' <> field_of_key k) ->
       exists ft,
         parser.parseValueToType (field_of_key k) val (parser.has_question_suffix k)
         = parser.Ok ft /\
         map_get fields (field_of_key k) = Some ft).
Proof.
  revert acc. induction v as [|[k val] rest IH]; intros acc; simpl.
  - intros [= <-]. exists acc. split; [done|]. split; [|split].
    + intros f. split; [by left|]. intros [?|(k & Hk & _)]; [done|].
      by apply elem_of_nil in Hk.
    + done.
    + intros pre k val post Heq. by destruct pre.
  - destruct (parser.isValidFieldName (field_of_key k)); [|done]. simpl.
    destruct (parser.parseValueToType _ val _) as [ft|] eqn:Hparse; [|done].
    intros (fields & Hfields & Hkeys & Hkeep & Hlast)%IH.
    exists fields. split; [done|]. split; [|split].
    + intros f. rewrite Hkeys, map_keys_set. split.
      * intros [[->|?]|(k' & Hk' & <-)]; [right|by left|right].
        -- exists k. split; [apply list_elem_of_here|done].
        -- exists k'. split; [by apply list_elem_of_further|done].
      * intros [?|(k' & Hk' & <-)]; [left; by right|].
        apply elem_of_cons in Hk' as [->|Hk']; [left; by left|].
        right. by exists k'.
    + intros f Hf. rewrite Hkeep.
      * rewrite map_get_set. destruct (String.eqb_spec f (field_of_key k)) as [->|]; [|done].
        exfalso. by apply (Hf k); [apply list_elem_of_here|].
      * intros k' Hk'. apply Hf. by apply list_elem_of_further.
    + intros pre k0 val0 post Heq Hpost. destruct pre as [|[k1 v1] pre]; simpl in Heq.
      * injection Heq as <- <- <-. exists ft. split; [done|].
        rewrite Hkeep by done. rewrite map_get_set.
        by rewrite String.eqb_refl.
      * injection Heq as <- <- ->. by apply (Hlast pre k0 val0 post).
Qed.

Lemma append_assoc (a b c : string) : (a ++ b) ++ c = a ++ (b ++ c).
Proof.
  induction a as [|x a IH]; [done|].
  change (String x ((a ++ b) ++ c) = String x (a ++ (b ++ c))). by rewrite IH.
Qed.

Lemma has_question_suffix_app (s : string) :
  parser.has_question_suffix (s ++ "?") = true.
Proof.
  induction s as [|c s IH]; [done|]. simpl.
  destruct (s ++ "?") eqn:Heq; [by destruct s|]. done.
Qed.

Lemma drop_last_app (s : string) (c : ascii) :
  parser.drop_last (s ++ String c "") = s.
Proof.
  induction s as [|c' s IH]; [done|]. simpl.
  destruct (s ++ String c "") eqn:Heq; [by destruct s|].
  by rewrite IH.
Qed.

Lemma field_of_key_question (s : string) : field_of_key (s ++ "?") = s.
Proof. unfold field_of_key. by rewrite has_question_suffix_app, drop_last_app. Qed.

Lemma all_runes_app (p : ascii -> bool) (s1 s2 : string) :
  parser.all_runes p (s1 ++ s2) = parser.all_runes p s1 && parser.all_runes p s2.
Proof.
  induction s1 as [|c s1 IH]; [done|]. simpl. by rewrite IH, andb_assoc.
Qed.

(** No field name has a question mark in it. *)
Lemma isValidFieldName_question (s1 s2 : string) :
  parser.isValidFieldName (s1 ++ String "?" s2) = false.
Proof.
  destruct s1 as [|c s1]; [done|]. simpl.
  destruct (negb _); [done|].
  rewrite all_runes_app. simpl. apply andb_false_r.
Qed.

End schema_facts.

(** ** More on the validator *)

Module validator_more.

Import validator validator_spec error_spec.

Section Facts.

Context (platform : Platform).

(** The checks read the data only through the fields of the schema. *)
Lemma field_violations_ext (data data' : gomap value) (fields : gomap yema.Type_) :
  (forall f, f ∈ map_keys fields -> map_get data f = map_get data' f) ->
  flat_map (field_violations platform data) fields
  = flat_map (field_violations platform data') fields.
Proof.
  induction fields as [|[f t] fields IH]; intros H; simpl; [done|].
  rewrite IH.
  - unfold field_violations. simpl. rewrite (H f); [done|]. apply list_elem_of_here.
  - intros f' Hf'. apply H. by apply list_elem_of_further.
Qed.

Lemma first_field_error_ext (m m' : gomap value) (path : string)
  (fields : gomap yema.Type_) :
  (forall f, f ∈ map_keys fields -> map_get m f = map_get m' f) ->
  first_field_error platform m path fields
  = first_field_error platform m' path fields.
Proof.
  induction fields as [|[f t] fields IH]; intros H; simpl; [done|].
  rewrite IH.
  - unfold nested_field_check. simpl. rewrite (H f); [done|]. apply list_elem_of_here.
  - intros f' Hf'. apply H. by apply list_elem_of_further.
Qed.

(** Whether a scalar check accepts does not depend on the path. *)
Lemma validateIntValue_path (v : value) (k : yema.Kind) (p p' : string) :
  validateIntValue platform v k p = None ->
  validateIntValue platform v k p' = None.
Proof.
  unfold validateIntValue.
  destruct (match v with VNumber _ => _ | _ => _ end) as [intVal isInt].
  destruct isInt; [|done]. simpl.
  destruct k; try done; by destruct (_ || _).
Qed.

Lemma validateUintValue_path (v : value) (k : yema.Kind) (p p' : string) :
  validateUintValue platform v k p = None ->
  validateUintValue platform v k p' = None.
Proof.
  unfold validateUintValue.
  destruct (match v with VNumber _ => _ | _ => _ end) as [uintVal isUint].
  destruct isUint; [|done]. simpl.
  destruct k; try done; by destruct (_ >? _).
Qed.

Lemma validateFloatValue_path (v : value) (k : yema.Kind) (p p' : string) :
  validateFloatValue platform v k p = None ->
  validateFloatValue platform v k p' = None.
Proof.
  unfold validateFloatValue.
  destruct (match v with VNumber _ => _ | _ => _ end) as [floatVal isFloat].
  destruct isFloat; [|done]. simpl.
  destruct (decide _); [|done]. by destruct (_ || _).
Qed.

Lemma first_elem_error_path (elemType : yema.Type_) (p p' : string) (i : nat)
  (arr : list value) :
  (forall v q q', validateValue platform v elemType q = None ->
                  validateValue platform v elemType q' = None) ->
  first_elem_error platform elemType p i arr = None ->
  first_elem_error platform elemType p' i arr = None.
Proof.
  intros Helem. revert i. induction arr as [|v arr IH]; intros i; simpl; [done|].
  destruct (validateValue platform v elemType (p ++ _)) eqn:Hv; [done|].
  rewrite (Helem _ _ (p' ++ "[" ++ strconv_Itoa i ++ "]") Hv). apply IH.
Qed.

Lemma first_field_error_path (m : gomap value) (p p' : string)
  (fields : gomap yema.Type_) :
  Forall (fun kt => forall v q q',
            validateValue platform v kt.2 q = None ->
            validateValue platform v kt.2 q' = None) fields ->
  first_field_error platform m p fields = None ->
  first_field_error platform m p' fields = None.
Proof.
  induction 1 as [|[f t] fields Ht _ IH]; simpl; [done|].
  unfold nested_field_check. simpl in *.
  destruct (map_get m f) as [v|].
  - destruct (validateValue platform v t (p ++ _)) eqn:Hv; [done|].
    by rewrite (Ht _ _ (p' ++ "." ++ f) Hv).
  - by destruct (yema.Optional t).
Qed.

Lemma validateValue_path (schema : yema.Type_) :
  forall v p p',
    validateValue platform v schema p = None ->
    validateValue platform v schema p' = None.
Proof.
  induction schema as [k o s a IHs IHa] using golang_facts.Type_ind'.
  intros v p p'.
  assert (v = VNil \/ v <> VNil) as [->|Hv]
    by (destruct v; (by left) || (by right)).
  { simpl. by destruct o. }
  destruct k.
  - by destruct v.
  - by destruct v.
  - rewrite !(numeric_facts.validateValue_int_kind platform v) by done.
    apply validateIntValue_path.
  - rewrite !(numeric_facts.validateValue_int_kind platform v) by done.
    apply validateIntValue_path.
  - rewrite !(numeric_facts.validateValue_int_kind platform v) by done.
    apply validateIntValue_path.
  - rewrite !(numeric_facts.validateValue_int_kind platform v) by done.
    apply validateIntValue_path.
  - rewrite !(numeric_facts.validateValue_int_kind platform v) by done.
    apply validateIntValue_path.
  - rewrite !(numeric_facts.validateValue_uint_kind platform v) by done.
    apply validateUintValue_path.
  - rewrite !(numeric_facts.validateValue_uint_kind platform v) by done.
    apply validateUintValue_path.
  - rewrite !(numeric_facts.validateValue_uint_kind platform v) by done.
    apply validateUintValue_path.
  - rewrite !(numeric_facts.validateValue_uint_kind platform v) by done.
    apply validateUintValue_path.
  - rewrite !(numeric_facts.validateValue_uint_kind platform v) by done.
    apply validateUintValue_path.
  - destruct v; try done; apply validateFloatValue_path.
  - destruct v; try done; apply validateFloatValue_path.
  - destruct a as [e|]; [|by destruct v].
    destruct v; try done.
    rewrite !(validator_facts.validateValue_array platform _ e) by done.
    by apply first_elem_error_path.
  - destruct s as [fs|]; [|by destruct v].
    destruct v; try done.
    rewrite !(validator_facts.validateValue_struct platform _ fs) by done.
    by apply first_field_error_path.
  - by destruct v.
  - by destruct v.
Qed.

(** A record is valid at the top level exactly when it is valid as a
    nested record. *)
Lemma field_violations_nested (data : gomap value) (path : string)
  (fields : gomap yema.Type_) :
  flat_map (field_violations platform data) fields = [] <->
  first_field_error platform data path fields = None.
Proof.
  induction fields as [|[f t] fields IH]; simpl; [done|].
  unfold field_violations at 1, nested_field_check. simpl.
  destruct (map_get data f) as [v|].
  - destruct (validateValue platform v t f) eqn:Hv.
    + split; [done|].
      destruct (validateValue platform v t (path ++ _)) eqn:Hv'; [done|].
      by rewrite (validateValue_path _ _ _ f Hv') in Hv.
    + rewrite (validateValue_path _ _ _ (path ++ "." ++ f) Hv). apply IH.
  - destruct (yema.Optional t); [apply IH|done].
Qed.

(** The path of an error extends the path of the check. *)
Lemma validateIntValue_located (v : value) (k : yema.Kind) (p : string) (err : error) :
  validateIntValue platform v k p = Some err -> path_of err = Some p.
Proof.
  unfold validateIntValue.
  destruct (match v with VNumber _ => _ | _ => _ end) as [intVal isInt].
  destruct isInt; simpl; [|by intros [= <-]].
  destruct k; try done; destruct (_ || _); try done; by intros [= <-].
Qed.

Lemma validateUintValue_located (v : value) (k : yema.Kind) (p : string) (err : error) :
  validateUintValue platform v k p = Some err -> path_of err = Some p.
Proof.
  unfold validateUintValue.
  destruct (match v with VNumber _ => _ | _ => _ end) as [uintVal isUint].
  destruct isUint; simpl; [|by intros [= <-]].
  destruct k; try done; destruct (_ >? _); try done; by intros [= <-].
Qed.

Lemma validateFloatValue_located (v : value) (k : yema.Kind) (p : string) (err : error) :
  validateFloatValue platform v k p = Some err -> path_of err = Some p.
Proof.
  unfold validateFloatValue.
  destruct (match v with VNumber _ => _ | _ => _ end) as [floatVal isFloat].
  destruct isFloat; simpl; [|by intros [= <-]].
  destruct (decide _); [|done]. destruct (_ || _); [|done]. by intros [= <-].
Qed.

Lemma validateValue_located (schema : yema.Type_) :
  forall v p err,
    validateValue platform v schema p = Some err ->
    exists suffix, path_of err = Some (p ++ suffix).
Proof.
  assert (forall p, p = p ++ "") as Hnil.
  { intros p. induction p as [|c p IH]; [done|].
    change (String c p = String c (p ++ "")). by rewrite <- IH. }
  assert (forall (p : string) err, path_of err = Some p ->
            exists suffix, path_of err = Some (p ++ suffix)) as Hhere.
  { intros p err H. exists "". by rewrite <- Hnil. }
  induction schema as [k o s a IHs IHa] using golang_facts.Type_ind'.
  intros v p err.
  assert (v = VNil \/ v <> VNil) as [->|Hv]
    by (destruct v; (by left) || (by right)).
  { simpl. destruct o; [done|]. intros [= <-]. by apply Hhere. }
  destruct k.
  - destruct v; try done; intros [= <-]; by apply Hhere.
  - destruct v; try done; intros [= <-]; by apply Hhere.
  - rewrite (numeric_facts.validateValue_int_kind platform v) by done.
    intros H. by apply validateIntValue_located, Hhere in H.
  - rewrite (numeric_facts.validateValue_int_kind platform v) by done.
    intros H. by apply validateIntValue_located, Hhere in H.
  - rewrite (numeric_facts.validateValue_int_kind platform v) by done.
    intros H. by apply validateIntValue_located, Hhere in H.
  - rewrite (numeric_facts.validateValue_int_kind platform v) by done.
    intros H. by apply validateIntValue_located, Hhere in H.
  - rewrite (numeric_facts.validateValue_int_kind platform v) by done.
    intros H. by apply validateIntValue_located, Hhere in H.
  - rewrite (numeric_facts.validateValue_uint_kind platform v) by done.
    intros H. by apply validateUintValue_located, Hhere in H.
  - rewrite (numeric_facts.validateValue_uint_kind platform v) by done.
    intros H. by apply validateUintValue_located, Hhere in H.
  - rewrite (numeric_facts.validateValue_uint_kind platform v) by done.
    intros H. by apply validateUintValue_located, Hhere in H.
  - rewrite (numeric_facts.validateValue_uint_kind platform v) by done.
    intros H. by apply validateUintValue_located, Hhere in H.
  - rewrite (numeric_facts.validateValue_uint_kind platform v) by done.
    intros H. by apply validateUintValue_located, Hhere in H.
  - assert (validateValue platform v (yema.mkType yema.Float32 o s a) p
            = validateFloatValue platform v yema.Float32 p) as -> by (by destruct v).
    intros H. by apply validateFloatValue_located, Hhere in H.
  - assert (validateValue platform v (yema.mkType yema.Float64 o s a) p
            = validateFloatValue platform v yema.Float64 p) as -> by (by destruct v).
    intros H. by apply validateFloatValue_located, Hhere in H.
  - destruct a as [e|].
    2:{ destruct v; try done; intros [= <-]; by apply Hhere. }
    destruct v; try done; try (intros [= <-]; by apply Hhere).
    rewrite (validator_facts.validateValue_array platform _ e) by done.
    clear Hv. generalize O. induction arr as [|v arr IH]; intros i; simpl; [done|].
    destruct (validateValue platform v e _) as [err'|] eqn:Hv'; [|apply IH].
    intros [= <-]. apply IHa in Hv' as [suffix Hv'].
    exists ("[" ++ strconv_Itoa i ++ "]" ++ suffix).
    by rewrite Hv', !schema_facts.append_assoc.
  - destruct s as [fs|].
    2:{ destruct v; try done; intros [= <-]; by apply Hhere. }
    destruct v; try done; try (intros [= <-]; by apply Hhere).
    rewrite (validator_facts.validateValue_struct platform _ fs) by done.
    induction IHs as [|[f t] fs Ht _ IH]; simpl; [done|].
    unfold nested_field_check at 1. simpl.
    destruct (map_get m f) as [v|].
    + destruct (validateValue platform v t _) as [err'|] eqn:Hv'; [|apply IH].
      intros [= <-]. apply Ht in Hv' as [suffix Hv'].
      exists ("." ++ f ++ suffix).
      by rewrite Hv', !schema_facts.append_assoc.
    + destruct (yema.Optional t); [apply IH|].
      intros [= <-]. by exists ("." ++ f).
  - destruct v; try done; intros [= <-]; by apply Hhere.
  - destruct v; try done; intros [= <-]; by apply Hhere.
Qed.

(** A complete schema is never blamed. *)
Lemma validateValue_complete (schema : yema.Type_) :
  schema_spec.complete schema = true ->
  forall v p err,
    validateValue platform v schema p = Some err -> schema_fault err = false.
Proof.
  induction schema as [k o s a IHs IHa] using golang_facts.Type_ind'.
  intros Hc v p err.
  assert (v = VNil \/ v <> VNil) as [->|Hv]
    by (destruct v; (by left) || (by right)).
  { simpl. destruct o; [done|]. by intros [= <-]. }
  assert (forall e q, path_of e = Some q ->
            (exists q', e = MustBeInteger q' \/ e = MustBeNonNegativeInteger q' \/
                        e = MustBeNumber q' \/ exists kind, e = OutOfRange q' kind) ->
            schema_fault e = false) as Hdata.
  { intros e q _ (q' & [->|[->|[->|[kind ->]]]]); done. }
  destruct k.
  - done.
  - destruct v; try done; by intros [= <-].
  - rewrite (numeric_facts.validateValue_int_kind platform v) by done.
    unfold validateIntValue.
    destruct (match v with VNumber _ => _ | _ => _ end) as [intVal isInt].
    destruct isInt; simpl; by intros [= <-].
  - rewrite (numeric_facts.validateValue_int_kind platform v) by done.
    unfold validateIntValue.
    destruct (match v with VNumber _ => _ | _ => _ end) as [intVal isInt].
    destruct isInt; simpl; [|by intros [= <-]].
    destruct (_ || _); [|done]. by intros [= <-].
  - rewrite (numeric_facts.validateValue_int_kind platform v) by done.
    unfold validateIntValue.
    destruct (match v with VNumber _ => _ | _ => _ end) as [intVal isInt].
    destruct isInt; simpl; [|by intros [= <-]].
    destruct (_ || _); [|done]. by intros [= <-].
  - rewrite (numeric_facts.validateValue_int_kind platform v) by done.
    unfold validateIntValue.
    destruct (match v with VNumber _ => _ | _ => _ end) as [intVal isInt].
    destruct isInt; simpl; [|by intros [= <-]].
    destruct (_ || _); [|done]. by intros [= <-].
  - rewrite (numeric_facts.validateValue_int_kind platform v) by done.
    unfold validateIntValue.
    destruct (match v with VNumber _ => _ | _ => _ end) as [intVal isInt].
    destruct isInt; simpl; by intros [= <-].
  - rewrite (numeric_facts.validateValue_uint_kind platform v) by done.
    unfold validateUintValue.
    destruct (match v with VNumber _ => _ | _ => _ end) as [uintVal isUint].
    destruct isUint; simpl; by intros [= <-].
  - rewrite (numeric_facts.validateValue_uint_kind platform v) by done.
    unfold validateUintValue.
    destruct (match v with VNumber _ => _ | _ => _ end) as [uintVal isUint].
    destruct isUint; simpl; [|by intros [= <-]].
    destruct (_ >? _); [|done]. by intros [= <-].
  - rewrite (numeric_facts.validateValue_uint_kind platform v) by done.
    unfold validateUintValue.
    destruct (match v with VNumber _ => _ | _ => _ end) as [uintVal isUint].
    destruct isUint; simpl; [|by intros [= <-]].
    destruct (_ >? _); [|done]. by intros [= <-].
  - rewrite (numeric_facts.validateValue_uint_kind platform v) by done.
    unfold validateUintValue.
    destruct (match v with VNumber _ => _ | _ => _ end) as [uintVal isUint].
    destruct isUint; simpl; [|by intros [= <-]].
    destruct (_ >? _); [|done]. by intros [= <-].
  - rewrite (numeric_facts.validateValue_uint_kind platform v) by done.
    unfold validateUintValue.
    destruct (match v with VNumber _ => _ | _ => _ end) as [uintVal isUint].
    destruct isUint; simpl; by intros [= <-].
  - assert (validateValue platform v (yema.mkType yema.Float32 o s a) p
            = validateFloatValue platform v yema.Float32 p) as -> by (by destruct v).
    unfold validateFloatValue.
    destruct (match v with VNumber _ => _ | _ => _ end) as [floatVal isFloat].
    destruct isFloat; simpl; [|by intros [= <-]].
    destruct (_ || _); [|done]. by intros [= <-].
  - assert (validateValue platform v (yema.mkType yema.Float64 o s a) p
            = validateFloatValue platform v yema.Float64 p) as -> by (by destruct v).
    unfold validateFloatValue.
    destruct (match v with VNumber _ => _ | _ => _ end) as [floatVal isFloat].
    destruct isFloat; simpl; by intros [= <-].
  - simpl in Hc. destruct a as [e|]; [|done].
    destruct v; try done; try (by intros [= <-]).
    rewrite (validator_facts.validateValue_array platform _ e) by done.
    clear Hv. generalize O. induction arr as [|v arr IH]; intros i; simpl; [done|].
    destruct (validateValue platform v e _) as [err'|] eqn:Hv'; [|apply IH].
    intros [= <-]. by apply (IHa Hc) in Hv'.
  - simpl in Hc. destruct s as [fs|]; [|done].
    destruct v; try done; try (by intros [= <-]).
    rewrite (validator_facts.validateValue_struct platform _ fs) by done.
    induction IHs as [|[f t] fs Ht _ IH]; simpl; [done|].
    simpl in Hc. apply andb_prop in Hc as [Hct Hcfs].
    unfold nested_field_check at 1. simpl.
    destruct (map_get m f) as [v|].
    + destruct (validateValue platform v t _) as [err'|] eqn:Hv'; [|by apply IH].
      intros [= <-]. by apply (Ht Hct) in Hv'.
    + destruct (yema.Optional t); [by apply IH|]. by intros [= <-].
  - destruct v; try done; by intros [= <-].
  - destruct v; try done; by intros [= <-].
Qed.

End Facts.

(** No integer below 2^53 in magnitude is beyond the bound of [float32]. *)
Lemma float64_of_Z_in_float32 (z : Z) :
  - 2 ^ 53 < z < 2 ^ 53 ->
  SFltb float32_bound (float64_of_Z z) || SFltb (float64_of_Z z) (SFopp float32_bound)
  = false.
Proof.
  intros Hz. unfold float64_of_Z, binary_normalize. destruct z as [|m|m].
  - done.
  - destruct (numeric_facts.float64_of_positive false m) as (mz & ez & -> & Hez & _);
      [lia|].
    destruct ez as [|pe|pe]; [reflexivity|lia|reflexivity].
  - destruct (numeric_facts.float64_of_positive true m) as (mz & ez & -> & Hez & _);
      [lia|].
    destruct ez as [|pe|pe]; [reflexivity|lia|reflexivity].
Qed.

End validator_more.

(** ** More on the generators *)

Module generator_facts.

Import golang golang_spec generator_spec.

Lemma append_nil_r (s : string) : s ++ "" = s.
Proof.
  induction s as [|c s IH]; [done|].
  change (String c (s ++ "") = String c s). by rewrite IH.
Qed.

Lemma typeToGoType_complete (t : yema.Type_) (parentName fieldName : string) :
  schema_spec.complete t = true ->
  exists goType nested, typeToGoType t parentName fieldName = Ok (goType, nested).
Proof.
  induction t as [k o s a _ IHa] using golang_facts.Type_ind'.
  destruct k; simpl; try done; eauto.
  destruct a as [e|]; [|done]. intros He.
  destruct (IHa He) as (ty & n & ->). eauto.
Qed.

(** On complete fields the loop returns, and what it collects are
    complete records. *)
Lemma emitFields_complete (fields : gomap yema.Type_) (structName : string)
  (st : state) (acc : gomap yema.Type_) :
  forallb (fun kt => schema_spec.complete kt.2) fields = true ->
  Forall (fun kt => yema.TKind kt.2 = yema.Struct /\
                    schema_spec.complete kt.2 = true) acc ->
  exists st' nested,
    emitFields fields structName st acc = Ok (st', nested) /\
    Forall (fun kt => yema.TKind kt.2 = yema.Struct /\
                      schema_spec.complete kt.2 = true) nested.
Proof.
  revert st acc. induction fields as [|[f t] fields IH]; intros st acc Hc Hacc.
  - simpl. eauto.
  - simpl in Hc. apply andb_prop in Hc as [Ht Hfields].
    simpl. destruct (typeToGoType_complete t structName f Ht) as (ty & n & ->).
    destruct (negb (String.eqb n "")); simpl; [|by apply IH].
    destruct t as [k o s a]. simpl in *.
    destruct (bool_decide (k = yema.Struct)) eqn:Hstruct.
    { apply bool_decide_eq_true in Hstruct as ->. apply IH; [done|].
      apply golang_facts.map_set_Forall; [done|]. intros ?. simpl. by destruct s. }
    destruct (bool_decide (k = yema.Array)) eqn:Harray; [|by apply IH].
    apply bool_decide_eq_true in Harray as ->. simpl in Ht.
    destruct a as [e|]; [|done].
    destruct (bool_decide (yema.TKind e = yema.Struct)) eqn:He; [|by apply IH].
    apply bool_decide_eq_true in He. apply IH; [done|].
    apply golang_facts.map_set_Forall; [done|]. intros ?. simpl.
    destruct e as [ke oe se ae]. simpl in *. subst ke. simpl in Ht. by destruct se.
Qed.

(** On a complete record the walk returns, unless the fuel of the model
    runs out. *)
Lemma generateStructs_complete (order : RangeOrder yema.Type_) (fuel : nat) :
  forall t structName st,
    yema.TKind t = yema.Struct ->
    schema_spec.complete t = true ->
    (exists st', generateStructs order fuel t structName st = Ok st') \/
    generateStructs order fuel t structName st = OutOfFuel.
Proof.
  induction fuel as [|fuel IH]; intros t structName st Hk Hc; [by right|].
  simpl. rewrite Hk. simpl.
  case_bool_decide; [left; eauto|].
  destruct t as [k o s a]. simpl in *. subst k. simpl in Hc.
  destruct s as [fields|]; [|done].
  match goal with
  | |- context [emitFields fields structName ?st0 []] =>
      destruct (emitFields_complete fields structName st0 [] Hc (Forall_nil_2 _))
        as (st1 & nested & -> & Hnested)
  end.
  assert (Forall (fun kt => yema.TKind kt.2 = yema.Struct /\
                            schema_spec.complete kt.2 = true) (order nested))
    as Hordered by (by rewrite (range_of_perm order nested)).
  generalize (write TypeClose st1).
  induction Hordered as [|[name t'] rest [Hk' Hc'] _ IHrest]; intros st2; simpl.
  - left. eauto.
  - destruct (IH t' name st2 Hk' Hc') as [[st3 ->]| ->]; [apply IHrest|by right].
Qed.

Lemma ToGolang_complete (order : RangeOrder yema.Type_) (t : yema.Type_)
  (opts : Options) :
  yema.TKind t = yema.Struct ->
  schema_spec.complete t = true ->
  exists b, ToGolang order (Some t) opts = Ok b.
Proof.
  intros Hk Hc. pose proof (golang_facts.ToGolang_returns order (Some t) opts) as Hfuel.
  unfold ToGolang in *. rewrite Hk in *. simpl in *.
  match goal with
  | |- context [generateStructs order ?fuel t ?name ?st] =>
      destruct (generateStructs_complete order fuel t name st Hk Hc) as [[st' Hgen]|Hgen];
        rewrite Hgen in *
  end; [eauto|done].
Qed.

Lemma ToTypeScript_complete (order : RangeOrder yema.Type_) (t : yema.Type_)
  (opts : typescript.Options) :
  yema.TKind t = yema.Struct ->
  schema_spec.complete t = true ->
  exists b, typescript.ToTypeScript order (Some t) opts = Ok b.
Proof.
  intros Hk Hc.
  destruct (ToGolang_complete order t (mkOptions "" (typescript.RootType opts)) Hk Hc)
    as [b Hb].
  pose proof (typescript_facts.ToTypeScript_same order (Some t) opts "") as Hsame.
  rewrite Hb in Hsame.
  destruct (typescript.ToTypeScript order (Some t) opts); [eauto|done..].
Qed.

(** The lines the loop writes: one per field, in the order of the fields. *)
Lemma emitFields_lines (fields : gomap yema.Type_) (structName : string)
  (st st' : state) (acc nested : gomap yema.Type_) :
  emitFields fields structName st acc = Ok (st', nested) ->
  exists lines,
    buf st' = (buf st ++ lines)%list /\
    Forall2 (go_field_line structName) lines fields.
Proof.
  revert st acc. induction fields as [|[f t] fields IH]; intros st acc; simpl.
  - intros [= <- <-]. exists []. split; [by rewrite app_nil_r|constructor].
  - destruct (typeToGoType t structName f) as [[ty n]| | |] eqn:Hty; try done.
    intros H.
    assert (exists acc',
      emitFields fields structName
        (write (FieldLine (toCamelCase f) ty
                  (if yema.Optional t then f ++ ",omitempty" else f)) st) acc'
      = Ok (st', nested)) as [acc' Hstep].
    { repeat case_match; try done; eauto. }
    apply IH in Hstep as (lines & Hbuf & Hlines). simpl in Hbuf.
    eexists (_ :: lines). rewrite Hbuf, <- app_assoc. split; [reflexivity|].
    constructor; [|done]. by exists ty, n.
Qed.

(** The text of a run starts with the package clause and the root struct,
    which has one line per field. *)
Lemma ToGolang_root_block (order : RangeOrder yema.Type_) (t : yema.Type_)
  (opts : Options) (b : list chunk) (fields : gomap yema.Type_) :
  yema.TStruct t = Some fields ->
  ToGolang order (Some t) opts = Ok b ->
  exists lines rest,
    b = (PackageClause (if String.eqb (Package opts) "" then "generated"
                        else Package opts)
         :: DocComment (root_name opts) :: TypeOpen (root_name opts)
         :: lines ++ TypeClose :: rest)%list /\
    Forall2 (go_field_line (root_name opts)) lines fields.
Proof.
  intros Hfields. unfold ToGolang. fold (root_name opts).
  destruct (negb _) eqn:Hk; [done|].
  apply negb_false_iff, bool_decide_eq_true in Hk.
  destruct (yema.depth t) as [|fuel] eqn:Hdepth.
  { destruct t. by rewrite golang_facts.depth_unfold in Hdepth. }
  match goal with
  | |- context [generateStructs order (S fuel) t ?name ?st] =>
      destruct (generateStructs order (S fuel) t name st) as [st'| | |] eqn:Hgen;
        try done
  end.
  intros [= <-]. simpl in Hgen. rewrite Hk, Hfields in Hgen. simpl in Hgen.
  rewrite bool_decide_eq_false_2 in Hgen by set_solver.
  match type of Hgen with
  | context [emitFields fields ?name ?st0 []] =>
      destruct (emitFields fields name st0 []) as [[st1 nested]| | |] eqn:Hemit;
        try done
  end.
  apply emitFields_lines in Hemit as (lines & Hbuf & Hlines). simpl in Hbuf.
  apply golang_facts.generateNested_adds in Hgen as (names & (new & Hnew & _) & _).
  2:{ intros t' name' st0 st0' H.
      apply golang_facts.generateStructs_adds in H as (names' & H & _). eauto. }
  exists lines, new. split; [|done].
  rewrite Hnew. simpl. rewrite Hbuf. simpl. by rewrite <- app_assoc.
Qed.

Lemma underscores_valid (n : nat) :
  parser.isValidFieldName (underscores (S n)) = true.
Proof. simpl. induction n as [|n IH]; [done|]. simpl. exact IH. Qed.

Lemma camel_underscores (n : nat) (nextUpper : bool) :
  camel (underscores n) nextUpper = "".
Proof. revert nextUpper. induction n as [|n IH]; intros; [done|]. simpl. apply IH. Qed.

Lemma root_name_not_empty (opts : Options) : root_name opts <> "".
Proof.
  unfold root_name. by destruct (String.eqb_spec (RootType opts) "").
Qed.

(** ** The chunks of the TypeScript walk *)

Lemma ts_emitFields_chunks (P : typescript.chunk -> Prop)
  (fields : gomap yema.Type_) (typeName : string)
  (st st' : typescript.state) (acc nested : gomap yema.Type_) :
  (forall a b c, P (typescript.FieldLine a b c)) ->
  Forall P (typescript.buf st) ->
  typescript.emitFields fields typeName st acc = Ok (st', nested) ->
  Forall P (typescript.buf st').
Proof.
  intros HP. revert st acc.
  induction fields as [|[f t] fields IH]; intros st acc Hst; simpl.
  - by intros [= <- <-].
  - destruct (typescript.typeToTypeScriptType t typeName f) as [[ty n]| | |];
      try done.
    intros H.
    assert (exists acc',
      typescript.emitFields fields typeName
        (typescript.write
           (typescript.FieldLine f (if yema.Optional t then "?" else "") ty) st) acc'
      = Ok (st', nested)) as [acc' Hstep].
    { repeat case_match; try done; eauto. }
    apply IH in Hstep; [done|]. simpl. apply Forall_app. split; [done|].
    constructor; [apply HP|constructor].
Qed.

Lemma ts_generateInterfaces_chunks (order : RangeOrder yema.Type_) (fuel : nat) :
  forall t typeName st st' opts,
    typescript.UseInterfaces opts = true ->
    Forall (ts_chunk_ok (typescript.ExportAll opts) (typescript.RootType opts))
      (typescript.buf st) ->
    typescript.generateInterfaces order fuel t typeName st opts = Ok st' ->
    Forall (ts_chunk_ok (typescript.ExportAll opts) (typescript.RootType opts))
      (typescript.buf st').
Proof.
  induction fuel as [|fuel IH]; intros t typeName st st' opts Huse Hst; simpl; [done|].
  destruct (negb _); [done|].
  case_bool_decide; [by intros [= <-]|].
  rewrite Huse.
  destruct (yema.TStruct t) as [fields|]; [|done].
  match goal with
  | |- context [typescript.emitFields fields typeName ?st0 []] =>
      destruct (typescript.emitFields fields typeName st0 [])
        as [[st1 nested]| | |] eqn:Hemit; try done
  end.
  apply (ts_emitFields_chunks
           (ts_chunk_ok (typescript.ExportAll opts) (typescript.RootType opts)))
    in Hemit; [|done|].
  2:{ simpl. rewrite !Forall_app. split; [split; [done|]|].
      - by constructor.
      - constructor; [|constructor]. done. }
  assert (Forall (ts_chunk_ok (typescript.ExportAll opts) (typescript.RootType opts))
            (typescript.buf (typescript.write typescript.InterfaceClose st1)))
    as Hclosed.
  { simpl. apply Forall_app. split; [done|]. by constructor. }
  revert Hclosed. generalize (typescript.write typescript.InterfaceClose st1).
  induction (range_of order nested) as [|[name t'] rest IHrest]; intros st2 Hst2; simpl.
  - by intros [= <-].
  - destruct (typescript.generateInterfaces order fuel t' name st2 opts)
      as [st3| | |] eqn:Hgen; try done.
    apply IHrest. by apply (IH _ _ _ _ _ Huse Hst2 Hgen).
Qed.

Lemma ToTypeScript_chunks (order : RangeOrder yema.Type_) (t : option yema.Type_)
  (opts : typescript.Options) (b : list typescript.chunk) :
  typescript.ToTypeScript order t opts = Ok b ->
  Forall (ts_chunk_ok (typescript.ExportAll opts) (ts_root_name opts)) b.
Proof.
  unfold typescript.ToTypeScript. destruct t as [t|]; [|done].
  destruct (negb (bool_decide _)); [done|]. cbv zeta. fold (ts_root_name opts).
  cbn [typescript.Namespace typescript.RootType].
  match goal with
  | |- context [typescript.generateInterfaces order ?fuel t ?name ?st ?o] =>
      destruct (typescript.generateInterfaces order fuel t name st o)
        as [st'| | |] eqn:Hgen; try done;
      apply (ts_generateInterfaces_chunks order fuel t name st st' o eq_refl) in Hgen
  end.
  - simpl in Hgen. destruct (negb _); intros [= <-]; [|done].
    simpl. apply Forall_app. split; [done|]. by constructor.
  - simpl. destruct (negb _); simpl; [|done]. by constructor.
Qed.

End generator_facts.

(** ** The JSON Schema and CUE emitters *)

Module emitter_facts.

Import emitter_spec.

Lemma typeToJSONSchema_struct (t : yema.Type_) (schema : jsonschema.JSONSchema)
  (fields : gomap yema.Type_) :
  yema.TKind t = yema.Struct ->
  yema.TStruct t = Some fields ->
  jsonschema.typeToJSONSchema t schema
  = convert_fields (jsonschema.set_Type schema "object") fields [] [].
Proof.
  destruct t as [k o s a]; simpl; intros -> ->.
  generalize (@nil (string * jsonschema.JSONSchema)).
  generalize (@nil string) at 2 3.
  induction fields as [|[f ft] fields IH]; intros req props; simpl; [done|].
  destruct (jsonschema.typeToJSONSchema ft jsonschema.empty); [|done]. apply IH.
Qed.

Lemma typeToAstExpr_struct (t : yema.Type_) (fieldName : string)
  (fields : gomap yema.Type_) :
  yema.TKind t = yema.Struct ->
  yema.TStruct t = Some fields ->
  cue.typeToAstExpr t fieldName = field_decls fields [].
Proof.
  destruct t as [k o s a]; simpl; intros -> ->.
  generalize (@nil cue.Decl) at 2 3.
  induction fields as [|[f ft] fields IH]; intros elts; simpl; [done|].
  destruct (cue.typeToAstExpr ft f); [|done]. apply IH.
Qed.

Lemma convert_fields_accepts (schema : jsonschema.JSONSchema)
  (fields : gomap yema.Type_) (props : gomap jsonschema.JSONSchema)
  (req : list string) :
  Forall (fun kt => forall schema,
            (exists doc, jsonschema.typeToJSONSchema kt.2 schema = jsonschema.Ok doc)
            <-> convertible kt.2 = true) fields ->
  (exists doc, convert_fields schema fields props req = jsonschema.Ok doc)
  <-> forallb (fun kt => convertible kt.2) fields = true.
Proof.
  intros Hfields. revert props req.
  induction Hfields as [|[f ft] fields Hft _ IH]; intros props req; simpl.
  - split; [done|]. by eexists.
  - simpl in Hft.
    destruct (jsonschema.typeToJSONSchema ft jsonschema.empty) as [p|e] eqn:Hp.
    + assert (convertible ft = true) as -> by (eapply (proj1 (Hft _)); by eexists).
      simpl. apply IH.
    + assert (convertible ft = false) as ->.
      { apply not_true_is_false. intros Hc.
        apply (proj2 (Hft jsonschema.empty)) in Hc as [doc Hdoc].
        by rewrite Hp in Hdoc. }
      simpl. split; [|done]. by intros [? ?].
Qed.

Lemma typeToJSONSchema_accepts (t : yema.Type_) :
  forall schema,
    (exists doc, jsonschema.typeToJSONSchema t schema = jsonschema.Ok doc)
    <-> convertible t = true.
Proof.
  induction t as [k o s a IHs IHa] using golang_facts.Type_ind'. intros schema.
  destruct k; try (simpl; split; [done|]; by eexists).
  - simpl. split; [by intros [? ?]|done].
  - simpl. destruct a as [e|]; [|split; [done|]; by eexists].
    rewrite <- (IHa jsonschema.empty).
    destruct (jsonschema.typeToJSONSchema e jsonschema.empty).
    + split; by eexists.
    + split; by intros [? ?].
  - destruct s as [fields|].
    + rewrite (typeToJSONSchema_struct _ _ fields) by done. simpl.
      by apply convert_fields_accepts.
    + simpl. split; [by intros [? ?]|done].
Qed.

Lemma field_decls_accepts (fields : gomap yema.Type_) (elts : list cue.Decl) :
  Forall (fun kt => forall fieldName,
            (exists e, cue.typeToAstExpr kt.2 fieldName = cue.Ok e)
            <-> convertible kt.2 = true) fields ->
  (exists e, field_decls fields elts = cue.Ok e)
  <-> forallb (fun kt => convertible kt.2) fields = true.
Proof.
  intros Hfields. revert elts.
  induction Hfields as [|[f ft] fields Hft _ IH]; intros elts; simpl.
  - split; [done|]. by eexists.
  - simpl in Hft.
    destruct (cue.typeToAstExpr ft f) as [p|e] eqn:Hp.
    + assert (convertible ft = true) as -> by (eapply (proj1 (Hft _)); by eexists).
      simpl. apply IH.
    + assert (convertible ft = false) as ->.
      { apply not_true_is_false. intros Hc.
        apply (proj2 (Hft f)) in Hc as [doc Hdoc]. by rewrite Hp in Hdoc. }
      simpl. split; [|done]. by intros [? ?].
Qed.

Lemma typeToAstExpr_accepts (t : yema.Type_) :
  forall fieldName,
    (exists e, cue.typeToAstExpr t fieldName = cue.Ok e) <-> convertible t = true.
Proof.
  induction t as [k o s a IHs IHa] using golang_facts.Type_ind'. intros fieldName.
  destruct k; try (simpl; split; [done|]; by eexists).
  - simpl. split; [by intros [? ?]|done].
  - simpl. destruct a as [e|]; [|split; [done|]; by eexists].
    rewrite <- (IHa fieldName).
    destruct (cue.typeToAstExpr e fieldName).
    + split; by eexists.
    + split; by intros [? ?].
  - destruct s as [fields|].
    + rewrite (typeToAstExpr_struct _ _ fields) by done. simpl.
      by apply field_decls_accepts.
    + simpl. split; [by intros [? ?]|done].
Qed.

Lemma complete_convertible (t : yema.Type_) :
  schema_spec.complete t = true -> convertible t = true.
Proof.
  induction t as [k o s a IHs IHa] using golang_facts.Type_ind'.
  destruct k; simpl; try done.
  - destruct a as [e|]; [|done]. apply IHa.
  - destruct s as [fs|]; [|done].
    rewrite !forallb_forall. intros H kt Hin.
    rewrite Forall_forall in IHs. apply IHs; [by apply list_elem_of_In|].
    by apply H.
Qed.

(** What the loop of [typeToJSONSchema] builds. *)
Lemma convert_fields_builds (schema : jsonschema.JSONSchema)
  (fields : gomap yema.Type_) (props : gomap jsonschema.JSONSchema)
  (req : list string) (doc : jsonschema.JSONSchema) :
  NoDup (map_keys props ++ map_keys fields) ->
  convert_fields schema fields props req = jsonschema.Ok doc ->
  exists converted,
    Forall2 property_of converted fields /\
    doc = jsonschema.set_fields schema (props ++ converted)%list
            (if (length (req ++ required_names fields) =? 0)%nat then None
             else Some (req ++ required_names fields)%list).
Proof.
  revert props req. induction fields as [|[f ft] fields IH]; intros props req Hnodup; simpl.
  - intros [= <-]. exists []. split; [constructor|]. by rewrite !app_nil_r.
  - destruct (jsonschema.typeToJSONSchema ft jsonschema.empty) as [p|] eqn:Hp; [|done].
    assert (f ∉ map_keys props) as Hfresh.
    { apply NoDup_app in Hnodup as (_ & Hdisj & _). intros Hin.
      apply (Hdisj f Hin). simpl. apply list_elem_of_here. }
    rewrite (golang_facts.map_set_fresh props f p Hfresh).
    intros Hloop. apply IH in Hloop as (converted & Hconv & ->).
    + exists ((f, p) :: converted). split; [by constructor|].
      rewrite <- app_assoc. simpl.
      destruct (yema.Optional ft); simpl; [done|]. by rewrite <- app_assoc.
    + unfold map_keys in *. rewrite map_app. simpl.
      rewrite <- app_assoc. simpl.
      apply NoDup_app in Hnodup as (Hprops & Hdisj & Hfields).
      simpl in Hfields. apply NoDup_cons in Hfields as [Hf Hfields].
      apply NoDup_app. split; [done|]. split; [|by apply NoDup_cons].
      intros x Hx [->|Hx']%elem_of_cons; [done|].
      apply (Hdisj x Hx). simpl. by apply list_elem_of_further.
Qed.

(** [typeToJSONSchema] writes the type and, in a record or an array, the
    properties, the required list and the items; it leaves the rest. *)
Lemma typeToJSONSchema_keeps (t : yema.Type_) (schema doc : jsonschema.JSONSchema) :
  jsonschema.typeToJSONSchema t schema = jsonschema.Ok doc ->
  jsonschema.Schema doc = jsonschema.Schema schema /\
  jsonschema.Description doc = jsonschema.Description schema.
Proof.
  destruct t as [k o s a]. destruct k; simpl; try (by intros [= <-]).
  - destruct a as [e|]; [|by intros [= <-]].
    destruct (jsonschema.typeToJSONSchema e jsonschema.empty); [|done].
    by intros [= <-].
  - destruct s as [fields|]; [|done].
    generalize (@nil (string * jsonschema.JSONSchema)).
    generalize (@nil string) at 2.
    induction fields as [|[f ft] fields IH]; intros req props; simpl.
    + by intros [= <-].
    + destruct (jsonschema.typeToJSONSchema ft jsonschema.empty); [|done]. apply IH.
Qed.

(** What the loop of [typeToAstExpr] builds. *)
Lemma field_decls_builds (fields : gomap yema.Type_) (elts : list cue.Decl)
  (e : cue.Expr) :
  field_decls fields elts = cue.Ok e ->
  exists decls,
    Forall2 decl_of decls fields /\ e = cue.StructLit (elts ++ decls)%list.
Proof.
  revert elts. induction fields as [|[f ft] fields IH]; intros elts; simpl.
  - intros [= <-]. exists []. split; [constructor|]. by rewrite app_nil_r.
  - destruct (cue.typeToAstExpr ft f) as [fe|] eqn:Hfe; [|done].
    intros Hloop. apply IH in Hloop as (decls & Hdecls & ->).
    eexists (_ :: decls). split.
    + constructor; [|done]. by exists fe.
    + by rewrite <- app_assoc.
Qed.

End emitter_facts.

(** ** The Rust generator *)

Module rust_facts.

Import typescript_spec rust_spec.

Lemma rust_camel_same (s : string) (nextUpper : bool) :
  rust.camel s nextUpper = golang.camel s nextUpper.
Proof.
  revert nextUpper. induction s as [|c s IH]; intros nextUpper; simpl; [done|].
  unfold golang.is_separator. by rewrite !IH.
Qed.

Lemma typeToRustType_same (t : yema.Type_) (parentName fieldName : string) :
  same_outcome (fun rs go => rs.2 = go.2)
    (rust.typeToRustType t parentName fieldName)
    (golang.typeToGoType t parentName fieldName).
Proof.
  induction t as [k o s a _ IHa] using golang_facts.Type_ind'.
  destruct k; simpl; try done.
  destruct a as [e|]; [|done].
  destruct (rust.typeToRustType e parentName fieldName) as [[ty1 n1]| | |],
           (golang.typeToGoType e parentName fieldName) as [[ty2 n2]| | |];
    simpl in *; done.
Qed.

Lemma related_writeField (rs : rust.state) (go : golang.state)
  (opts : rust.Options) (indent f rf ty : string) (isOptional : bool)
  (line : golang.chunk) :
  golang.declared [line] = [] ->
  related rs go ->
  related (rust.writeField opts indent f rf ty isOptional rs) (golang.write line go).
Proof.
  intros Hline [Hvis Hdecl]. unfold rust.writeField. split.
  - by repeat case_match.
  - unfold golang.write. cbn [golang.buf].
    rewrite golang_facts.declared_app, Hline, app_nil_r, <- Hdecl.
    unfold rust.declared. repeat case_match; simpl; rewrite !omap_app; simpl;
      by rewrite !app_nil_r.
Qed.

Lemma rust_emitFields_same (opts : rust.Options) (indent : string)
  (fields : gomap yema.Type_) (name : string)
  (rs : rust.state) (go : golang.state) (acc : gomap yema.Type_) :
  related rs go ->
  same_outcome (fun a b => related a.1 b.1 /\ a.2 = b.2)
    (rust.emitFields opts indent fields name rs acc)
    (golang.emitFields fields name go acc).
Proof.
  revert rs go acc.
  induction fields as [|[f t] fields IH]; intros rs go acc Hrel; simpl; [done|].
  pose proof (typeToRustType_same t name f) as Hty.
  destruct (rust.typeToRustType t name f) as [[ty1 n1]| | |],
           (golang.typeToGoType t name f) as [[ty2 n2]| | |];
    simpl in Hty; try done.
  subst n2.
  destruct (negb (String.eqb n1 "") && bool_decide (yema.TKind t = yema.Struct)).
  { apply IH. by apply related_writeField. }
  destruct (negb (String.eqb n1 "") && bool_decide (yema.TKind t = yema.Array)).
  2: { apply IH. by apply related_writeField. }
  destruct (yema.TArray t) as [elem|]; [|done].
  destruct (bool_decide (yema.TKind elem = yema.Struct));
    apply IH; by apply related_writeField.
Qed.

Lemma rust_generateNested_same
  (gen1 : yema.Type_ -> string -> rust.state -> golang.outcome rust.state)
  (gen2 : yema.Type_ -> string -> golang.state -> golang.outcome golang.state)
  (nested : list (string * yema.Type_)) (rs : rust.state) (go : golang.state) :
  (forall t name rs go,
     related rs go -> same_outcome related (gen1 t name rs) (gen2 t name go)) ->
  related rs go ->
  same_outcome related
    (rust.generateNested gen1 nested rs)
    (golang.generateNested gen2 nested go).
Proof.
  intros Hgen. revert rs go.
  induction nested as [|[name t] rest IH]; intros rs go Hrel; simpl; [done|].
  specialize (Hgen t name rs go Hrel).
  destruct (gen1 t name rs), (gen2 t name go); simpl in Hgen; try done.
  by apply IH.
Qed.

Lemma rust_generateStructs_same (order : RangeOrder yema.Type_) (fuel : nat)
  (t : yema.Type_) (name : string) (rs : rust.state) (go : golang.state)
  (opts : rust.Options) (indentLevel : nat) :
  related rs go ->
  same_outcome related
    (rust.generateStructs order fuel t name rs opts indentLevel)
    (golang.generateStructs order fuel t name go).
Proof.
  revert t name rs go.
  induction fuel as [|fuel IH]; intros t name rs go Hrel; simpl; [done|].
  destruct (negb _); [done|].
  destruct Hrel as [Hvis Hdecl]. rewrite Hvis.
  case_bool_decide; [done|].
  destruct (yema.TStruct t) as [fields|]; [|done].
  match goal with
  | |- same_outcome _
         match rust.emitFields _ _ _ _ ?rs1 _ with _ => _ end
         match golang.emitFields _ _ ?go1 _ with _ => _ end =>
      assert (Hrel1 : related rs1 go1)
  end.
  { split; [by destruct (0 <? _)%nat|].
    simpl. rewrite !golang_facts.declared_app. simpl.
    unfold rust.declared in *.
    destruct (0 <? _)%nat; simpl; rewrite !omap_app; simpl;
      rewrite ?omap_app; simpl; rewrite ?app_nil_r; by rewrite Hdecl. }
  pose proof (rust_emitFields_same opts (rust.strings_Repeat "    " indentLevel)
                fields name _ _ [] Hrel1) as Hemit.
  destruct (rust.emitFields opts _ fields name _ []) as [[rs2 n1]| | |],
           (golang.emitFields fields name _ []) as [[go2 n2]| | |];
    simpl in Hemit; try done.
  destruct Hemit as [[Hvis2 Hdecl2] ->].
  apply rust_generateNested_same; [by intros; apply IH|].
  split; [done|]. simpl. rewrite golang_facts.declared_app. simpl.
  unfold rust.declared in *. rewrite omap_app. simpl. by rewrite Hdecl2.
Qed.

(** The module clause is never left out: the default fills the name in. *)
Lemma module_name_not_empty (opts : rust.Options) :
  String.eqb (module_name opts) "" = false.
Proof.
  unfold module_name. destruct (String.eqb_spec (rust.Module_ opts) ""); [done|].
  by apply String.eqb_neq.
Qed.

(** With the same root name the two generators end the same way and
    declare the same names in the same order. *)
Lemma ToRust_same (order : RangeOrder yema.Type_) (t : option yema.Type_)
  (opts : rust.Options) (package : string) :
  same_outcome (fun rs go => rust.declared rs = golang.declared go)
    (rust.ToRust order t opts)
    (golang.ToGolang order t (golang.mkOptions package (rust.RootType opts))).
Proof.
  destruct t as [t|]; [|done].
  unfold rust.ToRust, golang.ToGolang.
  destruct (negb (bool_decide _)); [done|].
  cbv zeta. cbn [rust.Module_ rust.RootType rust.DeriveTraits golang.RootType].
  fold (module_name opts). rewrite module_name_not_empty. cbn [negb].
  match goal with
  | |- same_outcome _
         match rust.generateStructs _ _ _ _ ?rs ?o ?lvl with _ => _ end
         match golang.generateStructs _ _ _ _ ?go with _ => _ end =>
      assert (Hrel : related rs go) by (split; [by case_match|by case_match]);
      pose proof (rust_generateStructs_same order (yema.depth t) t
                    (if String.eqb (rust.RootType opts) "" then "Root"
                     else rust.RootType opts) rs go o lvl Hrel) as Hsame
  end.
  destruct (rust.generateStructs _ _ _ _ _ _ _) as [rs'| | |],
           (golang.generateStructs _ _ _ _ _) as [go'| | |];
    simpl in Hsame; try done.
  destruct Hsame as [_ Hdecl]. simpl.
  unfold rust.declared in *. by rewrite omap_app, Hdecl, app_nil_r.
Qed.

Lemma ToRust_declared (order : RangeOrder yema.Type_) (t : option yema.Type_)
  (opts : rust.Options) (b : list rust.chunk) :
  rust.ToRust order t opts = golang.Ok b ->
  exists b',
    golang.ToGolang order t (golang.mkOptions "" (rust.RootType opts))
    = golang.Ok b' /\
    rust.declared b = golang.declared b'.
Proof.
  intros H. pose proof (ToRust_same order t opts "") as Hsame.
  rewrite H in Hsame.
  destruct (golang.ToGolang order t _) as [b'| | |]; simpl in Hsame; try done.
  by exists b'.
Qed.

(** ** [toSnakeCase] *)

Lemma ToLower_not_upper (c : ascii) :
  rust.unicode_IsUpper (rust.unicode_ToLower c) = false.
Proof. by destruct c as [[] [] [] [] [] [] [] []]. Qed.

Lemma snake_no_upper (s : string) (i : nat) : no_upper (rust.snake s i) = true.
Proof.
  revert i. induction s as [|c s IH]; intros i; simpl; [done|].
  destruct (rust.unicode_IsUpper c) eqn:Hc.
  - destruct (0 <? i)%nat; simpl; by rewrite ToLower_not_upper, IH.
  - simpl. by rewrite Hc, IH.
Qed.

Lemma snake_fixes (s : string) (i : nat) :
  no_upper s = true -> rust.snake s i = s.
Proof.
  revert i. induction s as [|c s IH]; intros i; simpl; [done|].
  intros [Hc Hs]%andb_prop. apply negb_true_iff in Hc. rewrite Hc.
  by rewrite IH.
Qed.

Lemma toSnakeCase_fixed (s : string) :
  String.eqb (rust.toSnakeCase s) s = no_upper s.
Proof.
  destruct (no_upper s) eqn:Hs.
  - apply String.eqb_eq. by apply snake_fixes.
  - apply String.eqb_neq. intros Heq.
    pose proof (snake_no_upper s 0) as Hno. unfold rust.toSnakeCase in Heq.
    rewrite Heq in Hno. congruence.
Qed.

End rust_facts.

(** ** The order of iteration *)

Module order_facts.

Import order_spec parser_spec validator_spec.




End order_facts.

(** ** The text of the Rust generator *)

Module rust_text.

Import golang.

Lemma rust_emitFields_appends (opts : rust.Options) (indent : string)
  (fields : gomap yema.Type_) (structName : string)
  (st st' : rust.state) (acc nested : gomap yema.Type_) :
  rust.emitFields opts indent fields structName st acc = Ok (st', nested) ->
  exists lines, rust.buf st' = (rust.buf st ++ lines)%list.
Proof.
  revert st acc. induction fields as [|[f t] fields IH]; intros st acc; simpl.
  - intros [= <- <-]. exists []. by rewrite app_nil_r.
  - destruct (rust.typeToRustType t structName f) as [[ty n]| | |]; try done.
    intros H.
    assert (exists acc',
      rust.emitFields opts indent fields structName
        (rust.writeField opts indent f (rust.toSnakeCase f) ty (yema.Optional t) st)
        acc'
      = Ok (st', nested)) as [acc' Hstep].
    { repeat case_match; try done; eauto. }
    apply IH in Hstep as [lines Hbuf].
    assert (exists written,
              rust.buf (rust.writeField opts indent f (rust.toSnakeCase f) ty
                          (yema.Optional t) st)
              = (rust.buf st ++ written)%list) as [written Hwritten].
    { unfold rust.writeField. repeat case_match; simpl;
        rewrite <- ?app_assoc; by eexists. }
    rewrite Hbuf, Hwritten, <- app_assoc. by eexists.
Qed.

Lemma rust_generateStructs_appends (order : RangeOrder yema.Type_) (fuel : nat) :
  forall t structName st st' opts indentLevel,
    rust.generateStructs order fuel t structName st opts indentLevel = Ok st' ->
    exists new, rust.buf st' = (rust.buf st ++ new)%list.
Proof.
  induction fuel as [|fuel IH]; intros t structName st st' opts indentLevel; simpl;
    [done|].
  destruct (negb _); [done|].
  case_bool_decide; [intros [= <-]; exists []; by rewrite app_nil_r|].
  destruct (yema.TStruct t) as [fields|]; [|done].
  match goal with
  | |- context [rust.emitFields opts ?indent fields structName ?st0 []] =>
      destruct (rust.emitFields opts indent fields structName st0 [])
        as [[st1 nested]| | |] eqn:Hemit; try done;
      assert (exists head, rust.buf st0 = (rust.buf st ++ head)%list) as [head Hhead]
  end.
  { destruct (0 <? _)%nat; simpl; rewrite <- ?app_assoc; by eexists. }
  apply rust_emitFields_appends in Hemit as [lines Hlines].
  assert (exists body,
            rust.buf (rust.write
                        (rust.StructClose (rust.strings_Repeat "    " indentLevel)) st1)
            = (rust.buf st ++ body)%list) as Hclosed.
  { simpl. rewrite Hlines, Hhead, <- !app_assoc. by eexists. }
  revert Hclosed.
  generalize (rust.write (rust.StructClose (rust.strings_Repeat "    " indentLevel)) st1).
  induction (range_of order nested) as [|[name t'] rest IHrest];
    intros st2 [body Hbody]; simpl.
  - intros [= <-]. by exists body.
  - destruct (rust.generateStructs order fuel t' name st2 opts indentLevel)
      as [st3| | |] eqn:Hgen; try done.
    apply IH in Hgen as [new Hnew]. apply IHrest.
    rewrite Hnew, Hbody, <- app_assoc. by eexists.
Qed.

End rust_text.

(** ** The call stack *)

Module stack_facts.

Import stack.

Lemma nesting_slice (arr : list value) :
  Forall (fun elem => (stack_spec.nesting elem < stack_spec.nesting (VSlice arr))%nat) arr.
Proof.
  simpl. induction arr as [|elem rest IH]; constructor; [lia|].
  eapply Forall_impl; [exact IH|]. simpl. intros. lia.
Qed.

Lemma nesting_map (m : gomap value) :
  Forall (fun kv => (stack_spec.nesting kv.2 < stack_spec.nesting (VMap m))%nat) m.
Proof.
  simpl. induction m as [|[k val] rest IH]; constructor; [simpl; lia|].
  eapply Forall_impl; [exact IH|]. simpl. intros. lia.
Qed.

(** What a call returns with a bounded stack is what the function returns. *)
Lemma parseValueToType_agrees (frames : nat) (fieldName : string) (v : value)
  (isOptional : bool) (r : parser.result yema.Type_) :
  parseValueToType frames fieldName v isOptional = Returned r ->
  r = parser.parseValueToType fieldName v isOptional.
Proof.
  revert fieldName v isOptional r.
  induction frames as [|frames IH]; intros fieldName v isOptional r; [done|].
  destruct v; simpl; try by intros [= <-].
  - destruct (parser.kind_of_name s); by intros [= <-].
  - destruct arr as [|item [|? ?]]; try by intros [= <-].
    destruct (parseValueToType frames fieldName item false) as [[it|err]|] eqn:Hitem;
      [| |done]; intros [= <-]; apply IH in Hitem; by rewrite <- Hitem.
  - generalize (@nil (string * yema.Type_)).
    induction m as [|[k val] rest IHm]; intros acc; [by intros [= <-]|].
    destruct (negb _); [by intros [= <-]|].
    destruct (parseValueToType frames _ val _) as [[nt|err]|] eqn:Hval; [| |done].
    + apply IH in Hval. rewrite <- Hval. apply IHm.
    + apply IH in Hval. rewrite <- Hval. by intros [= <-].
Qed.

(** A stack with room for the nesting of the value is enough. *)
Lemma parseValueToType_enough (frames : nat) (fieldName : string) (v : value)
  (isOptional : bool) :
  (stack_spec.nesting v <= frames)%nat ->
  parseValueToType frames fieldName v isOptional
  = Returned (parser.parseValueToType fieldName v isOptional).
Proof.
  revert fieldName v isOptional.
  induction frames as [|frames IH]; intros fieldName v isOptional Hv.
  { destruct v; simpl in Hv; lia. }
  destruct v; simpl; try done.
  - by destruct (parser.kind_of_name s).
  - destruct arr as [|item [|? ?]]; try done.
    pose proof (Forall_inv (nesting_slice [item])) as Hitem. cbv beta in Hitem.
    rewrite IH by lia.
    by destruct (parser.parseValueToType fieldName item false).
  - pose proof (nesting_map m) as Hm.
    assert (Forall (fun kv => (stack_spec.nesting kv.2 <= frames)%nat) m) as Hm'.
    { eapply Forall_impl; [exact Hm|]. cbv beta. intros. lia. }
    clear Hm Hv. generalize (@nil (string * yema.Type_)).
    induction Hm' as [|[k val] rest Hval _ IHm]; intros acc; [done|].
    destruct (negb _); [done|].
    rewrite IH by done.
    destruct (parser.parseValueToType _ val _); [apply IHm|done].
Qed.

Lemma parse_nested_array (frames n : nat) (fieldName : string) (isOptional : bool) :
  parseValueToType frames fieldName (parser_spec.nested_array_raw n) isOptional
  = if (n <? frames)%nat
    then Returned (parser.Ok (parser_spec.nested_array_type n isOptional))
    else StackOverflow.
Proof.
  revert n isOptional. induction frames as [|frames IH]; intros n isOptional; [done|].
  destruct n as [|n]; [done|].
  change (S n <? S frames)%nat with (n <? frames)%nat.
  simpl. rewrite IH. by destruct (n <? frames)%nat.
Qed.

Lemma parse_nested_record (frames n : nat) (fieldName : string) :
  parseValueToType frames fieldName (parser_spec.nested_record_raw n) false
  = if (n <? frames)%nat
    then Returned (parser.Ok (parser_spec.nested_record_type n))
    else StackOverflow.
Proof.
  revert n fieldName. induction frames as [|frames IH]; intros n fieldName; [done|].
  destruct n as [|n]; [done|].
  change (S n <? S frames)%nat with (n <? frames)%nat.
  simpl. rewrite IH. by destruct (n <? frames)%nat.
Qed.

Section Facts.

Context (platform : Platform).

Lemma validateValue_agrees (frames : nat) (v : value) (schema : yema.Type_)
  (path : string) (r : option validator.error) :
  validateValue platform frames v schema path = Returned r ->
  r = validator.validateValue platform v schema path.
Proof.
  revert v schema path r.
  induction frames as [|frames IH]; intros v schema path r; [done|].
  destruct schema as [k o s a].
  assert (v = VNil \/ v <> VNil) as [->|Hv] by (destruct v; (by left) || (by right)).
  { simpl. destruct o; by intros [= <-]. }
  destruct k; try (destruct v; try done; simpl; by intros [= <-]).
  - (* Array *)
    destruct a as [elemType|]; [|destruct v; try done; simpl; by intros [= <-]].
    destruct v; try done; try (simpl; by intros [= <-]).
    simpl. clear Hv. generalize O.
    induction arr as [|elem rest IHarr]; intros i; [by intros [= <-]|].
    destruct (validateValue platform frames elem elemType _) as [[err|]|] eqn:Helem;
      [| |done]; apply IH in Helem; rewrite <- Helem; [by intros [= <-]|apply IHarr].
  - (* Struct *)
    destruct s as [fields|]; [|destruct v; try done; simpl; by intros [= <-]].
    destruct v; try done; try (simpl; by intros [= <-]).
    simpl.
    induction fields as [|[fieldName fieldType] rest IHfields]; [by intros [= <-]|].
    destruct (map_get m fieldName) as [nestedValue|].
    + destruct (validateValue platform frames nestedValue fieldType _)
        as [[err|]|] eqn:Hnested; [| |done];
        apply IH in Hnested; rewrite <- Hnested; [by intros [= <-]|apply IHfields].
    + destruct (negb _); [by intros [= <-]|apply IHfields].
Qed.

(** A stack with room for the depth of the schema is enough. *)
Lemma validateValue_enough (frames : nat) (v : value) (schema : yema.Type_)
  (path : string) :
  (yema.depth schema <= frames)%nat ->
  validateValue platform frames v schema path
  = Returned (validator.validateValue platform v schema path).
Proof.
  revert v schema path.
  induction frames as [|frames IH]; intros v schema path Hdepth.
  { destruct schema. rewrite golang_facts.depth_unfold in Hdepth. lia. }
  destruct schema as [k o s a]. rewrite golang_facts.depth_unfold in Hdepth.
  assert (v = VNil \/ v <> VNil) as [->|Hv] by (destruct v; (by left) || (by right)).
  { simpl. by destruct o. }
  destruct k; try (by destruct v).
  - (* Array *)
    destruct a as [elemType|]; [|by destruct v].
    destruct v; try done.
    simpl. clear Hv. generalize O.
    induction arr as [|elem rest IHarr]; intros i; [done|].
    rewrite IH by lia.
    destruct (validator.validateValue platform elem elemType _); [done|apply IHarr].
  - (* Struct *)
    destruct s as [fields|]; [|by destruct v].
    destruct v; try done.
    simpl.
    assert (Forall (fun kt => (yema.depth kt.2 <= frames)%nat) fields) as Hfields.
    { eapply Forall_impl; [apply golang_facts.fields_depth_bound|].
      simpl. intros. lia. }
    clear Hdepth.
    induction Hfields as [|[fieldName fieldType] rest Hfield _ IHfields]; [done|].
    destruct (map_get m fieldName) as [nestedValue|].
    + rewrite IH by done.
      destruct (validator.validateValue platform nestedValue fieldType _);
        [done|apply IHfields].
    + destruct (negb _); [done|apply IHfields].
Qed.

Lemma validate_nested_array (frames n : nat) (isOptional : bool) (path : string) :
  validateValue platform frames (parser_spec.nested_array_data n)
    (parser_spec.nested_array_type n isOptional) path
  = if (n <? frames)%nat then Returned None else StackOverflow.
Proof.
  revert n isOptional path.
  induction frames as [|frames IH]; intros n isOptional path; [done|].
  destruct n as [|n]; [done|].
  change (S n <? S frames)%nat with (n <? frames)%nat.
  simpl. rewrite IH. by destruct (n <? frames)%nat.
Qed.

Lemma validate_nested_record (frames n : nat) (path : string) :
  validateValue platform frames (parser_spec.nested_record_data n)
    (parser_spec.nested_record_type n) path
  = if (n <? frames)%nat then Returned None else StackOverflow.
Proof.
  revert n path. induction frames as [|frames IH]; intros n path; [done|].
  destruct n as [|n]; [done|].
  change (S n <? S frames)%nat with (n <? frames)%nat.
  simpl. rewrite IH. by destruct (n <? frames)%nat.
Qed.

End Facts.

End stack_facts.

(** ** Two runs of the walk *)

Module walk_facts.

Import golang golang_spec walk_spec.

(** The same fields, up to their order and the order below them. *)
Definition reordered_fields (fields fields' : gomap yema.Type_) : Prop :=
  exists fields'',
    fields' ≡ₚ fields'' /\
    Forall2 (fun kt kt'' => kt.1 = kt''.1 /\ reordered kt.2 kt''.2) fields fields''.

Definition reordered_record (s s' : option (gomap yema.Type_)) : Prop :=
  match s, s' with
  | Some fields, Some fields' => reordered_fields fields fields'
  | None, None => True
  | _, _ => False
  end.

Lemma reordered_unfold k o s a k' o' s' a' :
  reordered (yema.mkType k o s a) (yema.mkType k' o' s' a') <->
  k = k' /\ o = o' /\ reordered_record s s' /\
  match a, a' with
  | Some elem, Some elem' => reordered elem elem'
  | None, None => True
  | _, _ => False
  end.
Proof.
  assert (forall fs fs'' : gomap yema.Type_,
            (fix each (fs fs'' : gomap yema.Type_) {struct fs} : Prop :=
               match fs, fs'' with
               | [], [] => True
               | (f, ft) :: fs, (f'', ft'') :: fs'' =>
                   f = f'' /\ reordered ft ft'' /\ each fs fs''
               | _, _ => False
               end) fs fs''
            <-> Forall2 (fun kt kt'' => kt.1 = kt''.1 /\ reordered kt.2 kt''.2)
                  fs fs'') as Heach.
  { induction fs as [|[f ft] fs IH]; intros [|[f'' ft''] fs''].
    - split; [constructor|done].
    - split; [done|]. intros H. inversion H.
    - split; [done|]. intros H. inversion H.
    - rewrite IH. split.
      + intros (Hf & Ht & Hrest). by constructor.
      + intros H. inversion H as [|? ? ? ? [Hf Ht] Hrest]; subst. done. }
  destruct s as [fields|], s' as [fields'|]; simpl;
    unfold reordered_fields; try tauto.
  split.
  - intros (Hk & Ho & (fields'' & Hperm & Hfs) & Ha).
    repeat split; try done. exists fields''. split; [done|]. by apply Heach.
  - intros (Hk & Ho & (fields'' & Hperm & Hfs) & Ha).
    repeat split; try done. exists fields''. split; [done|]. by apply Heach.
Qed.

Lemma reordered_record_of (t t' : yema.Type_) :
  reordered t t' -> reordered_record (yema.TStruct t) (yema.TStruct t').
Proof.
  destruct t as [k o s a], t' as [k' o' s' a'].
  rewrite reordered_unfold. by intros (_ & _ & H & _).
Qed.

Lemma reordered_kind (t t' : yema.Type_) :
  reordered t t' -> yema.TKind t = yema.TKind t'.
Proof.
  destruct t as [k o s a], t' as [k' o' s' a'].
  rewrite reordered_unfold. by intros (H & _).
Qed.

Lemma reordered_elem (t t' : yema.Type_) :
  reordered t t' ->
  match yema.TArray t, yema.TArray t' with
  | Some elem, Some elem' => reordered elem elem'
  | None, None => True
  | _, _ => False
  end.
Proof.
  destruct t as [k o s a], t' as [k' o' s' a'].
  rewrite reordered_unfold. by intros (_ & _ & _ & H).
Qed.

(** The record a field asks for is the same in both runs, up to the order. *)
Lemma nested_record_reordered (t t' : yema.Type_) :
  reordered t t' ->
  match nested_record t, nested_record t' with
  | Some s, Some s' => reordered_record s s'
  | None, None => True
  | _, _ => False
  end.
Proof.
  intros H. pose proof (reordered_kind _ _ H) as Hk.
  pose proof (reordered_elem _ _ H) as Ha.
  pose proof (reordered_record_of _ _ H) as Hs.
  unfold nested_record. rewrite <- Hk.
  destruct (yema.TKind t); try done.
  destruct (yema.TArray t) as [elem|], (yema.TArray t') as [elem'|]; try done.
  rewrite <- (reordered_kind _ _ Ha).
  case_bool_decide; [|done]. by apply reordered_record_of.
Qed.

Lemma child_reordered (s s' : option (gomap yema.Type_)) :
  reordered_record s s' ->
  reordered (yema.mkType yema.Struct false s None)
    (yema.mkType yema.Struct false s' None).
Proof. intros H. by apply reordered_unfold. Qed.

(** The names of the records of a schema do not depend on the order of the
    fields, but for their own order. *)
Lemma field_names_reordered (t : yema.Type_) :
  forall t' parentName fieldName,
    reordered t t' ->
    field_names parentName fieldName t ≡ₚ field_names parentName fieldName t'.
Proof.
  induction t as [k o s a IHs IHa] using golang_facts.Type_ind'.
  intros [k' o' s' a'] parentName fieldName Hre.
  assert (forall name,
            reordered_record s s' ->
            match s with
            | Some fields => flat_map (fun kt => field_names name kt.1 kt.2) fields
            | None => []
            end
            ≡ₚ match s' with
               | Some fields => flat_map (fun kt => field_names name kt.1 kt.2) fields
               | None => []
               end) as Hunder.
  { clear Hre IHa. intros name. destruct s as [fields|], s' as [fields'|]; try done.
    intros (fields'' & Hperm & Hfs).
    rewrite (Permutation_flat_map _ Hperm). clear Hperm.
    induction Hfs as [|[f ft] [f'' ft''] fs fs'' [Hf Ht] Hfs IH]; [done|].
    inversion IHs as [|? ? Hhead Htail]; subst.
    simpl in Hf, Ht, Hhead. subst f''.
    change (field_names name f ft ++ flat_map (fun kt => field_names name kt.1 kt.2) fs
            ≡ₚ field_names name f ft''
               ++ flat_map (fun kt => field_names name kt.1 kt.2) fs'')%list.
    by rewrite (Hhead ft'' name f Ht), (IH Htail). }
  pose proof (proj1 (reordered_unfold _ _ _ _ _ _ _ _) Hre) as (<- & <- & Hs & Ha).
  destruct k; try done.
  - (* Array *)
    destruct a as [elem|], a' as [elem'|]; try done.
    specialize (IHa elem' parentName fieldName Ha).
    pose proof (reordered_kind _ _ Ha) as Hk.
    cbn [field_names yema.TKind yema.TArray].
    rewrite <- Hk.
    destruct elem as [ke oe se ae], elem' as [ke' oe' se' ae'].
    case_bool_decide as Hke; [|done].
    simpl in Hke, Hk. subst ke ke'. exact IHa.
  - (* Struct *)
    cbn [field_names yema.TKind yema.TStruct]. constructor. by apply Hunder.
Qed.

Lemma record_names_reordered (name : string) (s s' : option (gomap yema.Type_)) :
  reordered_record s s' -> record_names name s ≡ₚ record_names name s'.
Proof.
  intros H.
  pose proof (field_names_reordered (yema.mkType yema.Struct false s None)
                (yema.mkType yema.Struct false s' None) name ""
                (child_reordered _ _ H)) as Hperm.
  cbn [field_names yema.TKind yema.TStruct] in Hperm.
  apply Permutation_cons_inv in Hperm.
  unfold record_names. constructor.
  (* the names under [name ++ ""] are the names under [name] *)
  assert (name ++ toCamelCase "" = name) as Hname.
  { change (toCamelCase "") with "". clear.
    induction name as [|c name IH]; [done|].
    change (String c (name ++ "") = String c name). by rewrite IH. }
  by rewrite Hname in Hperm.
Qed.

(** ** Records with at most one nested record *)

Lemma children_nested_records (name : string) (fields : gomap yema.Type_) :
  length (children name fields) = length (nested_records fields).
Proof.
  unfold children, nested_records.
  induction fields as [|[f t] fields IH]; [done|].
  simpl. destruct (nested_record t); simpl; [f_equal|]; exact IH.
Qed.

Lemma unbranched_unfold k o s a :
  unbranched (yema.mkType k o s a)
  = match s with
    | Some fields =>
        (length (nested_records fields) <=? 1)%nat
        && forallb (fun kt => unbranched kt.2) fields
    | None => true
    end
    && match a with Some elem => unbranched elem | None => true end.
Proof.
  cbn [unbranched yema.TStruct yema.TArray].
  destruct s as [fields|]; [|done]. f_equal. f_equal.
  induction fields as [|[f t] fields IH]; [done|]. simpl. by rewrite IH.
Qed.

Lemma unbranched_child (t : yema.Type_) (s : option (gomap yema.Type_)) :
  unbranched t = true ->
  nested_record t = Some s ->
  unbranched (yema.mkType yema.Struct false s None) = true.
Proof.
  destruct t as [k o s0 a]. rewrite !unbranched_unfold.
  intros [Hs Ha]%andb_true_iff. unfold nested_record. simpl.
  destruct k; try done.
  - destruct a as [[ke oe se ae]|]; [|done]. simpl.
    case_bool_decide; [|done]. intros [= <-].
    rewrite unbranched_unfold in Ha. apply andb_true_iff in Ha as [Ha _].
    by rewrite Ha.
  - intros [= <-]. by rewrite Hs.
Qed.

(** The nested records of the fields, in the order of the fields, are the
    same in both runs, up to the order. *)
Lemma children_reordered (name : string) (fields fields' : gomap yema.Type_) :
  reordered_fields fields fields' ->
  exists nested'',
    children name fields' ≡ₚ nested'' /\
    Forall2 (fun c c'' => c.1 = c''.1 /\ reordered c.2 c''.2)
      (children name fields) nested''.
Proof.
  intros (fields'' & Hperm & Hfs). exists (children name fields''). split.
  - unfold children. by rewrite Hperm.
  - clear Hperm. unfold children.
    induction Hfs as [|[f ft] [f'' ft''] fs fs'' [Hf Ht] Hfs IH]; [constructor|].
    simpl in *. subst f''.
    pose proof (nested_record_reordered _ _ Ht) as Hn.
    destruct (nested_record ft) as [s|], (nested_record ft'') as [s''|]; try done.
    constructor; [|done]. split; [done|]. by apply child_reordered.
Qed.

Lemma children_unbranched (name : string) (fields : gomap yema.Type_) :
  forallb (fun kt => unbranched kt.2) fields = true ->
  Forall (fun c => unbranched c.2 = true) (children name fields).
Proof.
  unfold children. induction fields as [|[f t] fields IH]; simpl; [constructor|].
  intros [Ht Hfields]%andb_true_iff.
  destruct (nested_record t) as [s|] eqn:Hs; [|by apply IH].
  constructor; [|by apply IH]. simpl. by eapply unbranched_child.
Qed.

Lemma generateNested_nil
  (generate : yema.Type_ -> string -> state -> outcome state) (st : state) :
  generateNested generate [] st = Ok st.
Proof. reflexivity. Qed.

Lemma generateNested_singleton
  (generate : yema.Type_ -> string -> state -> outcome state)
  (name : string) (t : yema.Type_) (st st' : state) :
  generateNested generate [(name, t)] st = Ok st' -> generate t name st = Ok st'.
Proof. simpl. by destruct (generate t name st). Qed.

(** On a schema whose records ask for at most one nested record each, two
    runs that return have declared the same names in the same order. *)
Lemma generateStructs_unbranched (order1 order2 : RangeOrder yema.Type_)
  (fuel1 : nat) :
  forall fuel2 t t' structName st1 st2 st1' st2',
    structName <> "" ->
    reordered t t' ->
    unbranched t = true ->
    generatedStructs st1 = generatedStructs st2 ->
    declared (buf st1) = declared (buf st2) ->
    generateStructs order1 fuel1 t structName st1 = Ok st1' ->
    generateStructs order2 fuel2 t' structName st2 = Ok st2' ->
    generatedStructs st1' = generatedStructs st2' /\
    declared (buf st1') = declared (buf st2').
Proof.
  induction fuel1 as [|fuel1 IH];
    intros fuel2 t t' structName st1 st2 st1' st2' Hname Hre Hun Hvis Hdecl;
    [done|].
  destruct fuel2 as [|fuel2]; [done|].
  cbn [generateStructs].
  destruct (negb (bool_decide (yema.TKind t = yema.Struct))); [done|].
  destruct (negb (bool_decide (yema.TKind t' = yema.Struct))); [done|].
  rewrite <- Hvis.
  case_bool_decide as Hvisited.
  { by intros [= <-] [= <-]. }
  pose proof (reordered_record_of _ _ Hre) as Hs.
  destruct (yema.TStruct t) as [fields|] eqn:Hfields; [|done].
  destruct (yema.TStruct t') as [fields'|] eqn:Hfields'; [|done].
  cbv zeta.
  destruct (emitFields fields structName _ []) as [[s1 nested1]| | |] eqn:Hemit1;
    try done.
  destruct (emitFields fields' structName _ []) as [[s2 nested2]| | |] eqn:Hemit2;
    try done.
  (* the two maps of nested records *)
  destruct t as [k o s a]. simpl in Hfields. subst s.
  rewrite unbranched_unfold in Hun.
  apply andb_true_iff in Hun as [[Hcount Hbelow]%andb_true_iff _].
  apply Nat.leb_le in Hcount.
  rewrite <- (children_nested_records structName) in Hcount.
  destruct (children_reordered structName _ _ Hs) as (nested'' & Hperm & Hrel).
  pose proof (children_unbranched structName _ Hbelow) as Hchildren.
  pose proof (golang_facts.children_nonempty structName fields Hname) as Hnonempty.
  pose proof (Forall2_length _ _ _ Hrel) as Hlen.
  pose proof (Permutation_length Hperm) as Hlen'.
  pose proof Hemit1 as Hstate1. pose proof Hemit2 as Hstate2.
  apply golang_facts.emitFields_state in Hstate1 as (Hvis1 & lines1 & Hbuf1 & Hlines1).
  apply golang_facts.emitFields_state in Hstate2 as (Hvis2 & lines2 & Hbuf2 & Hlines2).
  simpl in Hvis1, Hbuf1, Hvis2, Hbuf2.
  apply golang_facts.emitFields_children in Hemit1; [|done|].
  2: { simpl. destruct (children structName fields) as [|c [|? ?]];
         [constructor|apply NoDup_singleton|simpl in Hcount; lia]. }
  apply golang_facts.emitFields_children in Hemit2; [|done|].
  2: { simpl. destruct (children structName fields') as [|c [|? ?]];
         [constructor|apply NoDup_singleton|simpl in Hlen'; lia]. }
  simpl in Hemit1, Hemit2. subst nested1 nested2.
  assert (generatedStructs (write TypeClose s1) = generatedStructs (write TypeClose s2))
    as Hvis'.
  { simpl. by rewrite Hvis1, Hvis2, Hvis. }
  assert (declared (buf (write TypeClose s1)) = declared (buf (write TypeClose s2)))
    as Hdecl'.
  { simpl. rewrite Hbuf1, Hbuf2, !golang_facts.declared_app, Hlines1, Hlines2, Hdecl.
    done. }
  destruct (children structName fields) as [|[n c] [|? ?]]; [| |simpl in Hcount; lia].
  - (* no nested record *)
    inversion Hrel; subst. apply Permutation_nil_r in Hperm. rewrite Hperm.
    rewrite !golang_facts.range_of_nil. by intros [= <-] [= <-].
  - (* one nested record *)
    inversion Hrel as [|? [n'' c''] ? ? [Hn Hc] Hrest]; subst.
    inversion Hrest; subst. simpl in Hn. subst n''.
    apply Permutation_singleton_r in Hperm. rewrite Hperm.
    rewrite !golang_facts.range_of_singleton.
    intros H1%generateNested_singleton H2%generateNested_singleton.
    inversion Hchildren as [|? ? Hunc _]; subst.
    inversion Hnonempty as [|? ? Hne _]; subst.
    by apply (IH fuel2 c c'' n _ _ st1' st2' Hne Hc Hunc Hvis' Hdecl').
Qed.

Lemma ToGolang_unbranched (order1 order2 : RangeOrder yema.Type_)
  (t t' : yema.Type_) (opts : Options) (b1 b2 : list chunk) :
  reordered t t' ->
  unbranched t = true ->
  ToGolang order1 (Some t) opts = Ok b1 ->
  ToGolang order2 (Some t') opts = Ok b2 ->
  declared b1 = declared b2.
Proof.
  intros Hre Hun. unfold ToGolang.
  destruct (negb _); [done|]. destruct (negb _); [done|]. cbv zeta.
  destruct (generateStructs order1 _ t _ _) as [st1'| | |] eqn:H1; try done.
  destruct (generateStructs order2 _ t' _ _) as [st2'| | |] eqn:H2; try done.
  intros [= <-] [= <-].
  eapply (generateStructs_unbranched order1 order2); [|exact Hre|exact Hun| | |exact H1|exact H2];
    [|done|done].
  by destruct (String.eqb_spec (RootType opts) "").
Qed.

Lemma ToGolang_reordered (order1 order2 : RangeOrder yema.Type_)
  (t t' : yema.Type_) (opts : Options) (b1 b2 : list chunk) :
  reordered t t' ->
  NoDup (record_names (root_name opts) (yema.TStruct t)) ->
  ToGolang order1 (Some t) opts = Ok b1 ->
  ToGolang order2 (Some t') opts = Ok b2 ->
  declared b1 ≡ₚ declared b2.
Proof.
  intros Hre Hnodup H1 H2.
  pose proof (record_names_reordered (root_name opts) _ _ (reordered_record_of _ _ Hre))
    as Hperm.
  apply golang_facts.ToGolang_names in H1; [|done].
  apply golang_facts.ToGolang_names in H2; [|by rewrite <- Hperm].
  by rewrite H1, H2.
Qed.

End walk_facts.

(** ** ASCII text *)

Module text_facts.

Import text_spec.

Lemma ToLower_ascii (c : ascii) :
  (N_of_ascii c <? 128)%N = true ->
  (N_of_ascii (rust.unicode_ToLower c) <? 128)%N = true.
Proof. by destruct c as [[] [] [] [] [] [] [] []]. Qed.

Lemma snake_ascii (s : string) (i : nat) :
  is_ascii s = true -> is_ascii (rust.snake s i) = true.
Proof.
  revert i. induction s as [|c s IH]; intros i; simpl; [done|].
  intros [Hc Hs]%andb_prop.
  destruct (rust.unicode_IsUpper c).
  - destruct (0 <? i)%nat; simpl; by rewrite ToLower_ascii, IH.
  - simpl. by rewrite Hc, IH.
Qed.

End text_facts.

(** * The claims *)

(** C1. [Validate] on a record-rooted schema returns the violations of all
    sibling fields of the outer record, each field giving at most one (so
    the result is empty exactly when no field gives one), while inside a
    nested array or a nested record the first violation ends the nested
    call: the result is that violation, whatever follows the failing element
    or field. *)
Theorem Validate_collects_siblings_nested_first_error (platform : Platform) :
  (forall data schema fields,
     yema.TStruct schema = Some fields ->
     validator.Validate platform data (Some schema)
     = flat_map (validator_spec.field_violations platform data) fields /\
     (validator.Validate platform data (Some schema) = [] <->
      Forall (fun field => validator_spec.field_violations platform data field = [])
        fields)) /\
  (forall data field,
     (length (validator_spec.field_violations platform data field) <= 1)%nat) /\
  (forall schema elemType path pre bad rest err,
     yema.TKind schema = yema.Array ->
     yema.TArray schema = Some elemType ->
     (forall j v, pre !! j = Some v ->
        validator.validateValue platform v elemType
          (path ++ "[" ++ validator.strconv_Itoa j ++ "]") = None) ->
     validator.validateValue platform bad elemType
       (path ++ "[" ++ validator.strconv_Itoa (length pre) ++ "]") = Some err ->
     validator.validateValue platform (VSlice (pre ++ bad :: rest)%list) schema path
     = Some err) /\
  (forall schema path mapValue pre bad rest err,
     yema.TKind schema = yema.Struct ->
     yema.TStruct schema = Some (pre ++ bad :: rest)%list ->
     (forall field, In field pre ->
        validator_spec.nested_field_check platform mapValue path field = None) ->
     validator_spec.nested_field_check platform mapValue path bad = Some err ->
     validator.validateValue platform (VMap mapValue) schema path = Some err).
Proof.
  split; [|split; [|split]].
  - intros data schema fields Hs.
    rewrite (validator_facts.Validate_collect platform data schema fields Hs).
    split; [done|]. clear Hs.
    induction fields as [|f fs IH]; simpl.
    + split; [constructor | done].
    + split.
      * intros [Hf Hfs]%app_eq_nil. constructor; [done|]. by apply IH.
      * intros H. inversion H as [|? ? Hf Hfs]; subst.
        rewrite Hf. simpl. by apply IH.
  - intros data field. unfold validator_spec.field_violations.
    destruct (map_get data field.1) as [v|].
    + destruct (validator.validateValue platform v field.2 field.1); simpl; lia.
    + destruct (yema.Optional field.2); simpl; lia.
  - intros schema elemType path pre bad rest err Hk Ha Hpre Hbad.
    rewrite (validator_facts.validateValue_array platform schema elemType) by done.
    by apply validator_facts.first_elem_error_stops.
  - intros schema path mapValue pre bad rest err Hk Hs Hpre Hbad.
    rewrite (validator_facts.validateValue_struct platform schema
               (pre ++ bad :: rest)%list) by done.
    by apply validator_facts.first_field_error_stops.
Qed.

Lemma Validate_collects_siblings_nested_first_error_witness :
  validator.Validate amd64 c1_data (Some c1_schema)
  = [validator.OutOfRange "level" "int8"; validator.OutOfRange "items[1]" "int8"] /\
  validator.validateValue amd64 (VSlice ([VInt 1] ++ VInt 300 :: [VInt 400])%list)
    (yema.mkType yema.Array false None
       (Some (yema.mkType yema.Int8 false None None))) "items"
  = Some (validator.OutOfRange "items[1]" "int8").
Proof.
  split.
  - pose proof (proj1 (Validate_collects_siblings_nested_first_error amd64)
                  c1_data c1_schema _ eq_refl) as [H _].
    rewrite H. reflexivity.
  - apply (proj1 (proj2 (proj2 (Validate_collects_siblings_nested_first_error amd64)))
             _ (yema.mkType yema.Int8 false None None)); try reflexivity.
    intros [|[|j]] v; simpl; [intros [= <-]; reflexivity | done..].
Defined.

(** C2, as it is stated, fails: whole numbers that reach a field of a signed
    integer kind as a [json.Number] with a zero fractional part, as a Go
    unsigned integer or as a [float32] are reported as "must be an
    integer". *)
Lemma int_kind_rejects_some_whole_numbers :
  validator.validateValue amd64 (VNumber "1.0") (scalar yema.Int) "n"
  = Some (validator.MustBeInteger "n") /\
  validator.validateValue amd64 (VUint8 5) (scalar yema.Int8) "n"
  = Some (validator.MustBeInteger "n") /\
  validator.validateValue amd64 (VUint64 9223372036854775808) (scalar yema.Int64) "n"
  = Some (validator.MustBeInteger "n") /\
  validator.validateValue amd64 (VFloat32 (S754_finite false 8388608 (-22)))
    (scalar yema.Int32) "n"
  = Some (validator.MustBeInteger "n").
Proof. repeat split. Qed.

(** C2, as the code has it.  On a field of a signed integer kind a value is
    taken as an integer when it is a Go signed integer, a [json.Number]
    whose text [strconv.ParseInt] reads as a base-10 [int64], or a
    [float64] [v] with [v == float64(int64(v))] (the float of every whole
    number below [2^53] in magnitude is, 5.5 is not); any other value that
    is not nil, a Go unsigned integer and a [float32] among them, is
    reported as "must be an integer".  An integer is then
    checked against [[-2^(n-1), 2^(n-1)-1]] for [int8], [int16] and
    [int32], where the bounds pass and the next values beyond them are out
    of range, and against nothing for [int64] and [int]. *)
Theorem int_kind_accepts_and_range_checks (platform : Platform)
  (schema : yema.Type_) (path : string) :
  numeric_spec.signed_kind (yema.TKind schema) = true ->
  (forall v z,
     numeric_spec.signed_value v = Some z ->
     validator.validateValue platform v schema path
     = numeric_spec.signed_range (yema.TKind schema) z path) /\
  (forall s,
     validator.validateValue platform (VNumber s) schema path
     = if (strconv_ParseInt s).2
       then numeric_spec.signed_range (yema.TKind schema) (strconv_ParseInt s).1 path
       else Some (validator.MustBeInteger path)) /\
  (forall f,
     validator.validateValue platform (VFloat64 f) schema path
     = if SFeqb f (float64_of_Z (validator.int64_of_float64 platform f))
       then numeric_spec.signed_range (yema.TKind schema)
              (validator.int64_of_float64 platform f) path
       else Some (validator.MustBeInteger path)) /\
  (forall z,
     - 2 ^ 53 < z < 2 ^ 53 ->
     validator.validateValue platform (VFloat64 (float64_of_Z z)) schema path
     = numeric_spec.signed_range (yema.TKind schema) z path) /\
  validator.validateValue platform (VFloat64 float64_five_and_half) schema path
  = Some (validator.MustBeInteger path) /\
  (forall v,
     v <> VNil ->
     numeric_spec.int_dynamic_type v = false ->
     validator.validateValue platform v schema path
     = Some (validator.MustBeInteger path)) /\
  (forall n,
     numeric_spec.checked_bits (yema.TKind schema) = Some n ->
     validator.validateValue platform (VInt64 (2 ^ (n - 1) - 1)) schema path = None /\
     validator.validateValue platform (VInt64 (2 ^ (n - 1))) schema path
     = Some (validator.OutOfRange path (numeric_spec.kind_name (yema.TKind schema))) /\
     validator.validateValue platform (VInt64 (- 2 ^ (n - 1))) schema path = None /\
     validator.validateValue platform (VInt64 (- 2 ^ (n - 1) - 1)) schema path
     = Some (validator.OutOfRange path (numeric_spec.kind_name (yema.TKind schema)))) /\
  (numeric_spec.checked_bits (yema.TKind schema) = None ->
   forall v z,
     numeric_spec.signed_value v = Some z ->
     validator.validateValue platform v schema path = None).
Proof.
  intros Hk.
  assert (Hsigned : forall v z,
     numeric_spec.signed_value v = Some z ->
     validator.validateValue platform v schema path
     = numeric_spec.signed_range (yema.TKind schema) z path).
  { intros v z Hv.
    rewrite numeric_facts.validateValue_int_kind by (done || by destruct v).
    by apply numeric_facts.validateIntValue_signed. }
  split; [done|].
  split.
  { intros s. rewrite numeric_facts.validateValue_int_kind by done.
    by apply numeric_facts.validateIntValue_number. }
  assert (Hfloat : forall f,
     validator.validateValue platform (VFloat64 f) schema path
     = if SFeqb f (float64_of_Z (validator.int64_of_float64 platform f))
       then numeric_spec.signed_range (yema.TKind schema)
              (validator.int64_of_float64 platform f) path
       else Some (validator.MustBeInteger path)).
  { intros f. rewrite numeric_facts.validateValue_int_kind by done.
    by apply numeric_facts.validateIntValue_float64. }
  split; [done|].
  split.
  { intros z Hz. rewrite numeric_facts.validateValue_int_kind by done.
    by apply numeric_facts.validateIntValue_whole_float. }
  split.
  { by rewrite Hfloat. }
  split.
  { intros v Hnil Hv. rewrite numeric_facts.validateValue_int_kind by done.
    by apply numeric_facts.validateIntValue_other. }
  split.
  { intros n Hn. rewrite !(Hsigned (VInt64 _) _ eq_refl).
    destruct schema as [k o s a]; simpl in *.
    unfold numeric_spec.signed_range.
    destruct k; simplify_eq/=; done. }
  intros Hn v z Hv. rewrite (Hsigned v z Hv).
  unfold numeric_spec.signed_range. by rewrite Hn.
Qed.

Lemma int_kind_accepts_and_range_checks_witness :
  validator.validateValue amd64 (VInt 127) (scalar yema.Int8) "level" = None /\
  validator.validateValue amd64 (VInt 128) (scalar yema.Int8) "level"
  = Some (validator.OutOfRange "level" "int8") /\
  validator.validateValue amd64 (VNumber "-129") (scalar yema.Int8) "level"
  = Some (validator.OutOfRange "level" "int8").
Proof.
  pose proof (int_kind_accepts_and_range_checks amd64 (scalar yema.Int8) "level"
                eq_refl) as (Hsigned & Hnumber & _).
  rewrite (Hsigned (VInt 127) 127 eq_refl), (Hsigned (VInt 128) 128 eq_refl).
  rewrite Hnumber. repeat split.
Defined.

(** C3, as it is stated, fails: whole numbers that reach a field of an
    unsigned integer kind as a [json.Number] with a zero fractional part or
    as a [float32] are reported as "must be a non-negative integer". *)
Lemma uint_kind_rejects_some_whole_numbers :
  validator.validateValue amd64 (VNumber "1.0") (scalar yema.Uint) "n"
  = Some (validator.MustBeNonNegativeInteger "n") /\
  validator.validateValue amd64 (VFloat32 (S754_finite false 8388608 (-22)))
    (scalar yema.Uint8) "n"
  = Some (validator.MustBeNonNegativeInteger "n").
Proof. repeat split. Qed.

(** C3, as the code has it.  On a field of an unsigned integer kind a value
    is taken as a non-negative integer when it is a Go unsigned integer, a
    Go signed integer that is not negative, a [json.Number] that
    [strconv.ParseInt] reads as a base-10 [int64] that is not negative, or a
    [float64] [v] with [v >= 0] and [v == float64(uint64(v))] (the float of
    every whole number from 0 to below [2^53] is).
    Every negative value of these types, every [json.Number] that is no
    integer literal, and every other value that is not nil, a [float32]
    among them, is reported as "must be a non-negative integer".  A
    non-negative integer is then checked against [[0, 2^n - 1]] for
    [uint8], [uint16] and [uint32], and against nothing for [uint64] and
    [uint]. *)
Theorem uint_kind_accepts_and_range_checks (platform : Platform)
  (schema : yema.Type_) (path : string) :
  numeric_spec.unsigned_kind (yema.TKind schema) = true ->
  (forall v z,
     numeric_spec.unsigned_value v = Some z ->
     validator.validateValue platform v schema path
     = numeric_spec.unsigned_range (yema.TKind schema) z path) /\
  (forall v z,
     numeric_spec.signed_value v = Some z ->
     validator.validateValue platform v schema path
     = if 0 <=? z then numeric_spec.unsigned_range (yema.TKind schema) z path
       else Some (validator.MustBeNonNegativeInteger path)) /\
  (forall s,
     (strconv_ParseInt s).2 = true ->
     validator.validateValue platform (VNumber s) schema path
     = if 0 <=? (strconv_ParseInt s).1
       then numeric_spec.unsigned_range (yema.TKind schema) (strconv_ParseInt s).1 path
       else Some (validator.MustBeNonNegativeInteger path)) /\
  (forall s,
     numeric_spec.int_literal s = false ->
     validator.validateValue platform (VNumber s) schema path
     = Some (validator.MustBeNonNegativeInteger path)) /\
  (forall f,
     validator.validateValue platform (VFloat64 f) schema path
     = if validator.float64_nonneg f
          && SFeqb f (float64_of_Z (validator.uint64_of_float64 platform f))
       then numeric_spec.unsigned_range (yema.TKind schema)
              (validator.uint64_of_float64 platform f) path
       else Some (validator.MustBeNonNegativeInteger path)) /\
  (forall f,
     SFltb f (S754_zero false) = true ->
     validator.validateValue platform (VFloat64 f) schema path
     = Some (validator.MustBeNonNegativeInteger path)) /\
  (forall z,
     0 <= z < 2 ^ 53 ->
     validator.validateValue platform (VFloat64 (float64_of_Z z)) schema path
     = numeric_spec.unsigned_range (yema.TKind schema) z path) /\
  (forall v,
     v <> VNil ->
     numeric_spec.uint_dynamic_type v = false ->
     validator.validateValue platform v schema path
     = Some (validator.MustBeNonNegativeInteger path)) /\
  (forall n,
     numeric_spec.checked_bits (yema.TKind schema) = Some n ->
     validator.validateValue platform (VUint64 0) schema path = None /\
     validator.validateValue platform (VUint64 (2 ^ n - 1)) schema path = None /\
     validator.validateValue platform (VUint64 (2 ^ n)) schema path
     = Some (validator.OutOfRange path (numeric_spec.kind_name (yema.TKind schema)))) /\
  (numeric_spec.checked_bits (yema.TKind schema) = None ->
   forall v z,
     numeric_spec.unsigned_value v = Some z ->
     validator.validateValue platform v schema path = None).
Proof.
  intros Hk.
  assert (Hunsigned : forall v z,
     numeric_spec.unsigned_value v = Some z ->
     validator.validateValue platform v schema path
     = numeric_spec.unsigned_range (yema.TKind schema) z path).
  { intros v z Hv.
    rewrite numeric_facts.validateValue_uint_kind by (done || by destruct v).
    by apply numeric_facts.validateUintValue_unsigned. }
  assert (Hnumber : forall s,
     validator.validateValue platform (VNumber s) schema path
     = if (0 <=? (strconv_ParseInt s).1) && (strconv_ParseInt s).2
       then numeric_spec.unsigned_range (yema.TKind schema) (strconv_ParseInt s).1 path
       else Some (validator.MustBeNonNegativeInteger path)).
  { intros s. rewrite numeric_facts.validateValue_uint_kind by done.
    by apply numeric_facts.validateUintValue_number. }
  assert (Hfloat : forall f,
     validator.validateValue platform (VFloat64 f) schema path
     = if validator.float64_nonneg f
          && SFeqb f (float64_of_Z (validator.uint64_of_float64 platform f))
       then numeric_spec.unsigned_range (yema.TKind schema)
              (validator.uint64_of_float64 platform f) path
       else Some (validator.MustBeNonNegativeInteger path)).
  { intros f. rewrite numeric_facts.validateValue_uint_kind by done.
    by apply numeric_facts.validateUintValue_float64. }
  split; [done|].
  split.
  { intros v z Hv.
    rewrite numeric_facts.validateValue_uint_kind by (done || by destruct v).
    by apply numeric_facts.validateUintValue_signed. }
  split.
  { intros s Hok. rewrite Hnumber, Hok, andb_true_r. done. }
  split.
  { intros s Hlit. rewrite Hnumber.
    destruct (strconv_ParseInt s).2 eqn:Hok; [|by rewrite andb_false_r].
    apply numeric_facts.strconv_ParseInt_ok in Hok as [Hok _]. congruence. }
  split; [done|].
  split.
  { intros f Hneg. rewrite Hfloat.
    by rewrite (numeric_facts.negative_float_not_nonneg f Hneg). }
  split.
  { intros z Hz. rewrite numeric_facts.validateValue_uint_kind by done.
    by apply numeric_facts.validateUintValue_whole_float. }
  split.
  { intros v Hnil Hv. rewrite numeric_facts.validateValue_uint_kind by done.
    by apply numeric_facts.validateUintValue_other. }
  split.
  { intros n Hn. rewrite !(Hunsigned (VUint64 _) _ eq_refl).
    destruct schema as [k o s a]; simpl in *.
    unfold numeric_spec.unsigned_range.
    destruct k; simplify_eq/=; done. }
  intros Hn v z Hv. rewrite (Hunsigned v z Hv).
  unfold numeric_spec.unsigned_range. by rewrite Hn.
Qed.

Lemma uint_kind_accepts_and_range_checks_witness :
  validator.validateValue amd64 (VUint64 255) (scalar yema.Uint8) "count" = None /\
  validator.validateValue amd64 (VInt 256) (scalar yema.Uint8) "count"
  = Some (validator.OutOfRange "count" "uint8") /\
  validator.validateValue amd64 (VInt (-1)) (scalar yema.Uint8) "count"
  = Some (validator.MustBeNonNegativeInteger "count").
Proof.
  pose proof (uint_kind_accepts_and_range_checks amd64 (scalar yema.Uint8) "count"
                eq_refl) as (Hunsigned & Hsigned & _).
  rewrite (Hunsigned (VUint64 255) 255 eq_refl).
  rewrite (Hsigned (VInt 256) 256 eq_refl), (Hsigned (VInt (-1)) (-1) eq_refl).
  repeat split.
Defined.

(** C4. A value that is present and nil is accepted, with no further check,
    when the field is optional, and is a nil-not-optional violation at the
    path of the field when the field is required; a key that is absent gives
    the required-field-missing violation instead. *)
Theorem nil_value_accepted_iff_optional (platform : Platform) :
  (forall schema path,
     validator.validateValue platform VNil schema path
     = if yema.Optional schema then None
       else Some (validator.NilNotOptional path)) /\
  (forall data fieldName fieldType,
     map_get data fieldName = Some VNil ->
     validator_spec.field_violations platform data (fieldName, fieldType)
     = if yema.Optional fieldType then []
       else [validator.NilNotOptional fieldName]) /\
  (forall data fieldName fieldType,
     map_get data fieldName = None ->
     validator_spec.field_violations platform data (fieldName, fieldType)
     = if yema.Optional fieldType then []
       else [validator.RequiredFieldMissing fieldName]) /\
  (forall data schema pre fieldName fieldType rest,
     yema.TStruct schema = Some (pre ++ (fieldName, fieldType) :: rest)%list ->
     map_get data fieldName = Some VNil ->
     validator.Validate platform data (Some schema)
     = (flat_map (validator_spec.field_violations platform data) pre
        ++ (if yema.Optional fieldType then []
            else [validator.NilNotOptional fieldName])
        ++ flat_map (validator_spec.field_violations platform data) rest)%list).
Proof.
  assert (Hnil : forall schema path,
     validator.validateValue platform VNil schema path
     = if yema.Optional schema then None
       else Some (validator.NilNotOptional path)).
  { intros [k o s a] path. reflexivity. }
  assert (Hfield : forall data fieldName fieldType,
     map_get data fieldName = Some VNil ->
     validator_spec.field_violations platform data (fieldName, fieldType)
     = if yema.Optional fieldType then []
       else [validator.NilNotOptional fieldName]).
  { intros data f t H. unfold validator_spec.field_violations. simpl.
    rewrite H, Hnil. by destruct (yema.Optional t). }
  repeat split; try done.
  - intros data f t H. unfold validator_spec.field_violations. simpl.
    by rewrite H.
  - intros data schema pre f t rest Hs H.
    rewrite (validator_facts.Validate_collect platform data schema _ Hs).
    rewrite flat_map_app. simpl. by rewrite (Hfield data f t H).
Qed.

Lemma nil_value_accepted_iff_optional_witness :
  validator.Validate amd64 [("name", VNil); ("nick", VNil)] (Some c4_schema)
  = [validator.NilNotOptional "name"].
Proof.
  exact (proj2 (proj2 (proj2 (nil_value_accepted_iff_optional amd64)))
           [("name", VNil); ("nick", VNil)] c4_schema [] "name"
           (yema.mkType yema.String false None None)
           [("nick", yema.mkType yema.String true None None)]
           eq_refl eq_refl).
Defined.

(** C5. A field declared as a sequence needs exactly one element: the empty
    sequence is refused for a missing element type, two or more elements are
    refused as ambiguous, and one element is built, with the optional flag
    off, as the element schema of an array that carries the optional flag of
    the field. *)
Theorem array_needs_exactly_one_element (fieldName : string) (isOptional : bool) :
  parser.parseValueToType fieldName (VSlice []) isOptional
  = parser.Err (parser.MissingArrayElementType fieldName) /\
  (forall first second others,
     parser.parseValueToType fieldName (VSlice (first :: second :: others)) isOptional
     = parser.Err (parser.AmbiguousArrayElementType fieldName)) /\
  (forall item,
     parser.parseValueToType fieldName (VSlice [item]) isOptional
     = match parser.parseValueToType fieldName item false with
       | parser.Ok itemType =>
           parser.Ok (yema.mkType yema.Array isOptional None (Some itemType))
       | parser.Err err => parser.Err err
       end) /\
  (forall item t,
     parser.parseValueToType fieldName (VSlice [item]) isOptional = parser.Ok t ->
     yema.TKind t = yema.Array /\
     yema.Optional t = isOptional /\
     exists itemType,
       yema.TArray t = Some itemType /\
       parser.parseValueToType fieldName item false = parser.Ok itemType /\
       yema.Optional itemType = false) /\
  (forall key others,
     parser.isValidFieldName (parser_spec.field_of_key key) = true ->
     parser.From ((key, VSlice []) :: others)
     = parser.Err (parser.MissingArrayElementType (parser_spec.field_of_key key))) /\
  (forall key first second more others,
     parser.isValidFieldName (parser_spec.field_of_key key) = true ->
     parser.From ((key, VSlice (first :: second :: more)) :: others)
     = parser.Err (parser.AmbiguousArrayElementType (parser_spec.field_of_key key))).
Proof.
  split; [done|]. split; [done|]. split.
  { intros item. simpl.
    by destruct (parser.parseValueToType fieldName item false). }
  split.
  { intros item t. simpl.
    destruct (parser.parseValueToType fieldName item false) as [itemType|] eqn:H;
      [|done].
    intros [= <-]. simpl. repeat split. exists itemType. repeat split.
    by apply parser_facts.parseValueToType_optional in H. }
  split.
  - intros key others Hvalid. rewrite parser_facts.From_fields. simpl.
    by rewrite Hvalid.
  - intros key first second more others Hvalid.
    rewrite parser_facts.From_fields. simpl. by rewrite Hvalid.
Qed.

Lemma array_needs_exactly_one_element_witness :
  parser.From [("tags?", VSlice [])]
  = parser.Err (parser.MissingArrayElementType "tags") /\
  parser.From [("tags?", VSlice [VString "string"; VString "int"])]
  = parser.Err (parser.AmbiguousArrayElementType "tags") /\
  yema.Optional (yema.mkType yema.Array true None
                   (Some (yema.mkType yema.String false None None))) = true.
Proof.
  pose proof (array_needs_exactly_one_element "tags" true)
    as (_ & _ & _ & Hone & Hnone & Hmany).
  split; [exact (Hnone "tags?" [] eq_refl)|].
  split; [exact (Hmany "tags?" (VString "string") (VString "int") [] [] eq_refl)|].
  exact (proj1 (proj2 (Hone (VString "string") _ eq_refl))).
Defined.

(** C6. On the schema [{addresses: [{street: string, city: string}]}] with
    root name [R] the walk, of the Go generator and of the TypeScript
    generator alike, declares exactly [R] and [R + "Addresses"]; and in
    general the nested record of a field, be the field a record or an array
    of records, gets the name [ParentName + toCamelCase(fieldName)], so that
    a run on a schema whose records get distinct names declares exactly
    these names, where [toCamelCase] drops every underscore, hyphen and
    space and, on a word of ASCII characters, capitalizes the first letter
    of the word and leaves the rest of it as it is. *)
Theorem nested_records_named_parent_plus_field (order : RangeOrder yema.Type_) :
  (forall R street_first,
     exists st',
       golang.generateStructs order (yema.depth (addresses_schema street_first))
         (addresses_schema street_first) R (golang.mkState [] ∅) = golang.Ok st' /\
       golang.declared (golang.buf st') = [R; R ++ "Addresses"]) /\
  (forall opts street_first,
     golang_spec.declared_names
       (golang.ToGolang order (Some (addresses_schema street_first)) opts)
     = [golang_spec.root_name opts; golang_spec.root_name opts ++ "Addresses"]) /\
  (forall opts street_first,
     typescript_spec.declared_names
       (typescript.ToTypeScript order (Some (addresses_schema street_first)) opts)
     = [golang_spec.root_name (golang.mkOptions "" (typescript.RootType opts));
        golang_spec.root_name (golang.mkOptions "" (typescript.RootType opts)) ++ "Addresses"]) /\
  (forall t opts b,
     NoDup (golang_spec.record_names (golang_spec.root_name opts) (yema.TStruct t)) ->
     golang.ToGolang order (Some t) opts = golang.Ok b ->
     golang.declared b
     ≡ₚ golang_spec.record_names (golang_spec.root_name opts) (yema.TStruct t)) /\
  (forall t opts b,
     NoDup (golang_spec.record_names
              (golang_spec.root_name (golang.mkOptions "" (typescript.RootType opts)))
              (yema.TStruct t)) ->
     typescript.ToTypeScript order (Some t) opts = golang.Ok b ->
     typescript.declared b
     ≡ₚ golang_spec.record_names
          (golang_spec.root_name (golang.mkOptions "" (typescript.RootType opts)))
          (yema.TStruct t)) /\
  (forall t parentName fieldName goType nested,
     golang.typeToGoType t parentName fieldName = golang.Ok (goType, nested) ->
     yema.TKind t = yema.Struct \/
     yema.TKind t = yema.Array /\
     (exists elem, yema.TArray t = Some elem /\ yema.TKind elem = yema.Struct) ->
     nested = parentName ++ golang.toCamelCase fieldName) /\
  (forall t parentName fieldName tsType nested,
     typescript.typeToTypeScriptType t parentName fieldName
     = golang.Ok (tsType, nested) ->
     yema.TKind t = yema.Struct \/
     yema.TKind t = yema.Array /\
     (exists elem, yema.TArray t = Some elem /\ yema.TKind elem = yema.Struct) ->
     nested = parentName ++ typescript.toCamelCase fieldName) /\
  (forall fields structName st st' nested name,
     golang.emitFields fields structName st [] = golang.Ok (st', nested) ->
     In name (map_keys nested) ->
     golang_spec.names_nested_record structName fields name) /\
  (forall s, typescript.toCamelCase s = golang.toCamelCase s) /\
  golang.toCamelCase "" = "" /\
  (forall a b sep,
     golang.is_separator sep = true ->
     golang.toCamelCase (a ++ String sep b)
     = golang.toCamelCase a ++ golang.toCamelCase b) /\
  (forall c word,
     text_spec.is_ascii (String c word) = true ->
     golang.is_separator c = false ->
     golang_spec.no_separator word = true ->
     golang.toCamelCase (String c word) = String (golang.unicode_ToUpper c) word) /\
  (forall s, golang_spec.no_separator (golang.toCamelCase s) = true) /\
  golang.toCamelCase "zip_code-of home" = "ZipCodeOfHome".
Proof.
  assert (Hgo : forall opts street_first,
     golang_spec.declared_names
       (golang.ToGolang order (Some (addresses_schema street_first)) opts)
     = [golang_spec.root_name opts; golang_spec.root_name opts ++ "Addresses"]).
  { intros opts street_first. unfold golang.ToGolang, golang_spec.root_name.
    assert (Hkind : negb (bool_decide
                      (yema.TKind (addresses_schema street_first) = yema.Struct))
                    = false) by done.
    rewrite Hkind. cbv zeta.
    match goal with
    | |- context [golang.generateStructs _ _ _ ?R ?st] =>
        destruct (addresses_walk order R street_first st eq_refl)
          as (st' & Hwalk & Hdeclared)
    end.
    rewrite Hwalk. simpl. by rewrite Hdeclared. }
  split.
  { intros R street_first.
    destruct (addresses_walk order R street_first (golang.mkState [] ∅) eq_refl)
      as (st' & Hwalk & Hdeclared).
    exists st'. by split. }
  split; [exact Hgo|].
  split.
  { intros opts street_first.
    rewrite (typescript_facts.declared_names_same order _ opts "").
    apply Hgo. }
  split; [apply golang_facts.ToGolang_names|].
  split; [apply typescript_facts.ToTypeScript_names|].
  split.
  { intros t parentName fieldName goType nested Hty [Hk|(Hk & elem & Ha & He)].
    - by eapply golang_facts.typeToGoType_struct.
    - by eapply golang_facts.typeToGoType_array_of_struct. }
  split; [apply typescript_facts.typeToTypeScriptType_nested|].
  split.
  { intros fields structName st st' nested name Hemit Hname.
    by destruct (golang_facts.emitFields_keys _ _ _ _ _ _ _ Hemit Hname). }
  split.
  { intros s. apply typescript_facts.camel_same. }
  split; [done|].
  split.
  { intros a b sep Hsep. by apply golang_facts.camel_boundary. }
  split.
  { intros c word _ Hc Hword. unfold golang.toCamelCase. simpl.
    by rewrite Hc, golang_facts.camel_word. }
  split; [|done].
  intros s. apply golang_facts.camel_no_separator.
Qed.

Lemma nested_records_named_parent_plus_field_witness :
  golang_spec.names_nested_record "Person"
    [("home_address", yema.mkType yema.Struct false (Some []) None)]
    "PersonHomeAddress" /\
  golang.toCamelCase "address" = "Address".
Proof.
  split.
  - eapply (proj1 (proj2 (proj2 (proj2 (proj2 (proj2 (proj2 (proj2
              (nested_records_named_parent_plus_field (insertion_order _)))))))))
             [("home_address", yema.mkType yema.Struct false (Some []) None)]
             "Person" (golang.mkState [] ∅)).
    + vm_compute. reflexivity.
    + left. reflexivity.
  - apply (proj1 (proj2 (proj2 (proj2 (proj2 (proj2 (proj2 (proj2 (proj2 (proj2
             (proj2 (proj2
               (nested_records_named_parent_plus_field (insertion_order _)))))))))))))
             "a"%char "ddress"); reflexivity.
Defined.

(** C7. The walk keeps the set of the names it has declared and declares no
    name twice: from a state in which the declared names are distinct and
    all in the set, a call that returns leaves such a state, so the output
    of [ToGolang] has no two declarations of one name; and a call for a name
    that is in the set returns at once, with no error and no output,
    whatever record it was called for. *)
Theorem walk_declares_each_name_once (order : RangeOrder yema.Type_) :
  (forall fuel t structName st st',
     NoDup (golang.declared (golang.buf st)) ->
     (forall n, n ∈ golang.declared (golang.buf st) -> n ∈ golang.generatedStructs st) ->
     golang.generateStructs order fuel t structName st = golang.Ok st' ->
     NoDup (golang.declared (golang.buf st')) /\
     (forall n, n ∈ golang.declared (golang.buf st') ->
                n ∈ golang.generatedStructs st')) /\
  (forall t opts b,
     golang.ToGolang order t opts = golang.Ok b -> NoDup (golang.declared b)) /\
  (forall t opts b,
     typescript.ToTypeScript order t opts = golang.Ok b ->
     NoDup (typescript.declared b)) /\
  (forall fuel t structName st,
     yema.TKind t = yema.Struct ->
     structName ∈ golang.generatedStructs st ->
     golang.generateStructs order (S fuel) t structName st = golang.Ok st) /\
  (forall fuel t typeName st opts,
     yema.TKind t = yema.Struct ->
     typeName ∈ typescript.generatedTypes st ->
     typescript.generateInterfaces order (S fuel) t typeName st opts = golang.Ok st) /\
  (forall t opts, golang.ToGolang order t opts <> golang.OutOfFuel) /\
  (forall t opts, typescript.ToTypeScript order t opts <> golang.OutOfFuel).
Proof.
  split; [apply golang_facts.generateStructs_distinct|].
  split; [apply golang_facts.ToGolang_distinct|].
  split; [apply typescript_facts.ToTypeScript_distinct|].
  split.
  { intros fuel t structName st Hk Hin. simpl. rewrite Hk.
    rewrite bool_decide_eq_true_2 by done. simpl.
    by rewrite bool_decide_eq_true_2. }
  split.
  { intros fuel t typeName st opts Hk Hin. simpl. rewrite Hk.
    rewrite bool_decide_eq_true_2 by done. simpl.
    by rewrite bool_decide_eq_true_2. }
  split; [apply golang_facts.ToGolang_returns|].
  apply typescript_facts.ToTypeScript_returns.
Qed.

Lemma walk_declares_each_name_once_witness :
  exists b,
    golang.ToGolang (insertion_order _) (Some colliding_schema)
      (golang.mkOptions "" "") = golang.Ok b /\
    golang.declared b = ["Root"; "RootA"; "RootABC"; "RootAB"] /\
    NoDup (golang.declared b).
Proof.
  eexists. split; [vm_compute; reflexivity|]. split; [reflexivity|].
  eapply (proj1 (proj2 (walk_declares_each_name_once (insertion_order _)))
            (Some colliding_schema) (golang.mkOptions "" "")).
  vm_compute. reflexivity.
Defined.

(** C8, as it is stated, fails: on the same schema and root name, two runs
    that range over the map of nested structs in different orders declare
    the structs in different orders. *)
Lemma walk_order_varies_with_range_order :
  golang_spec.declared_names
    (golang.ToGolang (insertion_order _) (Some two_records_schema)
       (golang.mkOptions "" "R"))
  = ["R"; "RA"; "RB"] /\
  golang_spec.declared_names
    (golang.ToGolang (reverse_order _) (Some two_records_schema)
       (golang.mkOptions "" "R"))
  = ["R"; "RB"; "RA"] /\
  typescript_spec.declared_names
    (typescript.ToTypeScript (insertion_order _) (Some two_records_schema)
       (typescript.mkOptions "" "R" true true))
  = ["R"; "RA"; "RB"] /\
  typescript_spec.declared_names
    (typescript.ToTypeScript (reverse_order _) (Some two_records_schema)
       (typescript.mkOptions "" "R" true true))
  = ["R"; "RB"; "RA"].
Proof. repeat split; vm_compute; reflexivity. Qed.

(** C8, as the code has it.  A run that returns has declared the root
    first.  Between two runs on the same schema and root name, the fields
    of every record and the map of nested records may be ranged over in
    other orders: when no two records of the schema get the same name, two
    runs that return have declared the same names, in orders that may
    differ; when no record has two fields that ask for a nested record,
    they have declared the same names in the same order.  The walk always
    ends. *)
Theorem walk_is_determined_by_range_order :
  (forall order t opts b,
     golang.ToGolang order t opts = golang.Ok b ->
     exists rest, golang.declared b = golang_spec.root_name opts :: rest) /\
  (forall order t opts b,
     typescript.ToTypeScript order t opts = golang.Ok b ->
     exists rest,
       typescript.declared b
       = (if String.eqb (typescript.RootType opts) "" then "Root"
          else typescript.RootType opts) :: rest) /\
  (forall order1 order2 t t' opts b1 b2,
     walk_spec.reordered t t' ->
     NoDup (golang_spec.record_names (golang_spec.root_name opts) (yema.TStruct t)) ->
     golang.ToGolang order1 (Some t) opts = golang.Ok b1 ->
     golang.ToGolang order2 (Some t') opts = golang.Ok b2 ->
     golang.declared b1 ≡ₚ golang.declared b2) /\
  (forall order1 order2 t t' opts b1 b2,
     walk_spec.reordered t t' ->
     NoDup (golang_spec.record_names
              (golang_spec.root_name (golang.mkOptions "" (typescript.RootType opts)))
              (yema.TStruct t)) ->
     typescript.ToTypeScript order1 (Some t) opts = golang.Ok b1 ->
     typescript.ToTypeScript order2 (Some t') opts = golang.Ok b2 ->
     typescript.declared b1 ≡ₚ typescript.declared b2) /\
  (forall order1 order2 t t' opts b1 b2,
     walk_spec.reordered t t' ->
     walk_spec.unbranched t = true ->
     golang.ToGolang order1 (Some t) opts = golang.Ok b1 ->
     golang.ToGolang order2 (Some t') opts = golang.Ok b2 ->
     golang.declared b1 = golang.declared b2) /\
  (forall order1 order2 t t' opts b1 b2,
     walk_spec.reordered t t' ->
     walk_spec.unbranched t = true ->
     typescript.ToTypeScript order1 (Some t) opts = golang.Ok b1 ->
     typescript.ToTypeScript order2 (Some t') opts = golang.Ok b2 ->
     typescript.declared b1 = typescript.declared b2) /\
  (forall order t opts, golang.ToGolang order t opts <> golang.OutOfFuel) /\
  (forall order t opts, typescript.ToTypeScript order t opts <> golang.OutOfFuel).
Proof.
  split; [apply golang_facts.ToGolang_root_first|].
  split; [apply typescript_facts.ToTypeScript_root_first|].
  split; [apply walk_facts.ToGolang_reordered|].
  split.
  { intros order1 order2 t t' opts b1 b2 Hre Hnodup H1 H2.
    apply typescript_facts.ToTypeScript_declared in H1 as (g1 & H1 & ->).
    apply typescript_facts.ToTypeScript_declared in H2 as (g2 & H2 & ->).
    by eapply walk_facts.ToGolang_reordered. }
  split; [apply walk_facts.ToGolang_unbranched|].
  split.
  { intros order1 order2 t t' opts b1 b2 Hre Hun H1 H2.
    apply typescript_facts.ToTypeScript_declared in H1 as (g1 & H1 & ->).
    apply typescript_facts.ToTypeScript_declared in H2 as (g2 & H2 & ->).
    by eapply walk_facts.ToGolang_unbranched. }
  split; [apply golang_facts.ToGolang_returns|].
  apply typescript_facts.ToTypeScript_returns.
Qed.

Lemma walk_is_determined_by_range_order_witness :
  golang.declared
    [golang.PackageClause "generated";
     golang.DocComment "R"; golang.TypeOpen "R";
     golang.FieldLine "A" "RA" "a"; golang.FieldLine "B" "RB" "b"; golang.TypeClose;
     golang.DocComment "RA"; golang.TypeOpen "RA"; golang.TypeClose;
     golang.DocComment "RB"; golang.TypeOpen "RB"; golang.TypeClose]
  ≡ₚ golang.declared
       [golang.PackageClause "generated";
        golang.DocComment "R"; golang.TypeOpen "R";
        golang.FieldLine "B" "RB" "b"; golang.FieldLine "A" "RA" "a"; golang.TypeClose;
        golang.DocComment "RA"; golang.TypeOpen "RA"; golang.TypeClose;
        golang.DocComment "RB"; golang.TypeOpen "RB"; golang.TypeClose] /\
  golang.declared
    [golang.PackageClause "generated";
     golang.DocComment "R"; golang.TypeOpen "R";
     golang.FieldLine "Addresses" "[]RAddresses" "addresses"; golang.TypeClose;
     golang.DocComment "RAddresses"; golang.TypeOpen "RAddresses";
     golang.FieldLine "Street" "string" "street";
     golang.FieldLine "City" "string" "city"; golang.TypeClose]
  = golang.declared
      [golang.PackageClause "generated";
       golang.DocComment "R"; golang.TypeOpen "R";
       golang.FieldLine "Addresses" "[]RAddresses" "addresses"; golang.TypeClose;
       golang.DocComment "RAddresses"; golang.TypeOpen "RAddresses";
       golang.FieldLine "City" "string" "city";
       golang.FieldLine "Street" "string" "street"; golang.TypeClose].
Proof.
  split.
  - apply (proj1 (proj2 (proj2 walk_is_determined_by_range_order))
             (insertion_order _) (reverse_order _)
             two_records_schema
             (yema.mkType yema.Struct false
                (Some [("b", yema.mkType yema.Struct false (Some []) None);
                       ("a", yema.mkType yema.Struct false (Some []) None)])
                None)
             (golang.mkOptions "" "R")).
    + repeat split.
      exists [("a", yema.mkType yema.Struct false (Some []) None);
              ("b", yema.mkType yema.Struct false (Some []) None)].
      split; [apply perm_swap|]. repeat split; by exists [].
    + apply (bool_decide_unpack _). vm_compute. exact I.
    + vm_compute. reflexivity.
    + vm_compute. reflexivity.
  - apply (proj1 (proj2 (proj2 (proj2 (proj2 walk_is_determined_by_range_order))))
             (insertion_order _) (reverse_order _)
             (addresses_schema true) (addresses_schema false)
             (golang.mkOptions "" "R")).
    + repeat split.
      exists [("addresses",
               yema.mkType yema.Array false None
                 (Some (yema.mkType yema.Struct false
                          (Some [("city", scalar yema.String);
                                 ("street", scalar yema.String)]) None)))].
      split; [done|]. repeat split.
      exists [("street", scalar yema.String); ("city", scalar yema.String)].
      split; [apply perm_swap|]. repeat split.
    + vm_compute. reflexivity.
    + vm_compute. reflexivity.
    + vm_compute. reflexivity.
Defined.

(** C9, as it is stated, fails: neither component has a depth cap.  Data
    and a schema nested a hundred deep get no error; and with a stack that
    has room for a thousand activations, a schema and data nested a
    thousand deep end in a stack overflow, not in an error, while those
    nested one level less are accepted. *)
Lemma deep_nesting_is_not_refused :
  parser.From [("deep", parser_spec.nested_array_raw 100)]
  = parser.Ok
      (yema.mkType yema.Struct false
         (Some [("deep", parser_spec.nested_array_type 100 false)]) None) /\
  validator.Validate amd64 [("deep", parser_spec.nested_array_data 100)]
    (Some (yema.mkType yema.Struct false
             (Some [("deep", parser_spec.nested_array_type 100 false)]) None))
  = [] /\
  stack.parseValueToType 1000 "deep" (parser_spec.nested_array_raw 999) false
  = stack.Returned (parser.Ok (parser_spec.nested_array_type 999 false)) /\
  stack.parseValueToType 1000 "deep" (parser_spec.nested_array_raw 1000) false
  = stack.StackOverflow /\
  stack.validateValue amd64 1000 (parser_spec.nested_array_data 999)
    (parser_spec.nested_array_type 999 false) "deep"
  = stack.Returned None /\
  stack.validateValue amd64 1000 (parser_spec.nested_array_data 1000)
    (parser_spec.nested_array_type 1000 false) "deep"
  = stack.StackOverflow.
Proof.
  split; [vm_compute; reflexivity|].
  split; [vm_compute; reflexivity|].
  rewrite !stack_facts.parse_nested_array, !stack_facts.validate_nested_array.
  repeat split.
Qed.

(** C9, as the code has it.  The builder and the validator have no depth
    cap and no error for a depth that is exceeded: each level of nesting
    costs one more nested call, and that is all.  Whatever a call returns
    with a bounded stack is what the function returns; a stack with room
    for the nesting of the value, or for the depth of the schema, is
    enough for the call to return; and for every [n] and every size of the
    stack, a schema of [n] nested arrays or records, and data nested as
    deep, are accepted when the stack has room for more than [n]
    activations and end in a stack overflow when it has not. *)
Theorem nesting_depth_is_not_capped (platform : Platform) (frames n : nat)
  (fieldName path : string) :
  (forall v isOptional r,
     stack.parseValueToType frames fieldName v isOptional = stack.Returned r ->
     r = parser.parseValueToType fieldName v isOptional) /\
  (forall v schema r,
     stack.validateValue platform frames v schema path = stack.Returned r ->
     r = validator.validateValue platform v schema path) /\
  (forall v isOptional,
     (stack_spec.nesting v <= frames)%nat ->
     stack.parseValueToType frames fieldName v isOptional
     = stack.Returned (parser.parseValueToType fieldName v isOptional)) /\
  (forall v schema,
     (yema.depth schema <= frames)%nat ->
     stack.validateValue platform frames v schema path
     = stack.Returned (validator.validateValue platform v schema path)) /\
  stack.parseValueToType frames fieldName (parser_spec.nested_array_raw n) false
  = (if (n <? frames)%nat
     then stack.Returned (parser.Ok (parser_spec.nested_array_type n false))
     else stack.StackOverflow) /\
  stack.parseValueToType frames fieldName (parser_spec.nested_record_raw n) false
  = (if (n <? frames)%nat
     then stack.Returned (parser.Ok (parser_spec.nested_record_type n))
     else stack.StackOverflow) /\
  stack_spec.nesting (parser_spec.nested_array_raw n) = S n /\
  stack_spec.nesting (parser_spec.nested_record_raw n) = S n /\
  yema.depth (parser_spec.nested_array_type n false) = S n /\
  yema.depth (parser_spec.nested_record_type n) = S n /\
  stack.validateValue platform frames (parser_spec.nested_array_data n)
    (parser_spec.nested_array_type n false) path
  = (if (n <? frames)%nat then stack.Returned None else stack.StackOverflow) /\
  stack.validateValue platform frames (parser_spec.nested_record_data n)
    (parser_spec.nested_record_type n) path
  = (if (n <? frames)%nat then stack.Returned None else stack.StackOverflow).
Proof.
  split; [intros v isOptional r; apply stack_facts.parseValueToType_agrees|].
  split; [intros v schema r; apply stack_facts.validateValue_agrees|].
  split; [intros v isOptional; apply stack_facts.parseValueToType_enough|].
  split; [intros v schema; apply stack_facts.validateValue_enough|].
  split; [apply stack_facts.parse_nested_array|].
  split; [apply stack_facts.parse_nested_record|].
  split; [induction n as [|n IH]; [done|]; simpl in *; lia|].
  split; [induction n as [|n IH]; [done|]; simpl in *; lia|].
  split; [apply parser_facts.depth_nested_array|].
  split; [apply parser_facts.depth_nested_record|].
  split; [apply stack_facts.validate_nested_array|].
  apply stack_facts.validate_nested_record.
Qed.

Lemma nesting_depth_is_not_capped_witness :
  stack.parseValueToType 3 "tags" (VSlice [VSlice [VString "int"]]) true
  = stack.Returned
      (parser.Ok
         (yema.mkType yema.Array true None
            (Some (yema.mkType yema.Array false None
                     (Some (yema.mkType yema.Int false None None)))))) /\
  None
  = validator.validateValue amd64 (VSlice [VInt 1; VInt 2])
      (yema.mkType yema.Array false None
         (Some (yema.mkType yema.Int false None None))) "tags".
Proof.
  split.
  - apply (proj1 (proj2 (proj2 (nesting_depth_is_not_capped amd64 3 0 "tags" "")))
             (VSlice [VSlice [VString "int"]]) true).
    simpl. lia.
  - apply (proj1 (proj2 (nesting_depth_is_not_capped amd64 2 0 "" "tags"))
             (VSlice [VInt 1; VInt 2])
             (yema.mkType yema.Array false None
                (Some (yema.mkType yema.Int false None None)))
             None).
    reflexivity.
Defined.

(** C10. [Validate] does not look at the kind of the root: a nil schema, or
    one whose record-field map is nil, gives exactly the one violation
    "invalid schema", and a schema with a record-field map is validated as
    the record of these fields whatever its kind, its optional flag and its
    array pointer are. *)
Theorem Validate_ignores_root_kind (platform : Platform) (data : gomap value)
  (kind : yema.Kind) (optional : bool) (array : option yema.Type_)
  (fields : gomap yema.Type_) :
  validator.Validate platform data None = [validator.InvalidSchema] /\
  validator.Validate platform data (Some (yema.mkType kind optional None array))
  = [validator.InvalidSchema] /\
  validator.Validate platform data
    (Some (yema.mkType kind optional (Some fields) array))
  = validator.Validate platform data
      (Some (yema.mkType yema.Struct false (Some fields) None)) /\
  validator.Validate platform data
    (Some (yema.mkType kind optional (Some fields) array))
  = flat_map (validator_spec.field_violations platform data) fields.
Proof.
  repeat split. by apply validator_facts.Validate_collect.
Qed.

(** * Further properties of the code *)

(** X1: every schema that [From] builds has the builder's shape: the root is
    a record that is not optional; below it every primitive has neither
    pointer set, every array has its element type, which is not optional,
    and no field map, every record has its field map and no element type,
    the names of its fields are valid and distinct, and no kind is
    [Invalid].  So the schema is complete for every consumer. *)
Theorem From_builds_canonical_schema (schema : gomap value) (t : yema.Type_) :
  parser.From schema = parser.Ok t ->
  yema.TKind t = yema.Struct /\
  yema.Optional t = false /\
  schema_spec.canonical t = true /\
  schema_spec.complete t = true.
Proof.
  intros H. pose proof (schema_facts.From_canonical _ _ H) as (Hc & Hk & Ho).
  repeat split; try done. by apply schema_facts.canonical_complete.
Qed.

Lemma From_builds_canonical_schema_witness :
  let t :=
    yema.mkType yema.Struct false
      (Some [("name", yema.mkType yema.String false None None);
             ("tags", yema.mkType yema.Array true None
                        (Some (yema.mkType yema.Int false None None)))]) None in
  yema.TKind t = yema.Struct /\
  yema.Optional t = false /\
  schema_spec.canonical t = true /\
  schema_spec.complete t = true.
Proof.
  apply (From_builds_canonical_schema
           [("name", VString "string"); ("tags?", VSlice [VString "int"])]).
  reflexivity.
Defined.

(** X2: [From] and [parseValueToType] succeed exactly on the raw values that
    denote a type: the name of one of the fifteen primitives, a sequence of
    exactly one such value, or a map all of whose keys give a valid field
    name once one trailing question mark is dropped and all of whose values
    denote a type.  Everything else is an error. *)
Theorem From_accepts_exactly_type_expressions :
  (forall schema,
     (exists t, parser.From schema = parser.Ok t)
     <-> schema_spec.field_exprs schema = true) /\
  (forall fieldName v isOptional,
     (exists t, parser.parseValueToType fieldName v isOptional = parser.Ok t)
     <-> schema_spec.type_expr v = true).
Proof.
  split.
  - intros schema. rewrite parser_facts.From_fields.
    apply schema_facts.parse_fields_accepts.
    apply Forall_forall. intros kv _. apply schema_facts.parseValueToType_accepts.
  - intros. apply schema_facts.parseValueToType_accepts.
Qed.

(** X3: the fields of the record [From] builds are the keys with one
    trailing question mark dropped.  Two keys that give the same name, as
    [name] and [name?] do, are not reported: the field is the one parsed
    from the last of them in the order of the iteration, with the optional
    flag of that key, so which of the two it is depends on that order.
    The same holds for a nested map. *)
Theorem From_names_fields_after_keys :
  (forall schema t,
     parser.From schema = parser.Ok t ->
     exists fields,
       yema.TStruct t = Some fields /\
       (forall f, f ∈ map_keys fields <->
                  exists k, k ∈ map_keys schema /\ parser_spec.field_of_key k = f) /\
       (forall pre k val post,
          schema = (pre ++ (k, val) :: post)%list ->
          (forall k', k' ∈ map_keys post ->
                      parser_spec.field_of_key k' <> parser_spec.field_of_key k) ->
          exists ft,
            parser.parseValueToType (parser_spec.field_of_key k) val
              (parser.has_question_suffix k) = parser.Ok ft /\
            yema.Optional ft = parser.has_question_suffix k /\
            map_get fields (parser_spec.field_of_key k) = Some ft)) /\
  (forall fieldName m isOptional t,
     parser.parseValueToType fieldName (VMap m) isOptional = parser.Ok t ->
     exists fields,
       yema.TStruct t = Some fields /\
       (forall f, f ∈ map_keys fields <->
                  exists k, k ∈ map_keys m /\ parser_spec.field_of_key k = f) /\
       (forall pre k val post,
          m = (pre ++ (k, val) :: post)%list ->
          (forall k', k' ∈ map_keys post ->
                      parser_spec.field_of_key k' <> parser_spec.field_of_key k) ->
          exists ft,
            parser.parseValueToType (parser_spec.field_of_key k) val
              (parser.has_question_suffix k) = parser.Ok ft /\
            yema.Optional ft = parser.has_question_suffix k /\
            map_get fields (parser_spec.field_of_key k) = Some ft)) /\
  (forall name v1 v2 t1 t2,
     parser.isValidFieldName name = true ->
     parser.parseValueToType name v1 false = parser.Ok t1 ->
     parser.parseValueToType name v2 true = parser.Ok t2 ->
     parser.From [(name, v1); (name ++ "?", v2)]
     = parser.Ok (yema.mkType yema.Struct false (Some [(name, t2)]) None) /\
     parser.From [(name ++ "?", v2); (name, v1)]
     = parser.Ok (yema.mkType yema.Struct false (Some [(name, t1)]) None)).
Proof.
  assert (forall isOptional v t,
            parser_spec.parse_fields isOptional v [] = parser.Ok t ->
            exists fields,
              yema.TStruct t = Some fields /\
              (forall f, f ∈ map_keys fields <->
                         exists k, k ∈ map_keys v /\ parser_spec.field_of_key k = f) /\
              (forall pre k val post,
                 v = (pre ++ (k, val) :: post)%list ->
                 (forall k', k' ∈ map_keys post ->
                             parser_spec.field_of_key k' <> parser_spec.field_of_key k) ->
                 exists ft,
                   parser.parseValueToType (parser_spec.field_of_key k) val
                     (parser.has_question_suffix k) = parser.Ok ft /\
                   yema.Optional ft = parser.has_question_suffix k /\
                   map_get fields (parser_spec.field_of_key k) = Some ft)) as Hloop.
  { intros isOptional v t (fields & Hfields & Hkeys & _ & Hlast)%schema_facts.parse_fields_keys.
    exists fields. split; [done|]. split.
    - intros f. rewrite Hkeys. split; [|by right].
      intros [Hin|?]; [|done]. by apply elem_of_nil in Hin.
    - intros pre k val post Heq Hpost.
      destruct (Hlast pre k val post Heq Hpost) as (ft & Hft & Hget).
      exists ft. split; [done|]. split; [|done].
      by apply parser_facts.parseValueToType_optional in Hft. }
  split; [|split].
  - intros schema t. rewrite parser_facts.From_fields. apply Hloop.
  - intros fieldName m isOptional t. rewrite parser_facts.parseValueToType_map.
    apply Hloop.
  - intros name v1 v2 t1 t2 Hname Ht1 Hv2.
    rewrite !parser_facts.From_fields. simpl.
    rewrite schema_facts.field_of_key_question, schema_facts.has_question_suffix_app.
    assert (parser.has_question_suffix name = false) as Hq.
    { apply not_true_is_false. intros Hq.
      assert (exists s, name = s ++ "?") as [s ->].
      { clear -Hq. induction name as [|c name IH]; [done|].
        destruct name as [|c' name].
        - simpl in Hq. apply Ascii.eqb_eq in Hq as ->. by exists "".
        - destruct IH as [s Hs]; [done|]. exists (String c s). by rewrite Hs. }
      by rewrite (schema_facts.isValidFieldName_question s "") in Hname. }
    unfold parser_spec.field_of_key. rewrite Hq, Hname. simpl.
    rewrite Ht1, Hv2. simpl. by rewrite String.eqb_refl.
Qed.

(** X4: only one trailing question mark is read as the optional marker, and
    no field name may hold one: a key that ends in two question marks, the
    key that is a question mark alone and the empty key are refused with
    the invalid-field-name error, at the top level and in a nested map. *)
Theorem From_refuses_question_mark_in_name (v : value) (others : gomap value) :
  (forall s,
     parser.From ((s ++ "??", v) :: others)
     = parser.Err (parser.InvalidFieldName (s ++ "?"))) /\
  parser.From (("?", v) :: others) = parser.Err (parser.InvalidFieldName "") /\
  parser.From (("", v) :: others) = parser.Err (parser.InvalidFieldName "") /\
  (forall s1 s2,
     parser.isValidFieldName (s1 ++ String "?" s2) = false) /\
  (forall fieldName isOptional s,
     parser.parseValueToType fieldName (VMap ((s ++ "??", v) :: others)) isOptional
     = parser.Err (parser.InvalidFieldName (s ++ "?"))).
Proof.
  assert (forall s, parser_spec.field_of_key (s ++ "??") = s ++ "?") as Hkey.
  { intros s. replace (s ++ "??") with ((s ++ "?") ++ "?").
    - apply schema_facts.field_of_key_question.
    - by rewrite schema_facts.append_assoc. }
  split; [|split; [|split; [|split]]].
  - intros s. rewrite parser_facts.From_fields. simpl.
    by rewrite Hkey, (schema_facts.isValidFieldName_question s "").
  - done.
  - done.
  - apply schema_facts.isValidFieldName_question.
  - intros fieldName isOptional s. rewrite parser_facts.parseValueToType_map. simpl.
    by rewrite Hkey, (schema_facts.isValidFieldName_question s "").
Qed.

(** X5: the validator reads the data only through the fields of the schema:
    two data maps that agree on every field the schema names get the same
    result, at the top level and in a nested record, so an entry whose key
    the schema does not name never changes the result. *)
Theorem Validate_ignores_unknown_fields (platform : Platform) :
  (forall data data' schema fields,
     yema.TStruct schema = Some fields ->
     (forall f, f ∈ map_keys fields -> map_get data f = map_get data' f) ->
     validator.Validate platform data (Some schema)
     = validator.Validate platform data' (Some schema)) /\
  (forall m m' schema fields path,
     yema.TKind schema = yema.Struct ->
     yema.TStruct schema = Some fields ->
     (forall f, f ∈ map_keys fields -> map_get m f = map_get m' f) ->
     validator.validateValue platform (VMap m) schema path
     = validator.validateValue platform (VMap m') schema path) /\
  (forall data key v schema fields,
     yema.TStruct schema = Some fields ->
     key ∉ map_keys fields ->
     validator.Validate platform ((key, v) :: data) (Some schema)
     = validator.Validate platform data (Some schema)) /\
  (forall m key v schema fields path,
     yema.TKind schema = yema.Struct ->
     yema.TStruct schema = Some fields ->
     key ∉ map_keys fields ->
     validator.validateValue platform (VMap ((key, v) :: m)) schema path
     = validator.validateValue platform (VMap m) schema path).
Proof.
  assert (forall (m : gomap value) key v (fields : gomap yema.Type_),
            key ∉ map_keys fields ->
            forall f, f ∈ map_keys fields ->
                      map_get ((key, v) :: m) f = map_get m f) as Hcons.
  { intros m key v fields Hkey f Hf. simpl.
    destruct (String.eqb_spec f key) as [->|]; done. }
  split; [|split; [|split]].
  - intros data data' schema fields Hs Hagree.
    rewrite !(validator_facts.Validate_collect platform _ _ fields) by done.
    by apply validator_more.field_violations_ext.
  - intros m m' schema fields path Hk Hs Hagree.
    rewrite !(validator_facts.validateValue_struct platform _ fields) by done.
    by apply validator_more.first_field_error_ext.
  - intros data key v schema fields Hs Hkey.
    rewrite !(validator_facts.Validate_collect platform _ _ fields) by done.
    apply validator_more.field_violations_ext. by apply Hcons.
  - intros m key v schema fields path Hk Hs Hkey.
    rewrite !(validator_facts.validateValue_struct platform _ fields) by done.
    apply validator_more.first_field_error_ext. by apply Hcons.
Qed.

(** X6: every error names a path under the place that was checked: an error
    of [validateValue] names the path of the call followed by a suffix, and
    an error of [Validate] on a schema with a field map names the name of
    one of its fields followed by a suffix. *)
Theorem errors_are_located_under_the_checked_path (platform : Platform) :
  (forall v schema path err,
     validator.validateValue platform v schema path = Some err ->
     exists suffix, error_spec.path_of err = Some (path ++ suffix)) /\
  (forall data schema fields err,
     yema.TStruct schema = Some fields ->
     err ∈ validator.Validate platform data (Some schema) ->
     exists f suffix,
       f ∈ map_keys fields /\ error_spec.path_of err = Some (f ++ suffix)).
Proof.
  split.
  - intros v schema. apply validator_more.validateValue_located.
  - intros data schema fields err Hs.
    rewrite (validator_facts.Validate_collect platform _ _ fields) by done.
    clear Hs. induction fields as [|[f t] fields IH]; simpl.
    + by intros ?%elem_of_nil.
    + rewrite elem_of_app. intros [Hhere|Hlater].
      * exists f. unfold validator_spec.field_violations in Hhere. simpl in Hhere.
        destruct (map_get data f) as [v|].
        -- destruct (validator.validateValue platform v t f) as [err'|] eqn:Hv.
           ++ apply list_elem_of_singleton in Hhere as ->.
              apply validator_more.validateValue_located in Hv as [suffix Hv].
              exists suffix. split; [apply list_elem_of_here|done].
           ++ by apply elem_of_nil in Hhere.
        -- destruct (yema.Optional t); [by apply elem_of_nil in Hhere|].
           apply list_elem_of_singleton in Hhere as ->.
           exists "". split; [apply list_elem_of_here|]. simpl. f_equal.
           clear. induction f as [|c f IH]; [done|].
           change (String c f = String c (f ++ "")). by rewrite <- IH.
      * destruct (IH Hlater) as (f' & suffix & Hf' & Hpath).
        exists f', suffix. split; [by apply list_elem_of_further|done].
Qed.

(** X7: on a schema that [From] has built, the validator never blames the
    schema: no result holds [invalid schema], a nil array or struct
    definition, or an unsupported type; every error is about the data. *)
Theorem Validate_never_blames_a_built_schema (platform : Platform)
  (raw : gomap value) (schema : yema.Type_) (data : gomap value)
  (err : validator.error) :
  parser.From raw = parser.Ok schema ->
  err ∈ validator.Validate platform data (Some schema) ->
  error_spec.schema_fault err = false.
Proof.
  intros (Hc & Hk)%schema_facts.From_complete.
  destruct schema as [k o s a]. simpl in Hk. subst k. simpl in Hc.
  destruct s as [fields|]; [|done].
  rewrite (validator_facts.Validate_collect platform _ _ fields) by done.
  induction fields as [|[f t] fields IH]; simpl.
  - by intros ?%elem_of_nil.
  - simpl in Hc. apply andb_prop in Hc as [Hct Hcfs].
    rewrite elem_of_app. intros [Hhere|Hlater]; [|by apply IH].
    unfold validator_spec.field_violations in Hhere. simpl in Hhere.
    destruct (map_get data f) as [v|].
    + destruct (validator.validateValue platform v t f) as [err'|] eqn:Hv.
      * apply list_elem_of_singleton in Hhere as ->.
        by apply (validator_more.validateValue_complete platform t Hct) in Hv.
      * by apply elem_of_nil in Hhere.
    + destruct (yema.Optional t); [by apply elem_of_nil in Hhere|].
      by apply list_elem_of_singleton in Hhere as ->.
Qed.

Lemma Validate_never_blames_a_built_schema_witness :
  error_spec.schema_fault (validator.RequiredFieldMissing "name") = false.
Proof.
  apply (Validate_never_blames_a_built_schema amd64
           [("name", VString "string"); ("age?", VString "int8")]
           (yema.mkType yema.Struct false
              (Some [("name", yema.mkType yema.String false None None);
                     ("age", yema.mkType yema.Int8 true None None)]) None)
           [("age", VInt 3)]).
  - reflexivity.
  - vm_compute. apply list_elem_of_here.
Defined.

(** X8: whether a value is accepted does not depend on the path it is
    checked at, and a record is valid at the top level, where [Validate]
    collects the errors of its fields, exactly when it is valid as a nested
    record, where [validateValue] stops at the first error. *)
Theorem top_level_and_nested_validity_agree (platform : Platform) :
  (forall v schema path path',
     validator.validateValue platform v schema path = None <->
     validator.validateValue platform v schema path' = None) /\
  (forall data fields kind optional array path,
     validator.Validate platform data
       (Some (yema.mkType kind optional (Some fields) array)) = [] <->
     validator.validateValue platform (VMap data) (error_spec.record fields) path
     = None).
Proof.
  split.
  - intros v schema path path'. split; apply validator_more.validateValue_path.
  - intros data fields kind optional array path.
    rewrite (validator_facts.Validate_collect platform _ _ fields) by done.
    rewrite (validator_facts.validateValue_struct platform _ fields) by done.
    apply validator_more.field_violations_nested.
Qed.

(** X9: a field of kind [float64] accepts every Go integer, unsigned
    integer and float, with no range check, so NaN and the infinities pass,
    and a [json.Number] exactly when [strconv.ParseFloat] reads it; any
    other value that is not nil must be a number.  A field of kind
    [float32] also refuses what lies beyond 3.4e38 in magnitude: it accepts
    NaN and every integer below 2^53 in magnitude, and refuses the
    infinities and the largest finite [float32], which is above the bound. *)
Theorem float_kinds_accept_numbers (platform : Platform) (path : string) :
  (forall v f,
     error_spec.float_value v = Some f ->
     validator.validateValue platform v (scalar yema.Float64) path = None /\
     validator.validateValue platform v (scalar yema.Float32) path
     = if SFltb validator.float32_bound f || SFltb f (SFopp validator.float32_bound)
       then Some (validator.OutOfRange path "float32") else None) /\
  (forall s,
     validator.validateValue platform (VNumber s) (scalar yema.Float64) path
     = if (strconv_ParseFloat platform s).2 then None
       else Some (validator.MustBeNumber path)) /\
  (forall v kind,
     kind = yema.Float32 \/ kind = yema.Float64 ->
     v <> VNil ->
     error_spec.float_dynamic_type v = false ->
     validator.validateValue platform v (scalar kind) path
     = Some (validator.MustBeNumber path)) /\
  (forall kind,
     kind = yema.Float32 \/ kind = yema.Float64 ->
     validator.validateValue platform (VFloat64 S754_nan) (scalar kind) path = None) /\
  (forall sign,
     validator.validateValue platform (VFloat64 (S754_infinity sign))
       (scalar yema.Float64) path = None /\
     validator.validateValue platform (VFloat64 (S754_infinity sign))
       (scalar yema.Float32) path = Some (validator.OutOfRange path "float32")) /\
  (forall v z,
     numeric_spec.signed_value v = Some z \/ numeric_spec.unsigned_value v = Some z ->
     - 2 ^ 53 < z < 2 ^ 53 ->
     validator.validateValue platform v (scalar yema.Float32) path = None) /\
  validator.validateValue platform (VFloat32 error_spec.max_float32)
    (scalar yema.Float32) path = Some (validator.OutOfRange path "float32").
Proof.
  split; [|split; [|split; [|split; [|split; [|split]]]]].
  - intros v f Hf. split.
    + destruct v; try done.
    + destruct v; try done; simpl in Hf; injection Hf as <-; done.
  - intros s. simpl. unfold validator.validateFloatValue.
    destruct (strconv_ParseFloat platform s) as [f ok]. by destruct ok.
  - intros v kind [-> | ->] Hnil Hdyn; by destruct v.
  - by intros kind [-> | ->].
  - by intros [|].
  - intros v z Hv Hz.
    assert (error_spec.float_value v = Some (float64_of_Z z)) as Hf.
    { destruct Hv as [Hv|Hv]; destruct v; try done; simpl in Hv;
        by injection Hv as ->. }
    assert (validator.validateValue platform v (scalar yema.Float32) path
            = if SFltb validator.float32_bound (float64_of_Z z)
                 || SFltb (float64_of_Z z) (SFopp validator.float32_bound)
              then Some (validator.OutOfRange path "float32") else None) as ->.
    { destruct v; try done; simpl in Hf; injection Hf as <-; done. }
    by rewrite validator_more.float64_of_Z_in_float32.
  - done.
Qed.

(** X10: an array type that the builder makes never admits a nil element,
    whether or not the field that carries the array is optional: the first
    nil element, when the elements before it are valid, gives the
    nil-but-not-optional error at its index. *)
Theorem built_arrays_refuse_nil_elements (platform : Platform)
  (fieldName : string) (item : value) (isOptional : bool) (array : yema.Type_)
  (path : string) (pre rest : list value) :
  parser.parseValueToType fieldName (VSlice [item]) isOptional = parser.Ok array ->
  (forall j v elemType,
     yema.TArray array = Some elemType ->
     pre !! j = Some v ->
     validator.validateValue platform v elemType
       (path ++ "[" ++ validator.strconv_Itoa j ++ "]") = None) ->
  validator.validateValue platform (VSlice (pre ++ VNil :: rest)%list) array path
  = Some (validator.NilNotOptional
            (path ++ "[" ++ validator.strconv_Itoa (length pre) ++ "]")).
Proof.
  simpl. destruct (parser.parseValueToType fieldName item false) as [it|] eqn:Hit;
    [|done].
  intros [= <-] Hpre.
  rewrite (validator_facts.validateValue_array platform _ it) by done.
  apply validator_facts.first_elem_error_stops.
  - intros j v Hj. by apply Hpre.
  - apply parser_facts.parseValueToType_optional in Hit.
    destruct it as [k o s a]. simpl in Hit. subst o. reflexivity.
Qed.

Lemma built_arrays_refuse_nil_elements_witness :
  validator.validateValue amd64 (VSlice ([VString "a"] ++ VNil :: [VString "b"])%list)
    (yema.mkType yema.Array true None
       (Some (yema.mkType yema.String false None None))) "tags"
  = Some (validator.NilNotOptional "tags[1]").
Proof.
  apply (built_arrays_refuse_nil_elements amd64 "tags" (VString "string") true
           _ "tags" [VString "a"] [VString "b"]).
  - reflexivity.
  - intros j v elemType [= <-] Hj. destruct j as [|[|j]]; [|done..].
    by injection Hj as <-.
Defined.

(** X11: every schema that [From] builds is accepted by the Go and the
    TypeScript generator, with every root name and package and under every
    order of iteration: the call returns text, never an error or a nil
    dereference.  The same holds for every complete schema whose root is a
    record. *)
Theorem generators_accept_built_schemas (order : RangeOrder yema.Type_)
  (raw : gomap value) (t : yema.Type_) :
  parser.From raw = parser.Ok t ->
  (forall opts, exists b, golang.ToGolang order (Some t) opts = golang.Ok b) /\
  (forall opts, exists b, typescript.ToTypeScript order (Some t) opts = golang.Ok b) /\
  (forall t' opts,
     yema.TKind t' = yema.Struct -> schema_spec.complete t' = true ->
     exists b, golang.ToGolang order (Some t') opts = golang.Ok b) /\
  (forall t' opts,
     yema.TKind t' = yema.Struct -> schema_spec.complete t' = true ->
     exists b, typescript.ToTypeScript order (Some t') opts = golang.Ok b).
Proof.
  intros (Hc & Hk)%schema_facts.From_complete.
  split; [|split; [|split]].
  - intros opts. by apply generator_facts.ToGolang_complete.
  - intros opts. by apply generator_facts.ToTypeScript_complete.
  - intros. by apply generator_facts.ToGolang_complete.
  - intros. by apply generator_facts.ToTypeScript_complete.
Qed.

Lemma generators_accept_built_schemas_witness :
  exists b,
    golang.ToGolang (insertion_order _)
      (Some (yema.mkType yema.Struct false
               (Some [("tags", yema.mkType yema.Array true None
                                 (Some (yema.mkType yema.String false None None)))])
               None))
      (golang.mkOptions "" "") = golang.Ok b.
Proof.
  apply (proj1 (generators_accept_built_schemas (insertion_order _)
                  [("tags?", VSlice [VString "string"])] _ eq_refl)).
Defined.

(** X12: the text [ToGolang] returns starts with the package clause and the
    declaration of the root struct, which holds one line per field of the
    root record, in the order of the iteration: the Go name is the field
    name in camel case, the type is that of [typeToGoType], and the JSON
    tag is the field name, with [,omitempty] exactly when the field is
    optional. *)
Theorem ToGolang_writes_root_struct_first (order : RangeOrder yema.Type_)
  (t : yema.Type_) (opts : golang.Options) (b : list golang.chunk)
  (fields : gomap yema.Type_) :
  yema.TStruct t = Some fields ->
  golang.ToGolang order (Some t) opts = golang.Ok b ->
  exists lines rest,
    b = (golang.PackageClause
           (if String.eqb (golang.Package opts) "" then "generated"
            else golang.Package opts)
         :: golang.DocComment (golang_spec.root_name opts)
         :: golang.TypeOpen (golang_spec.root_name opts)
         :: lines ++ golang.TypeClose :: rest)%list /\
    Forall2 (generator_spec.go_field_line (golang_spec.root_name opts)) lines fields /\
    length lines = length fields.
Proof.
  intros Hfields Hgo.
  destruct (generator_facts.ToGolang_root_block order t opts b fields Hfields Hgo)
    as (lines & rest & Hb & Hlines).
  exists lines, rest. split; [done|]. split; [done|].
  by apply Forall2_length in Hlines.
Qed.

Lemma ToGolang_writes_root_struct_first_witness :
  exists lines rest,
    [golang.PackageClause "generated"; golang.DocComment "Root";
     golang.TypeOpen "Root"; golang.FieldLine "ZipCode" "*string" "zip_code,omitempty";
     golang.TypeClose]
    = (golang.PackageClause "generated" :: golang.DocComment "Root"
       :: golang.TypeOpen "Root" :: lines ++ golang.TypeClose :: rest)%list /\
    Forall2 (generator_spec.go_field_line "Root") lines
      [("zip_code", yema.mkType yema.String true None None)] /\
    length lines = 1%nat.
Proof.
  apply (ToGolang_writes_root_struct_first (insertion_order _)
           (yema.mkType yema.Struct false
              (Some [("zip_code", yema.mkType yema.String true None None)]) None)
           (golang.mkOptions "" "")); reflexivity.
Defined.

(** X13: [ToTypeScript] never writes a type alias: it sets [UseInterfaces]
    to true whatever the caller passed, so the two values of the option
    give the same text.  Every interface carries the export keyword exactly
    when [ExportAll] is set or its name is the root name, and the root name
    is declared once, first: with [ExportAll] unset the root interface is
    the only one exported. *)
Theorem ToTypeScript_ignores_UseInterfaces (order : RangeOrder yema.Type_)
  (t : option yema.Type_) :
  (forall namespace rootType useInterfaces exportAll,
     typescript.ToTypeScript order t
       (typescript.mkOptions namespace rootType useInterfaces exportAll)
     = typescript.ToTypeScript order t
         (typescript.mkOptions namespace rootType true exportAll)) /\
  (forall opts b,
     typescript.ToTypeScript order t opts = golang.Ok b ->
     (forall c, c ∈ b -> generator_spec.ts_alias c = false) /\
     (forall exportKeyword typeName,
        typescript.InterfaceOpen exportKeyword typeName ∈ b ->
        exportKeyword
        = if typescript.ExportAll opts
             || String.eqb typeName (generator_spec.ts_root_name opts)
          then "export " else "") /\
     exists rest,
       typescript.declared b = generator_spec.ts_root_name opts :: rest /\
       generator_spec.ts_root_name opts ∉ rest).
Proof.
  split; [done|].
  intros opts b Hts.
  pose proof (generator_facts.ToTypeScript_chunks order t opts b Hts) as Hchunks.
  rewrite Forall_forall in Hchunks.
  split; [|split].
  - intros c Hc. apply Hchunks in Hc. by destruct c.
  - intros kw n Hc. by apply Hchunks in Hc.
  - destruct (typescript_facts.ToTypeScript_root_first order t opts b Hts) as [rest Hrest].
    exists rest. split; [done|].
    apply typescript_facts.ToTypeScript_distinct in Hts.
    rewrite Hrest in Hts. by apply NoDup_cons in Hts as [? _].
Qed.

(** X14: camel case loses the underscores of a field name, and the
    generator does not look for the clashes that follow.  A name and the
    same name after an underscore are two valid field names with one Go
    name; a name made of underscores only is valid and has the empty Go
    name, so a nested record under such a field is given the name of its
    parent and is never declared: the text holds the parent alone, with a
    field of its own type. *)
Theorem camel_case_names_may_clash :
  (forall s,
     parser.isValidFieldName s = true ->
     parser.isValidFieldName (String "_" s) = true /\
     golang.toCamelCase (String "_" s) = golang.toCamelCase s) /\
  (forall n,
     parser.isValidFieldName (generator_spec.underscores (S n)) = true /\
     golang.toCamelCase (generator_spec.underscores (S n)) = "") /\
  (forall order opts n optional inner array,
     golang.ToGolang order
       (Some (yema.mkType yema.Struct false
                (Some [(generator_spec.underscores (S n),
                        yema.mkType yema.Struct optional inner array)]) None))
       opts
     = golang.Ok
         [golang.PackageClause
            (if String.eqb (golang.Package opts) "" then "generated"
             else golang.Package opts);
          golang.DocComment (golang_spec.root_name opts);
          golang.TypeOpen (golang_spec.root_name opts);
          golang.FieldLine ""
            (if optional then "*" ++ golang_spec.root_name opts
             else golang_spec.root_name opts)
            (if optional then generator_spec.underscores (S n) ++ ",omitempty"
             else generator_spec.underscores (S n));
          golang.TypeClose]).
Proof.
  split; [|split].
  - intros s Hs. split; [|done].
    destruct s as [|c s]; [done|]. simpl in *.
    destruct (parser.unicode_IsLetter c); [done|].
    destruct (Ascii.eqb c "_"); [|done]. by rewrite orb_true_r.
  - intros n. split; [apply generator_facts.underscores_valid|].
    apply generator_facts.camel_underscores.
  - intros order opts n optional inner array.
    unfold golang.ToGolang. fold (golang_spec.root_name opts).
    cbn [yema.TKind]. rewrite bool_decide_eq_true_2 by done. cbn [negb]. cbv zeta.
    pose proof (generator_facts.root_name_not_empty opts) as Hroot.
    set (R := golang_spec.root_name opts) in *.
    set (f := generator_spec.underscores (S n)).
    set (child := yema.mkType yema.Struct optional inner array).
    assert (exists fuel,
              yema.depth (yema.mkType yema.Struct false (Some [(f, child)]) None)
              = S (S fuel)) as [fuel ->].
    { unfold child. rewrite !golang_facts.depth_unfold. simpl. by eexists. }
    match goal with
    | |- context [golang.generateStructs order (S (S fuel)) ?t R ?st] =>
        rewrite (golang_facts.generateStructs_fresh order (S fuel) t R st
                   (golang.write
                      (golang.FieldLine "" (if optional then "*" ++ R else R)
                         (if optional then f ++ ",omitempty" else f))
                      (golang.write (golang.TypeOpen R)
                         (golang.write (golang.DocComment R)
                            (golang.mkState (golang.buf st)
                               ({[R]} ∪ golang.generatedStructs st)))))
                   [(f, child)]
                   [(R, yema.mkType yema.Struct false inner None)])
    end; [|done|set_solver|done|].
    + rewrite golang_facts.range_of_singleton.
      cbn [golang.generateNested]. cbn [golang.generateStructs yema.TKind].
      rewrite bool_decide_eq_true_2 by done. cbn [negb].
      rewrite bool_decide_eq_true_2; [done|].
      cbn. set_solver.
    + cbn [golang.emitFields]. unfold child at 1. cbn [golang.typeToGoType yema.TKind].
      unfold golang.toCamelCase, f. rewrite generator_facts.camel_underscores.
      rewrite generator_facts.append_nil_r.
      assert (String.eqb R "" = false) as -> by (by apply String.eqb_neq).
      unfold child. cbn [yema.TKind yema.Optional yema.TStruct negb andb].
      rewrite bool_decide_eq_true_2 by done.
      cbn [map_set]. by destruct optional.
Qed.

(** X15: the Go generator and the CUE emitter print a primitive under the
    name the builder reads it by, but for [bytes], which Go prints as
    [[]byte] and CUE as [string]: for every primitive name the builder
    accepts, the type of a required field of that type is the name itself,
    and a pointer to it when the field is optional. *)
Theorem primitive_names_round_trip (name fieldName parentName : string)
  (isOptional : bool) (t : yema.Type_) :
  parser.parseValueToType fieldName (VString name) isOptional = parser.Ok t ->
  name <> "bytes" ->
  golang.typeToGoType t parentName fieldName
  = golang.Ok (if isOptional then "*" ++ name else name, "") /\
  cue.typeToAstExpr t fieldName = cue.Ok (cue.Ident name) /\
  golang.go_name_of_kind (yema.TKind t) = Some name /\
  parser.kind_of_name name = Some (yema.TKind t).
Proof.
  simpl. destruct (parser.kind_of_name name) as [k|] eqn:Hk; [|done].
  intros [= <-] Hbytes. unfold parser.kind_of_name in Hk. revert Hk.
  repeat match goal with
    | |- context [String.eqb name ?x] =>
        destruct (String.eqb_spec name x) as [->|_];
        [intros [= <-];
         first [solve [destruct isOptional; repeat split] | by destruct Hbytes]|]
    end.
  done.
Qed.

Lemma primitive_names_round_trip_witness :
  golang.typeToGoType (yema.mkType yema.Int32 true None None) "Root" "age"
  = golang.Ok ("*int32", "") /\
  cue.typeToAstExpr (yema.mkType yema.Int32 true None None) "age"
  = cue.Ok (cue.Ident "int32") /\
  golang.go_name_of_kind yema.Int32 = Some "int32" /\
  parser.kind_of_name "int32" = Some yema.Int32.
Proof.
  apply (primitive_names_round_trip "int32" "age" "Root" true
           (yema.mkType yema.Int32 true None None)); [reflexivity|done].
Defined.

(** X16: the JSON Schema emitter and the CUE emitter convert the same
    schemas: those with no [Invalid] kind in which every record has its
    field map.  Unlike the Go generator, they accept an array that has no
    element type.  So [ToJSONSchema] fails exactly on nil, on a root that
    is no record, and on a root it cannot convert, and it converts every
    schema [From] builds. *)
Theorem emitters_convert_the_same_schemas :
  (forall t schema,
     (exists doc, jsonschema.typeToJSONSchema t schema = jsonschema.Ok doc)
     <-> emitter_spec.convertible t = true) /\
  (forall t fieldName,
     (exists e, cue.typeToAstExpr t fieldName = cue.Ok e)
     <-> emitter_spec.convertible t = true) /\
  (forall t,
     (exists doc, jsonschema.ToJSONSchema t = jsonschema.Ok doc)
     <-> exists t', t = Some t' /\ yema.TKind t' = yema.Struct /\
                    emitter_spec.convertible t' = true) /\
  (forall raw t,
     parser.From raw = parser.Ok t ->
     (exists doc, jsonschema.ToJSONSchema (Some t) = jsonschema.Ok doc) /\
     (exists e, cue.typeToAstExpr t "" = cue.Ok e)) /\
  (forall optional fields schema parentName fieldName,
     jsonschema.typeToJSONSchema (yema.mkType yema.Array optional fields None) schema
     = jsonschema.Ok (jsonschema.set_Type schema "array") /\
     cue.typeToAstExpr (yema.mkType yema.Array optional fields None) fieldName
     = cue.Ok (cue.ListLit [cue.Ellipsis None]) /\
     golang.typeToGoType (yema.mkType yema.Array optional fields None)
       parentName fieldName
     = golang.Err golang.ArrayWithNilArray).
Proof.
  split; [|split; [|split; [|split]]].
  - intros t. apply emitter_facts.typeToJSONSchema_accepts.
  - intros t. apply emitter_facts.typeToAstExpr_accepts.
  - intros [t|]; simpl.
    + case_bool_decide as Hk; simpl.
      * rewrite emitter_facts.typeToJSONSchema_accepts. split.
        -- intros Hc. by exists t.
        -- by intros (t' & [= <-] & _ & Hc).
      * split; [by intros [? ?]|]. by intros (t' & [= <-] & Hk' & _).
    + split; [by intros [? ?]|]. by intros (t' & ? & _).
  - intros raw t (Hc & Hk)%schema_facts.From_complete.
    apply emitter_facts.complete_convertible in Hc. split.
    + unfold jsonschema.ToJSONSchema. rewrite Hk. simpl.
      by apply emitter_facts.typeToJSONSchema_accepts.
    + by apply emitter_facts.typeToAstExpr_accepts.
  - done.
Qed.

(** X17: for a record, the JSON Schema emitter writes the type [object],
    one property per field, converted from the type of the field, and as
    [required] the names of the fields that are not optional, in the order
    of the iteration; [required] is left out (nil) when every field is
    optional.  Only the schema passed in keeps its [$schema]: every
    property has none. *)
Theorem typeToJSONSchema_lists_required_fields (t : yema.Type_)
  (schema doc : jsonschema.JSONSchema) (fields : gomap yema.Type_) :
  yema.TKind t = yema.Struct ->
  yema.TStruct t = Some fields ->
  NoDup (map_keys fields) ->
  jsonschema.typeToJSONSchema t schema = jsonschema.Ok doc ->
  jsonschema.Type_ doc = "object" /\
  jsonschema.Schema doc = jsonschema.Schema schema /\
  jsonschema.Required doc
  = (if (length (emitter_spec.required_names fields) =? 0)%nat then None
     else Some (emitter_spec.required_names fields)) /\
  exists properties,
    jsonschema.Properties doc = Some properties /\
    Forall2 emitter_spec.property_of properties fields /\
    Forall (fun property => jsonschema.Schema property.2 = "") properties.
Proof.
  intros Hk Hs Hnodup. rewrite (emitter_facts.typeToJSONSchema_struct _ _ fields) by done.
  intros (converted & Hconv & ->)%emitter_facts.convert_fields_builds; [|done].
  simpl. repeat split; try done.
  exists converted. repeat split; try done.
  clear -Hconv. induction Hconv as [|p kt ps kts [_ Hp] _ IH]; constructor; [|done].
  by apply emitter_facts.typeToJSONSchema_keeps in Hp as [? _].
Qed.

Lemma typeToJSONSchema_lists_required_fields_witness :
  let doc :=
    jsonschema.mkJSONSchema jsonschema.SchemaVersion "object"
      (Some [("name", jsonschema.mkJSONSchema "" "string" None None None "");
             ("age", jsonschema.mkJSONSchema "" "integer" None None None "")])
      None (Some ["name"]) "" in
  let fields :=
    [("name", yema.mkType yema.String false None None);
     ("age", yema.mkType yema.Int8 true None None)] in
  jsonschema.Type_ doc = "object" /\
  jsonschema.Schema doc = jsonschema.SchemaVersion /\
  jsonschema.Required doc
  = (if (length (emitter_spec.required_names fields) =? 0)%nat then None
     else Some (emitter_spec.required_names fields)) /\
  exists properties,
    jsonschema.Properties doc = Some properties /\
    Forall2 emitter_spec.property_of properties fields /\
    Forall (fun property => jsonschema.Schema property.2 = "") properties.
Proof.
  apply (typeToJSONSchema_lists_required_fields
           (yema.mkType yema.Struct false
              (Some [("name", yema.mkType yema.String false None None);
                     ("age", yema.mkType yema.Int8 true None None)]) None)
           (jsonschema.mkJSONSchema jsonschema.SchemaVersion "" None None None "")).
  - reflexivity.
  - reflexivity.
  - apply (bool_decide_unpack _). vm_compute. exact I.
  - reflexivity.
Defined.

(** X18: for a record, the CUE emitter builds a struct literal with one
    field per field of the record, in the order of the iteration: the
    label is the field name, the value is the expression of its type, and
    the constraint is the optional marker when the field is optional and
    the required marker otherwise.  An array becomes an open list of its
    element type. *)
Theorem typeToAstExpr_marks_optional_fields :
  (forall t fieldName fields e,
     yema.TKind t = yema.Struct ->
     yema.TStruct t = Some fields ->
     cue.typeToAstExpr t fieldName = cue.Ok e ->
     exists decls,
       e = cue.StructLit decls /\
       Forall2 emitter_spec.decl_of decls fields /\
       length decls = length fields) /\
  (forall t fieldName elem e,
     yema.TKind t = yema.Array ->
     yema.TArray t = Some elem ->
     cue.typeToAstExpr t fieldName = cue.Ok e ->
     exists elemExpr,
       cue.typeToAstExpr elem fieldName = cue.Ok elemExpr /\
       e = cue.ListLit [cue.Ellipsis (Some elemExpr)]).
Proof.
  split.
  - intros t fieldName fields e Hk Hs.
    rewrite (emitter_facts.typeToAstExpr_struct _ _ fields) by done.
    intros (decls & Hdecls & ->)%emitter_facts.field_decls_builds.
    exists decls. split; [done|]. split; [done|]. by apply Forall2_length in Hdecls.
  - intros [k o s a] fieldName elem e. simpl. intros -> ->.
    destruct (cue.typeToAstExpr elem fieldName) as [ee|]; [|done].
    intros [= <-]. by exists ee.
Qed.

(** X19: the Rust generator walks the schema as the Go generator does: on
    the same schema, root name and order of iteration the two end the same
    way (text, the same error, or a nil dereference) and declare the same
    struct names in the same order.  So the Rust text never declares a name
    twice, declares the root first, and every schema [From] builds is
    accepted. *)
Theorem ToRust_declares_what_ToGolang_declares (order : RangeOrder yema.Type_) :
  (forall t opts package,
     typescript_spec.same_outcome
       (fun rs go => rust.declared rs = golang.declared go)
       (rust.ToRust order t opts)
       (golang.ToGolang order t (golang.mkOptions package (rust.RootType opts)))) /\
  (forall t opts b,
     rust.ToRust order t opts = golang.Ok b ->
     NoDup (rust.declared b) /\
     exists rest,
       rust.declared b
       = (if String.eqb (rust.RootType opts) "" then "Root" else rust.RootType opts)
         :: rest) /\
  (forall t opts, rust.ToRust order t opts <> golang.OutOfFuel) /\
  (forall raw t opts,
     parser.From raw = parser.Ok t ->
     exists b, rust.ToRust order (Some t) opts = golang.Ok b).
Proof.
  split; [|split; [|split]].
  - intros. apply rust_facts.ToRust_same.
  - intros t opts b (b' & Hgo & ->)%rust_facts.ToRust_declared. split.
    + by eapply golang_facts.ToGolang_distinct.
    + by apply golang_facts.ToGolang_root_first in Hgo.
  - intros t opts H. pose proof (rust_facts.ToRust_same order t opts "") as Hsame.
    rewrite H in Hsame.
    pose proof (golang_facts.ToGolang_returns order t
                  (golang.mkOptions "" (rust.RootType opts))) as Hfuel.
    by destruct (golang.ToGolang order t _).
  - intros raw t opts (Hc & Hk)%schema_facts.From_complete.
    destruct (generator_facts.ToGolang_complete order t
                (golang.mkOptions "" (rust.RootType opts)) Hk Hc) as [b Hb].
    pose proof (rust_facts.ToRust_same order (Some t) opts "") as Hsame.
    rewrite Hb in Hsame.
    destruct (rust.ToRust order (Some t) opts); [eauto|done..].
Qed.

(** X20: on a name of ASCII characters, [toSnakeCase] returns a string of
    ASCII characters with no upper-case letter, and returns its argument
    unchanged exactly when the argument has none.  So with [UseSerdeRename]
    set the generator writes the serde rename attribute exactly for the
    fields whose name has an upper-case letter; a required field with none
    gets its documentation and its definition only. *)
Theorem toSnakeCase_lowers_every_letter :
  (forall s,
     text_spec.is_ascii s = true ->
     rust_spec.no_upper (rust.toSnakeCase s) = true /\
     text_spec.is_ascii (rust.toSnakeCase s) = true) /\
  (forall s,
     text_spec.is_ascii s = true ->
     (rust.toSnakeCase s = s <-> rust_spec.no_upper s = true)) /\
  (forall opts indent fieldName rustFieldType st,
     text_spec.is_ascii fieldName = true ->
     rust.UseSerdeRename opts = true ->
     rust.buf (rust.writeField opts indent fieldName (rust.toSnakeCase fieldName)
                 rustFieldType false st)
     = (rust.buf st
        ++ if rust_spec.no_upper fieldName
           then [rust.FieldDoc indent fieldName;
                 rust.FieldLine indent fieldName rustFieldType]
           else [rust.FieldDoc indent fieldName;
                 rust.SerdeRename indent fieldName;
                 rust.FieldLine indent (rust.toSnakeCase fieldName) rustFieldType])%list) /\
  rust.toSnakeCase "zipCode" = "zip_code" /\
  rust.toSnakeCase "ZipCode" = "zip_code".
Proof.
  split; [|split; [|split; [|split]]].
  - intros s Hs. split; [apply rust_facts.snake_no_upper|].
    by apply text_facts.snake_ascii.
  - intros s _. rewrite <- rust_facts.toSnakeCase_fixed. symmetry. apply String.eqb_eq.
  - intros opts indent f ty st _ Huse. unfold rust.writeField. rewrite Huse. simpl.
    rewrite rust_facts.toSnakeCase_fixed.
    destruct (rust_spec.no_upper f) eqn:Hf; simpl.
    + apply rust_facts.snake_fixes with (i := O) in Hf.
      unfold rust.toSnakeCase. rewrite Hf. by rewrite <- app_assoc.
    + by rewrite <- !app_assoc.
  - done.
  - done.
Qed.

Lemma toSnakeCase_lowers_every_letter_witness :
  (rust_spec.no_upper (rust.toSnakeCase "zipCode") = true /\
   text_spec.is_ascii (rust.toSnakeCase "zipCode") = true) /\
  rust.buf (rust.writeField (rust.mkOptions "" "" [] true) "    " "zipCode"
              (rust.toSnakeCase "zipCode") "String" false (rust.mkState [] ∅))
  = [rust.FieldDoc "    " "zipCode"; rust.SerdeRename "    " "zipCode";
     rust.FieldLine "    " "zip_code" "String"].
Proof.
  split.
  - apply (proj1 toSnakeCase_lowers_every_letter "zipCode"). reflexivity.
  - apply (proj1 (proj2 (proj2 toSnakeCase_lowers_every_letter))
             (rust.mkOptions "" "" [] true) "    " "zipCode" "String"
             (rust.mkState [] ∅)); reflexivity.
Defined.





(** X23: the text [ToRust] returns is always one module: the module name
    defaults to [generated] before the generator asks whether it is empty,
    so the text starts with the module clause and ends with its closing
    brace, and no option leaves the module out. *)
Theorem ToRust_always_writes_a_module (order : RangeOrder yema.Type_)
  (t : option yema.Type_) (opts : rust.Options) (b : list rust.chunk) :
  rust.ToRust order t opts = golang.Ok b ->
  rust_spec.module_name opts <> "" /\
  exists body,
    b = (rust.ModuleOpen (rust_spec.module_name opts) :: body
         ++ [rust.ModuleClose])%list.
Proof.
  pose proof (rust_facts.module_name_not_empty opts) as Hmod.
  intros Hrust. split; [by apply String.eqb_neq|].
  unfold rust.ToRust in Hrust. destruct t as [t|]; [|done].
  destruct (negb (bool_decide _)); [done|].
  cbv zeta in Hrust.
  cbn [rust.Module_ rust.RootType rust.DeriveTraits] in Hrust.
  fold (rust_spec.module_name opts) in Hrust. rewrite Hmod in Hrust.
  cbn [negb] in Hrust.
  match type of Hrust with
  | context [rust.generateStructs order ?fuel t ?name ?st ?o ?lvl] =>
      destruct (rust.generateStructs order fuel t name st o lvl)
        as [st'| | |] eqn:Hgen; try done;
      apply rust_text.rust_generateStructs_appends in Hgen as [new Hnew];
      assert (exists import,
                rust.buf st
                = rust.ModuleOpen (rust_spec.module_name opts) :: import)
        as [import Himport] by (case_match; by eexists)
  end.
  injection Hrust as <-. simpl. rewrite Hnew, Himport. simpl. by eexists.
Qed.

Lemma ToRust_always_writes_a_module_witness :
  rust_spec.module_name (rust.mkOptions "" "" [] false) <> "" /\
  exists body,
    [rust.ModuleOpen "generated"; rust.SerdeImport;
     rust.Derive "    " "Debug, Clone, Serialize, Deserialize";
     rust.DocComment "    " "Root"; rust.StructOpen "    " "Root";
     rust.StructClose "    "; rust.ModuleClose]
    = (rust.ModuleOpen (rust_spec.module_name (rust.mkOptions "" "" [] false))
       :: body ++ [rust.ModuleClose])%list.
Proof.
  apply (ToRust_always_writes_a_module (insertion_order _)
           (Some (yema.mkType yema.Struct false (Some []) None))
           (rust.mkOptions "" "" [] false)).
  reflexivity.
Defined.
